(** * BuhChat: share-link download and zip packaging, a shallow embedding

    The development follows the Go sources of the bot:
    - the source of [YandexDownloader] (link resolution, size probe, bounded
      download),
    - [downloader.go] (single-file and bulk zip builders),
    - [main.go] (free-space probe and the temp-directory cleanup worker).

    Conventions of the embedding.
    - A Go [string] is the list of its Unicode code points ([gostring]); the
      program's strings are valid UTF-8, and every byte-oriented library
      function used here ([filepath.Ext], [filepath.Base], [strings.Index],
      [strings.Contains]) looks for ASCII characters only, so it acts on code
      points exactly as it acts on bytes.
    - [int64] and [uint64] values are integers of [Z] with the wrap-around of
      the Go operators written out ([wrap64], [to_uint64]).
    - Effects are explicit: a function that talks to the network or to the
      file system takes the world and returns its result with the new world;
      the world also keeps the log of the calls made.
    - A response body comes to the program as [net/http] delivers it: the
      stream of the server, cut at the declared length when there is one
      ([Yandex.delivered]). *)

From Stdlib Require Import ZArith Ascii String List Lia Sorted.
From stdpp Require Import base decidable numbers list gmap pretty.

Local Open Scope Z_scope.

(** ** Go strings *)

Module GoStr.

Definition rune : Type := Z.
Definition gostring : Type := list rune.

Definition chr (a : ascii) : rune := Z.of_N (N_of_ascii a).
Definition str (s : string) : gostring := map chr (list_ascii_of_string s).

Definition rune_in (set : gostring) (r : rune) : bool := existsb (Z.eqb r) set.

Definition is_empty (s : gostring) : bool :=
  match s with [] => true | _ => false end.

Definition streq (a b : gostring) : bool := bool_decide (a = b).

(** [unicode.IsSpace]: the Latin-1 spaces and the code points of category Z
    with the White_Space property. *)
Definition IsSpace (r : rune) : bool :=
  ((9 <=? r) && (r <=? 13)) || (r =? 32) || (r =? 133) || (r =? 160)
  || (r =? 5760) || ((8192 <=? r) && (r <=? 8202))
  || (r =? 8232) || (r =? 8233) || (r =? 8239) || (r =? 8287) || (r =? 12288).

Fixpoint TrimLeftFunc (f : rune -> bool) (s : gostring) : gostring :=
  match s with
  | [] => []
  | c :: t => if f c then TrimLeftFunc f t else s
  end.

Definition TrimRightFunc (f : rune -> bool) (s : gostring) : gostring :=
  rev (TrimLeftFunc f (rev s)).

Definition TrimFunc (f : rune -> bool) (s : gostring) : gostring :=
  TrimRightFunc f (TrimLeftFunc f s).

(** The longest prefix whose runes satisfy [f], and the rest. *)
Fixpoint span (f : rune -> bool) (s : gostring) : gostring * gostring :=
  match s with
  | [] => ([], [])
  | c :: t => if f c then let '(a, b) := span f t in (c :: a, b) else ([], s)
  end.

(** [strings.TrimSpace] *)
Definition TrimSpace (s : gostring) : gostring := TrimFunc IsSpace s.

(** [strings.Trim(s, cutset)] *)
Definition Trim (s cutset : gostring) : gostring := TrimFunc (rune_in cutset) s.

Fixpoint HasPrefix (s prefix : gostring) : bool :=
  match prefix, s with
  | [], _ => true
  | _ :: _, [] => false
  | p :: prefix', c :: s' => (c =? p) && HasPrefix s' prefix'
  end.

Definition HasSuffix (s suffix : gostring) : bool :=
  HasPrefix (rev s) (rev suffix).

Fixpoint Contains (s substr : gostring) : bool :=
  HasPrefix s substr ||
  match s with
  | [] => false
  | _ :: s' => Contains s' substr
  end.

(** [strings.Index]: position of the first occurrence, [-1] when absent. *)
Fixpoint Index (s substr : gostring) : Z :=
  if HasPrefix s substr then 0
  else match s with
       | [] => -1
       | _ :: s' => let i := Index s' substr in if i <? 0 then -1 else i + 1
       end.

(** [strings.IndexAny] *)
Fixpoint IndexAny (s chars : gostring) : Z :=
  match s with
  | [] => -1
  | c :: s' =>
      if rune_in chars c then 0
      else let i := IndexAny s' chars in if i <? 0 then -1 else i + 1
  end.

(** [s[i:]] and [s[:i]] for an index in range. *)
Definition slice_from (s : gostring) (i : Z) : gostring := drop (Z.to_nat i) s.
Definition slice_to (s : gostring) (i : Z) : gostring := take (Z.to_nat i) s.

(** [strings.TrimSuffix] *)
Definition TrimSuffix (s suffix : gostring) : gostring :=
  if HasSuffix s suffix then take (length s - length suffix)%nat s else s.

(** [strings.Map] with a mapping that either drops the rune ([None], the
    negative result of the Go callback) or replaces it. *)
Definition Map (mapping : rune -> option rune) (s : gostring) : gostring :=
  omap mapping s.

(** [strings.TrimPrefix] *)
Definition TrimPrefix (s prefix : gostring) : gostring :=
  if HasPrefix s prefix then drop (length prefix) s else s.

(** [strings.Join(elems, sep)] *)
Fixpoint JoinStrings (elems : list gostring) (sepr : gostring) : gostring :=
  match elems with
  | [] => []
  | [e] => e
  | e :: rest => e ++ sepr ++ JoinStrings rest sepr
  end.

(** [strings.Split(s, sep)] for a separator of one character. *)
Fixpoint Split (s : gostring) (sepr : rune) : list gostring :=
  match s with
  | [] => [[]]
  | c :: t =>
      if c =? sepr then [] :: Split t sepr
      else match Split t sepr with
           | h :: r => (c :: h) :: r
           | [] => [[c]]
           end
  end.

(** [strconv.Itoa]: decimal digits, with a leading minus sign below zero. *)
Definition Itoa (n : Z) : gostring := str (pretty n).

(** The characters of a decimal numeral: digits and the minus sign. *)
Definition numeral_char (a : ascii) : Prop :=
  48 <= chr a <= 57 \/ chr a = 45.

End GoStr.
Export GoStr.

(** ** Machine integers *)

Definition max_int64 : Z := 2 ^ 63 - 1.
Definition min_int64 : Z := - 2 ^ 63.
Definition max_uint64 : Z := 2 ^ 64 - 1.

(** The value of an [int64] expression whose mathematical result is [x]. *)
Definition wrap64 (x : Z) : Z := (x + 2 ^ 63) mod 2 ^ 64 - 2 ^ 63.

(** The conversion [uint64(x)], also the value of a [uint64] expression. *)
Definition to_uint64 (x : Z) : Z := x mod 2 ^ 64.

(** ** Errors *)

Inductive method := MethodGet | MethodHead.

(** The sentinel errors of the program, the errors it builds with
    [fmt.Errorf], and the errors handed up from the libraries. *)
Inductive error :=
| ErrNotYandexDisk
| ErrDirectNotFound
| ErrFileTooLarge
| ErrArchiveTooLarge
| ErrEmptyLink                                   (* "пустая ссылка" *)
| ErrStatus (m : method) (url : gostring) (code : Z) (* "HEAD %s: %d", "GET %s: %d" *)
| ErrYandexOrItemsEmpty                          (* "yandex or items empty" *)
| ErrNotEnoughDiskSpace                          (* "not enough disk space" *)
| ErrNewRequest (url : gostring)                 (* http.NewRequestWithContext *)
| ErrTooManyRedirects                            (* "too many redirects" *)
| ErrTransport (code : nat)                      (* client.Do: network, timeout, redirects *)
| ErrRead (code : nat)                           (* reading a response body *)
| ErrOS (code : nat).                            (* a failing file-system call *)

Definition result (A : Type) : Type := (error + A)%type.

(** The program compares an error with a sentinel by [==]. *)
#[global] Instance method_eq_dec : EqDecision method.
Proof. solve_decision. Defined.

#[global] Instance error_eq_dec : EqDecision error.
Proof. solve_decision. Defined.

Definition err_is {A : Type} (r : result A) (e : error) : bool :=
  match r with
  | inl e' => bool_decide (e' = e)
  | inr _ => false
  end.

(** ** The Yandex Disk downloader ([YandexDownloader]) *)

Module Yandex.

Definition byte : Type := Byte.byte.

Record Request := mkRequest { Method : method; URL : gostring }.

(** A body stream: its bytes, and the read error that ends the stream
    when it does not end with EOF. *)
Record Body := mkBody { bytes : list byte; tail_err : option nat }.

(** An [http.Response] as it comes from the server; [Location] and
    [ContentDisposition] are [Header.Get] results, empty when absent;
    [ContentLength] is [-1] when the length is unknown; [RespBody] is the
    stream that the server sends after the header. The program reads it
    through [resp.Body], which is [delivered] below. *)
Record Response := mkResponse {
  StatusCode : Z;
  Location : gostring;
  ContentDisposition : gostring;
  ContentLength : Z;
  RespBody : Body
}.

Definition StatusOK : Z := 200.
Definition StatusFound : Z := 302.

(** The collaborators of the downloader outside the program: the HTTP client
    (with its redirect policy and timeout), URL parsing in
    [http.NewRequestWithContext], the conversion [string(body)], the JSON
    decoder for the [href] field and [url.QueryEscape]. [excess_err] is the
    read error with which the client ends a body that the server made
    longer than the length it declared: none over HTTP/1.1, where the
    client stops reading at the declared length, an error over HTTP/2. *)
Class Transport := {
  NetState : Type;
  client_Do : Request -> NetState -> (nat + Response) * NetState;
  excess_err : Response -> option nat;
  url_parses : gostring -> bool;
  bytes_string : list byte -> gostring;
  json_href : list byte -> option gostring;
  QueryEscape : gostring -> gostring
}.

Inductive Event :=
| EvDo (req : Request)        (* a round trip of the HTTP client *)
| EvRead (n : nat).           (* n bytes read from a response body *)

Record World {T : Transport} := mkWorld { net : NetState; log : list Event }.

Record YandexDownloader := mkYandexDownloader { maxSize : Z }.

(** [NewYandexDownloader] also builds the HTTP client, with a timeout of 120
    seconds and the redirect policy [CheckRedirect] ([via] is the number of
    requests already made); both act inside [client_Do]. *)
Definition clientTimeoutSeconds : Z := 120.

Definition CheckRedirect (via : nat) : option error :=
  if (5 <=? via)%nat then Some ErrTooManyRedirects else None.

Definition NewYandexDownloader (maxSizeBytes : Z) : YandexDownloader :=
  {| maxSize := maxSizeBytes |}.

(** [isYandexDiskURL] *)
Definition isYandexDiskURL (s : gostring) : bool :=
  Contains s (str "disk.yandex.ru") || Contains s (str "disk.yandex.com").

(** *** The pattern [reDirectURL]

    The literal prefix https://downloader.disk.yandex. , one or more
    characters of the class a-z and dot, the literal /disk/ , then one or
    more characters that are none of: double quote, single quote, white
    space, angle brackets. The first run must be followed by /disk/, so it
    is the maximal run; the final class is greedy. *)
Definition re_host_class (r : rune) : bool :=
  ((97 <=? r) && (r <=? 122)) || (r =? 46).

(** Not a double quote, a single quote, regexp white space (tab, newline,
    form feed, carriage return, space) or an angle bracket. *)
Definition re_path_class (r : rune) : bool :=
  negb (rune_in [34; 39; 9; 10; 12; 13; 32; 60; 62] r).

Definition re_prefix : gostring := str "https://downloader.disk.yandex.".
Definition re_disk : gostring := str "/disk/".

Definition reDirectURL_match_here (s : gostring) : option gostring :=
  if HasPrefix s re_prefix then
    let '(host, rest) := span re_host_class (drop (length re_prefix) s) in
    if is_empty host then None
    else if HasPrefix rest re_disk then
      let '(path, _) := span re_path_class (drop (length re_disk) rest) in
      if is_empty path then None
      else Some (re_prefix ++ host ++ re_disk ++ path)
    else None
  else None.

(** [reDirectURL.FindString]: the leftmost match, empty when there is none. *)
Fixpoint reDirectURL_FindString (s : gostring) : gostring :=
  match reDirectURL_match_here s with
  | Some m => m
  | None => match s with
            | [] => []
            | _ :: t => reDirectURL_FindString t
            end
  end.

Section WithTransport.
Context {T : Transport}.

(** [http.NewRequestWithContext(ctx, method, url, nil)] *)
Definition NewRequest (m : method) (url : gostring) : result Request :=
  if url_parses url then inr (mkRequest m url) else inl (ErrNewRequest url).

(** [y.client.Do(req)] *)
Definition Do (req : Request) (w : World) : result Response * World :=
  let '(r, s) := client_Do req (net w) in
  (match r with inl c => inl (ErrTransport c) | inr resp => inr resp end,
   {| net := s; log := log w ++ [EvDo req] |}).

(** The code under which [io.ErrUnexpectedEOF] is counted among the read
    errors. *)
Definition unexpectedEOF : nat := 0.

(** [resp.Body] as [net/http] hands it to the program. Without a declared
    length the stream is read to its end. With a declared length
    ([ContentLength >= 0]) at most that many bytes can be read: a stream
    of that length ends with EOF, a longer stream is cut at the declared
    length, and a stream that ends before it ends with an error,
    [io.ErrUnexpectedEOF] when the server closed it cleanly. *)
Definition delivered (resp : Response) : Body :=
  let b := RespBody resp in
  let n := ContentLength resp in
  if n <? 0 then b
  else if Z.of_nat (length (bytes b)) <? n then
    {| bytes := bytes b;
       tail_err := Some (match tail_err b with Some c => c | None => unexpectedEOF end) |}
  else if Z.of_nat (length (bytes b)) =? n then {| bytes := bytes b; tail_err := None |}
  else {| bytes := take (Z.to_nat n) (bytes b); tail_err := excess_err resp |}.

(** [io.ReadAll(io.LimitReader(body, n))]: nothing is read for [n <= 0];
    the limited reader reports EOF once [n] bytes are read, so the end of
    the underlying stream is seen only when it is shorter than [n]. *)
Definition ReadAllLimit (b : Body) (n : Z) (w : World) : result (list byte) * World :=
  if n <=? 0 then (inr [], {| net := net w; log := log w ++ [EvRead 0%nat] |})
  else if Z.of_nat (length (bytes b)) <? n then
    (match tail_err b with
     | Some c => inl (ErrRead c)
     | None => inr (bytes b)
     end,
     {| net := net w; log := log w ++ [EvRead (length (bytes b))] |})
  else (inr (take (Z.to_nat n) (bytes b)),
        {| net := net w; log := log w ++ [EvRead (Z.to_nat n)] |}).

(** [getDirectViaCloudAPI]: the empty string on any failure. *)
Definition getDirectViaCloudAPI (y : YandexDownloader) (shareURL : gostring)
    (w : World) : gostring * World :=
  let u := str "https://cloud-api.yandex.net/v1/disk/public/resources/download?public_key="
           ++ QueryEscape shareURL in
  match NewRequest MethodGet u with
  | inl _ => ([], w)
  | inr req =>
      let '(r, w1) := Do req w in
      match r with
      | inl _ => ([], w1)
      | inr resp =>
          if negb (StatusCode resp =? StatusOK) then ([], w1)
          else
            (* the decoder reads at most 1<<14 bytes of the body *)
            let '(rb, w2) := ReadAllLimit (delivered resp) (2 ^ 14) w1 in
            match rb with
            | inl _ => ([], w2)
            | inr body =>
                match json_href body with
                | None => ([], w2)
                | Some href => (TrimSpace href, w2)
                end
            end
      end
  end.

(** [GetDirectURL] *)
Definition GetDirectURL (y : YandexDownloader) (shareURL : gostring)
    (w : World) : result gostring * World :=
  let shareURL := TrimSpace shareURL in
  if is_empty shareURL then (inl ErrEmptyLink, w)
  else if negb (isYandexDiskURL shareURL) then (inr shareURL, w)
  else
    match NewRequest MethodGet shareURL with
    | inl e => (inl e, w)
    | inr req =>
        let '(r, w1) := Do req w in
        match r with
        | inl e => (inl e, w1)
        | inr resp =>
            let loc := Location resp in
            if negb (is_empty loc) && Contains loc (str "downloader.disk.yandex")
            then (inr loc, w1)
            else
              let '(rb, w2) := ReadAllLimit (delivered resp) (2 ^ 20) w1 in
              match rb with
              | inl e => (inl e, w2)
              | inr body =>
                  let direct := reDirectURL_FindString (bytes_string body) in
                  if negb (is_empty direct) then (inr direct, w2)
                  else
                    let '(href, w3) := getDirectViaCloudAPI y shareURL w2 in
                    if negb (is_empty href) then (inr href, w3)
                    else (inl ErrDirectNotFound, w3)
              end
        end
    end.

(** [GetFileSize]: the size in bytes, [-1] when the length is unknown. *)
Definition GetFileSize (y : YandexDownloader) (shareURL : gostring)
    (w : World) : result Z * World :=
  let shareURL := TrimSpace shareURL in
  if is_empty shareURL then (inl ErrEmptyLink, w)
  else if negb (isYandexDiskURL shareURL) then (inl ErrNotYandexDisk, w)
  else
    let '(rd, w1) := GetDirectURL y shareURL w in
    match rd with
    | inl e => (inl e, w1)
    | inr direct =>
        match NewRequest MethodHead direct with
        | inl e => (inl e, w1)
        | inr req =>
            let '(r, w2) := Do req w1 in
            match r with
            | inl e => (inl e, w2)
            | inr resp =>
                if negb (StatusCode resp =? StatusOK) && negb (StatusCode resp =? StatusFound)
                then (inl (ErrStatus MethodHead direct (StatusCode resp)), w2)
                else if ContentLength resp >=? 0 then (inr (ContentLength resp), w2)
                else (inr (-1), w2)
            end
        end
    end.

(** The file name announced by a [Content-Disposition] header, as
    [downloadByURL] extracts it; ["document"] by default. *)
Definition dispositionFilename (cd : gostring) : gostring :=
  let filename := str "document" in
  if negb (is_empty cd) then
    let i := Index cd (str "filename=") in
    if i >=? 0 then
      let s := Trim (slice_from cd (i + 9)) [32; 34; 39] in
      let s := let e := IndexAny s [59; 32; 9; 10] in
               if e >? 0 then slice_to s e else s in
      if negb (is_empty s) then s else filename
    else filename
  else filename.

(** [downloadByURL]: a HEAD round trip for the declared size and the name,
    then the GET whose body is read through a reader limited to
    [maxSize + 1] bytes. *)
Definition downloadByURL (y : YandexDownloader) (downloadURL : gostring)
    (w : World) : result (list byte * gostring) * World :=
  match NewRequest MethodHead downloadURL with
  | inl e => (inl e, w)
  | inr req =>
      let '(r, w1) := Do req w in
      match r with
      | inl e => (inl e, w1)
      | inr resp =>
          if negb (StatusCode resp =? StatusOK) && negb (StatusCode resp =? StatusFound)
          then (inl (ErrStatus MethodHead downloadURL (StatusCode resp)), w1)
          else
            let size := ContentLength resp in
            if (size >? 0) && (size >? maxSize y) then (inl ErrFileTooLarge, w1)
            else
              let filename := dispositionFilename (ContentDisposition resp) in
              match NewRequest MethodGet downloadURL with
              | inl e => (inl e, w1)
              | inr reqGet =>
                  let '(rg, w2) := Do reqGet w1 in
                  match rg with
                  | inl e => (inl e, w2)
                  | inr respGet =>
                      if negb (StatusCode respGet =? StatusOK)
                      then (inl (ErrStatus MethodGet downloadURL (StatusCode respGet)), w2)
                      else
                        let limit := maxSize y in
                        if (ContentLength respGet >? 0) && (ContentLength respGet >? limit)
                        then (inl ErrFileTooLarge, w2)
                        else
                          let '(rb, w3) :=
                            ReadAllLimit (delivered respGet) (wrap64 (limit + 1)) w2 in
                          match rb with
                          | inl e => (inl e, w3)
                          | inr data =>
                              if Z.of_nat (length data) >? maxSize y
                              then (inl ErrFileTooLarge, w3)
                              else (inr (data, filename), w3)
                          end
                  end
              end
      end
  end.

(** [GetFile] *)
Definition GetFile (y : YandexDownloader) (shareURL : gostring)
    (w : World) : result (list byte * gostring) * World :=
  let shareURL := TrimSpace shareURL in
  if negb (isYandexDiskURL shareURL) then (inl ErrNotYandexDisk, w)
  else
    match NewRequest MethodGet shareURL with
    | inl e => (inl e, w)
    | inr req =>
        let '(r, w1) := Do req w in
        match r with
        | inl e => (inl e, w1)
        | inr resp =>
            let loc := Location resp in
            if negb (is_empty loc)
               && (Contains loc (str "downloader.disk.yandex")
                   || HasPrefix loc (str "https://"))
            then downloadByURL y loc w1
            else
              let '(rb, w2) := ReadAllLimit (delivered resp) (2 ^ 20) w1 in
              match rb with
              | inl e => (inl e, w2)
              | inr body =>
                  let direct := reDirectURL_FindString (bytes_string body) in
                  if is_empty direct then
                    let '(href, w3) := getDirectViaCloudAPI y shareURL w2 in
                    if negb (is_empty href) then downloadByURL y href w3
                    else (inl ErrDirectNotFound, w3)
                  else downloadByURL y direct w2
              end
        end
    end.

(** The part of [GetFile] before the download: the address that it hands
    to [downloadByURL], with the world at that point, or the error that it
    returns without downloading. *)
Definition GetFile_target (y : YandexDownloader) (shareURL : gostring)
    (w : World) : result gostring * World :=
  let shareURL := TrimSpace shareURL in
  if negb (isYandexDiskURL shareURL) then (inl ErrNotYandexDisk, w)
  else
    match NewRequest MethodGet shareURL with
    | inl e => (inl e, w)
    | inr req =>
        let '(r, w1) := Do req w in
        match r with
        | inl e => (inl e, w1)
        | inr resp =>
            let loc := Location resp in
            if negb (is_empty loc)
               && (Contains loc (str "downloader.disk.yandex")
                   || HasPrefix loc (str "https://"))
            then (inr loc, w1)
            else
              let '(rb, w2) := ReadAllLimit (delivered resp) (2 ^ 20) w1 in
              match rb with
              | inl e => (inl e, w2)
              | inr body =>
                  let direct := reDirectURL_FindString (bytes_string body) in
                  if is_empty direct then
                    let '(href, w3) := getDirectViaCloudAPI y shareURL w2 in
                    if negb (is_empty href) then (inr href, w3)
                    else (inl ErrDirectNotFound, w3)
                  else (inr direct, w2)
              end
        end
    end.

End WithTransport.

(** A transport for closed examples: the client answers the successive
    round trips from a script and fails when the script is exhausted. *)
Definition code_of_byte (b : byte) : rune := Z.of_N (Byte.to_N b).

#[local] Instance scripted : Transport := {|
  NetState := list (nat + Response);
  client_Do := fun _ st =>
    match st with
    | [] => (inl 0%nat, [])
    | r :: rest => (r, rest)
    end;
  excess_err := fun _ => None;
  url_parses := fun _ => true;
  bytes_string := map code_of_byte;
  json_href := fun _ => None;
  QueryEscape := fun s => s
|}.

End Yandex.

(** ** Paths ([path/filepath] on Unix) *)

Module FilePath.

Definition sep : rune := 47.
Definition is_sep (r : rune) : bool := r =? sep.

(** [filepath.Ext]: the suffix that starts at the last dot of the last
    element; the scan runs from the end and stops at a separator. *)
Fixpoint ext_scan (rs : gostring) (acc : gostring) : gostring :=
  match rs with
  | [] => []
  | c :: rs' =>
      if is_sep c then []
      else if c =? 46 then c :: acc
      else ext_scan rs' (c :: acc)
  end.

Definition Ext (path : gostring) : gostring := ext_scan (rev path) [].

(** The part of [s] after its last separator (all of [s] without one). *)
Definition after_last_sep (s : gostring) : gostring :=
  rev (fst (span (fun r => negb (is_sep r)) (rev s))).

(** [filepath.Base] *)
Definition Base (path : gostring) : gostring :=
  if is_empty path then str "."
  else
    let path := TrimRightFunc is_sep path in
    let path := after_last_sep path in
    if is_empty path then [sep] else path.

(** A cleaned absolute path, as the list of its elements below the root.
    [os.TempDir] and everything joined to it are of this form. *)
Definition path : Type := list gostring.

Fixpoint split_sep (s : gostring) : list gostring :=
  match s with
  | [] => [[]]
  | c :: t =>
      if is_sep c then [] :: split_sep t
      else match split_sep t with
           | h :: r => (c :: h) :: r
           | [] => [[c]]
           end
  end.

(** One element in [filepath.Clean]: empty elements and [.] are dropped,
    [..] removes the last element and stays at the root. *)
Definition push_elem (p : path) (e : gostring) : path :=
  if is_empty e || streq e (str ".") then p
  else if streq e (str "..") then removelast p
  else p ++ [e].

(** [filepath.Join(dir, name)] for a cleaned absolute [dir]:
    [Clean(dir + "/" + name)]. *)
Definition Join (dir : path) (name : gostring) : path :=
  fold_left push_elem (split_sep name) dir.

(** The string of a cleaned absolute path. *)
Definition render (p : path) : gostring :=
  match p with
  | [] => [sep]
  | _ => flat_map (fun e => sep :: e) p
  end.

(** The path and the paths below it. *)
Definition under (dir p : path) : bool := bool_decide (dir `prefix_of` p).

(** Two paths on one chain: one is the other or lies below it. *)
Definition chain (dir p : path) : Prop := dir `prefix_of` p \/ p `prefix_of` dir.

End FilePath.
Export FilePath.

(** ** Free space and the cleanup worker ([main.go]) *)

Module Main.

Definition minFreeBytes : Z := 100 * 1024 * 1024.

(** [time.Duration] counts nanoseconds. *)
Definition Minute : Z := 60 * 1000000000.
Definition Hour : Z := 60 * Minute.
Definition cleanupMaxAge : Z := 30 * Minute.
Definition cleanupInterval : Z := 1 * Hour.

(** The fields of [syscall.Statfs_t] that the probe reads: [Bavail] is a
    [uint64], [Bsize] an [int64]. *)
Record Statfs_t := mkStatfs { Bavail : Z; Bsize : Z }.

(** [getFreeSpaceBytes]: [windows] is [runtime.GOOS == "windows"], [statfs]
    the outcome of [syscall.Statfs(path, &st)], [None] when it fails. The
    error result of the Go function is always nil and is left out. *)
Definition getFreeSpaceBytes (windows : bool) (statfs : option Statfs_t) : Z :=
  if windows then max_uint64
  else match statfs with
       | None => max_uint64
       | Some st => to_uint64 (Bavail st * to_uint64 (Bsize st))
       end.

(** [t.Sub(u)]: the difference of two instants (nanoseconds since the
    epoch), saturated to the range of [time.Duration]. *)
Definition Sub (t u : Z) : Z :=
  if t - u >? max_int64 then max_int64
  else if t - u <? min_int64 then min_int64
  else t - u.

(** An [os.DirEntry] of the listing: [ModTime] is the modification time that
    [e.Info()] reports, [None] when [e.Info()] fails. *)
Record DirEntry := mkDirEntry {
  Name : gostring;
  IsDir : bool;
  ModTime : option Z
}.

Inductive Removal :=
| RemoveAll (p : path)        (* os.RemoveAll(path) *)
| Remove (p : path).          (* os.Remove(path) *)

(** The body of the loop over the entries, for one entry: the call it
    makes, if any. *)
Definition sweepEntry (dir : path) (now : Z) (e : DirEntry) : option Removal :=
  let name := Name e in
  let path := Join dir name in
  if IsDir e then
    if HasPrefix name (str "bulk_") || HasPrefix name (str "single_") then
      match ModTime e with
      | None => None
      | Some mtime =>
          if Sub now mtime >=? cleanupMaxAge then Some (RemoveAll path) else None
      end
    else None
  else if negb (HasPrefix name (str "bugchat-")) then None
  else
    match ModTime e with
    | None => None
    | Some mtime =>
        if Sub now mtime <? cleanupMaxAge then None else Some (Remove path)
    end.

(** One tick of the worker: [readdir] is the outcome of [os.ReadDir(dir)]
    ([None] when it fails), [now] is [time.Now()]. *)
Definition cleanupTick (dir : path) (readdir : option (list DirEntry)) (now : Z)
    : list Removal :=
  match readdir with
  | None => []
  | Some entries => omap (sweepEntry dir now) entries
  end.

(** [StartCleanupWorker] over the ticks its ticker delivers: the removals
    it makes, in order. *)
Definition StartCleanupWorker (dir : path)
    (ticks : list (option (list DirEntry) * Z)) : list Removal :=
  flat_map (fun t => cleanupTick dir (fst t) (snd t)) ticks.

(** *** The environment file ([loadEnv]) *)

(** The environment of the process: the variables that are set. *)
Definition Env : Type := gmap gostring gostring.

(** [os.Getenv]: the empty string for a variable that is not set. *)
Definition Getenv (k : gostring) (env : Env) : gostring := default [] (env !! k).

(** [os.Setenv]: refused (the error is ignored by the program) for an
    empty name, for a name with an equals sign or a NUL, and for a value
    with a NUL. *)
Definition Setenv (k v : gostring) (env : Env) : Env :=
  if is_empty k || rune_in k 61 || rune_in k 0 || rune_in v 0 then env
  else <[k := v]> env.

(** The body of the loop over the lines of the file. *)
Definition loadEnvLine (env : Env) (line : gostring) : Env :=
  let line := TrimSpace line in
  if is_empty line || HasPrefix line (str "#") then env
  else
    let i := Index line (str "=") in
    if i <=? 0 then env
    else
      let k := TrimSpace (slice_to line i) in
      let v := TrimSpace (slice_from line (i + 1)) in
      let v := Trim v [34; 39] in
      if negb (is_empty k) && is_empty (Getenv k env) then Setenv k v env else env.

(** [loadEnv]: [file] is the outcome of [os.ReadFile(".env")]. *)
Definition loadEnv (file : result gostring) (env : Env) : option error * Env :=
  match file with
  | inl err => (Some err, env)
  | inr data => (None, fold_left loadEnvLine (Split data 10) env)
  end.

(** *** The conversation states ([fsm])

    The methods run under the lock of the structure, one at a time. *)
Definition fsm : Type := gmap Z gostring.

Definition newFSM : fsm := ∅.

Definition get (f : fsm) (uid : Z) : gostring := default [] (f !! uid).

Definition set (f : fsm) (uid : Z) (s : gostring) : fsm :=
  if is_empty s then delete uid f else <[uid := s]> f.

Definition reset (f : fsm) (uid : Z) : fsm := set f uid [].

End Main.

(** ** The archive builders ([downloader.go]) *)

Module Downloader.

Import Yandex.

(** *** The file system under the temporary-file root *)

Definition entry : Type := gostring * list byte.

(** A directory, a regular file with its bytes, or a zip file with the
    entries written to it; [complete] tells whether the zip writer was
    closed without error (the central directory is in place). *)
Inductive node :=
| Dir
| File (data : list byte)
| Archive (entries : list entry) (complete : bool).

Inductive Call :=
| CallMkdirAll (p : path)
| CallRemoveAll (p : path)
| CallWriteFile (p : path)
| CallCreate (p : path)
| CallOpen (p : path)
| CallFileClose (p : path)
| CallDownloadToFile (url : gostring) (dest : path)
| CallCreateHeader (name : gostring)
| CallCopy
| CallZipClose.

(** The platform: [runtime.GOOS == "windows"] and [os.TempDir()]. *)
Class Platform := { windows : bool; TempDir : path }.

(** [DownloadToFile], the method of [YandexDownloader] that
    [BulkDownloadAndZip] calls, is not among the sources. It is a parameter:
    a function of the file system and of a state of its own (the network)
    that returns the number of bytes written or an error. *)
Class Fetcher := {
  DlState : Type;
  DownloadToFile :
    YandexDownloader -> gostring -> path -> gmap path node -> DlState ->
    result Z * gmap path node * DlState
}.

(** The world of the builders: the file system, the outcomes of the
    successive fallible system calls ([None]: the call meets no fault;
    [Some c]: it fails with code [c], and a copy stops after [c] bytes;
    an exhausted list means no more faults), the log of the calls made,
    what [syscall.Statfs] reports for the temporary-file root, and the
    state of the downloader. *)
Record World {F : Fetcher} := mkWorld {
  fs : gmap path node;
  faults : list (option nat);
  calls : list Call;
  disk : option Main.Statfs_t;
  dl : DlState
}.

Definition ENOENT : nat := 2.
Definition ENOTDIR : nat := 20.
Definition EISDIR : nat := 21.

Definition is_dir (m : gmap path node) (p : path) : bool :=
  match p with
  | [] => true
  | _ => match m !! p with Some Dir => true | _ => false end
  end.

Definition exists_at (m : gmap path node) (p : path) : bool :=
  match p with
  | [] => true
  | _ => match m !! p with Some _ => true | None => false end
  end.

Definition file_bytes (m : gmap path node) (p : path) : list byte :=
  match m !! p with Some (File d) => d | _ => [] end.

(** The non-empty prefixes of a path: the directories [MkdirAll] makes. *)
Definition prefixes (p : path) : list path :=
  map (fun n => take n p) (seq 1 (length p)).

Section WithWorld.
Context {P : Platform} {F : Fetcher}.

Definition set_fs (m : gmap path node) (w : World) : World :=
  {| fs := m; faults := faults w; calls := calls w; disk := disk w; dl := dl w |}.

Definition log_call (c : Call) (w : World) : World :=
  {| fs := fs w; faults := faults w; calls := calls w ++ [c];
     disk := disk w; dl := dl w |}.

(** A fallible system call: it is logged and takes the next outcome. *)
Definition oscall (c : Call) (w : World) : option nat * World :=
  match faults w with
  | [] => (None, log_call c w)
  | f :: rest =>
      (f, {| fs := fs w; faults := rest; calls := calls w ++ [c];
             disk := disk w; dl := dl w |})
  end.

(** [os.MkdirAll(p, 0700)] *)
Definition os_MkdirAll (p : path) (w : World) : option error * World :=
  let '(f, w) := oscall (CallMkdirAll p) w in
  match f with
  | Some c => (Some (ErrOS c), w)
  | None =>
      if forallb (fun q => match fs w !! q with
                           | None | Some Dir => true
                           | Some _ => false
                           end) (prefixes p)
      then (None, set_fs (foldr (fun q m => <[q := Dir]> m) (fs w) (prefixes p)) w)
      else (Some (ErrOS ENOTDIR), w)
  end.

(** [os.RemoveAll(p)]: the path and everything below it go away. The
    program ignores its error; for a directory that the process created
    itself with mode 0700 the call is taken to succeed. *)
Definition os_RemoveAll (p : path) (w : World) : World :=
  let w := log_call (CallRemoveAll p) w in
  set_fs (filter (fun kv => ~ p `prefix_of` kv.1) (fs w)) w.

Definition write_node (c : Call) (p : path) (n : node) (w : World)
    : option error * World :=
  let '(f, w) := oscall c w in
  match f with
  | Some c => (Some (ErrOS c), w)
  | None =>
      if is_dir (fs w) p then (Some (ErrOS EISDIR), w)
      else if negb (is_dir (fs w) (removelast p)) then (Some (ErrOS ENOENT), w)
      else (None, set_fs (<[p := n]> (fs w)) w)
  end.

(** [os.WriteFile(p, data, 0600)] *)
Definition os_WriteFile (p : path) (data : list byte) (w : World)
    : option error * World :=
  write_node (CallWriteFile p) p (File data) w.

(** [os.Create(p)]: the file is created or truncated. *)
Definition os_Create (p : path) (w : World) : option error * World :=
  write_node (CallCreate p) p (File []) w.

(** [os.Open(p)] *)
Definition os_Open (p : path) (w : World) : option error * World :=
  let '(f, w) := oscall (CallOpen p) w in
  match f with
  | Some c => (Some (ErrOS c), w)
  | None => if exists_at (fs w) p then (None, w) else (Some (ErrOS ENOENT), w)
  end.

(** [f.Close()] *)
Definition file_Close (p : path) (w : World) : option error * World :=
  let '(f, w) := oscall (CallFileClose p) w in
  (match f with Some c => Some (ErrOS c) | None => None end, w).

(** [zw.CreateHeader(fh)]: a new entry of the zip writer. *)
Definition zw_CreateHeader (name : gostring) (zw : list entry) (w : World)
    : option error * list entry * World :=
  let '(f, w) := oscall (CallCreateHeader name) w in
  match f with
  | Some c => (Some (ErrOS c), zw, w)
  | None => (None, zw ++ [(name, [])], w)
  end.

(** [io.Copy(w, f)] into the entry opened last; [src] is [None] for the nil
    file of a failed [os.Open]. *)
Definition io_Copy (src : option path) (zw : list entry) (w : World)
    : list entry * World :=
  let '(f, w) := oscall CallCopy w in
  let data := match src with Some p => file_bytes (fs w) p | None => [] end in
  let copied := match f with Some k => take k data | None => data end in
  (match reverse zw with
   | [] => zw
   | (name, _) :: others => reverse others ++ [(name, copied)]
   end, w).

(** [zw.Close()]: the zip file at [zipPath] holds the entries written. *)
Definition zw_Close (zipPath : path) (zw : list entry) (w : World)
    : option error * World :=
  let '(f, w) := oscall CallZipClose w in
  let ok := match f with Some _ => false | None => true end in
  (match f with Some c => Some (ErrOS c) | None => None end,
   set_fs (<[zipPath := Archive zw ok]> (fs w)) w).

(** *** Names *)

Record BulkItem := mkBulkItem { URL : gostring; Filename : gostring }.

(** The constant [bad]: slash, backslash, colon, asterisk, question mark,
    double quote, angle brackets and vertical bar. *)
Definition bad : gostring := [47; 92; 58; 42; 63; 34; 60; 62; 124].

Definition sanitizeCategoryForZip (s : gostring) : gostring :=
  let out := Map (fun r =>
                    if rune_in bad r then None
                    else if (r =? 32) || (r =? 9) then Some 95
                    else Some r) s in
  let out := TrimSpace out in
  if is_empty out then str "archive" else out.

Definition sanitizeBulkFilename (s : gostring) : gostring :=
  let out := Map (fun r => if rune_in bad r then None else Some r) s in
  TrimSpace out.

(** The name tried for a counter: the counter goes before the extension. *)
Definition suffixed (baseNoExt ext : gostring) (counter : Z) : gostring :=
  if negb (is_empty ext) then baseNoExt ++ str "_" ++ Itoa counter ++ ext
  else baseNoExt ++ str "_" ++ Itoa counter.

(** The loop [for used[finalName] { counter++; ... }]. The fuel bounds the
    number of turns; [finalNameFor_spec] shows that with the fuel given in
    [finalNameFor] the loop leaves through its test. *)
Fixpoint uniqueName (fuel : nat) (used : gset gostring)
    (baseNoExt ext finalName : gostring) (counter : Z) : gostring :=
  if bool_decide (finalName ∈ used) then
    match fuel with
    | O => finalName
    | S fuel' =>
        let counter := counter + 1 in
        uniqueName fuel' used baseNoExt ext (suffixed baseNoExt ext counter) counter
    end
  else finalName.

(** The name of item [i] (lines 78 to 93 of the loop body). *)
Definition baseFor (i : Z) (it : BulkItem) : gostring :=
  let base := sanitizeBulkFilename (Filename it) in
  if is_empty base then str "file_" ++ Itoa i else base.

Definition finalNameFor (used : gset gostring) (i : Z) (it : BulkItem) : gostring :=
  let base := baseFor i it in
  let ext := Ext base in
  let baseNoExt := TrimSuffix base ext in
  uniqueName (S (size used)) used baseNoExt ext base 0.

(** The names that the loop over the items gives, in order: the loop body
    with [used] threaded through. *)
Fixpoint assignNames (i : Z) (used : gset gostring) (items : list BulkItem)
    : list gostring :=
  match items with
  | [] => []
  | it :: rest =>
      let finalName := finalNameFor used i it in
      finalName :: assignNames (i + 1) ({[finalName]} ∪ used) rest
  end.

(** The convention as the specification words it, to compare with
    [assignNames]: the first item that asks for a name keeps it, and the
    k-th later item that asks for the same name gets the counter k before
    the extension ([name_1.ext], [name_2.ext], ...). *)
Definition occurrences (base : gostring) (earlier : list gostring) : Z :=
  Z.of_nat (length (filter (fun b => b = base) earlier)).

Fixpoint conventionNames (i : Z) (earlier : list gostring) (items : list BulkItem)
    : list gostring :=
  match items with
  | [] => []
  | it :: rest =>
      let base := baseFor i it in
      let k := occurrences base earlier in
      (if k =? 0 then base else suffixed (TrimSuffix base (Ext base)) (Ext base) k)
      :: conventionNames (i + 1) (earlier ++ [base]) rest
  end.

(** *** ZipBytesToTemp

    [id] is the string of the identifier that [uuid.New()] returns. *)
Definition ZipBytesToTemp (data : list byte) (innerFilename zipFilename : gostring)
    (id : gostring) (w : World) : result (path * path) * World :=
  let innerFilename := Base innerFilename in
  let innerFilename :=
    if is_empty innerFilename || streq innerFilename (str ".")
    then str "document" else innerFilename in
  let zipFilename := Base zipFilename in
  let zipFilename :=
    if is_empty zipFilename || streq zipFilename (str ".")
    then str "archive.zip" else zipFilename in
  let dir := Join TempDir (str "single_" ++ id) in
  let '(e, w) := os_MkdirAll dir w in
  match e with
  | Some err => (inl err, w)
  | None =>
      let cleanup := os_RemoveAll dir in
      let rawPath := Join dir innerFilename in
      let '(e, w) := os_WriteFile rawPath data w in
      match e with
      | Some err => (inl err, cleanup w)
      | None =>
          let zipPath := Join dir zipFilename in
          let '(e, w) := os_Create zipPath w in
          match e with
          | Some err => (inl err, cleanup w)
          | None =>
              let '(e, zw, w) := zw_CreateHeader innerFilename [] w in
              match e with
              | Some err =>
                  let '(_, w) := zw_Close zipPath zw w in
                  let '(_, w) := file_Close zipPath w in
                  (inl err, cleanup w)
              | None =>
                  let '(e, w) := os_Open rawPath w in
                  let f := match e with Some _ => None | None => Some rawPath end in
                  let '(zw, w) := io_Copy f zw w in
                  let '(_, w) := file_Close rawPath w in
                  let '(_, w) := zw_Close zipPath zw w in
                  let '(_, w) := file_Close zipPath w in
                  (inr (zipPath, dir), w)
              end
          end
      end
  end.

(** *** BulkDownloadAndZip *)

Record LoopState := mkLoopState {
  used : gset gostring;
  writtenPaths : list path;
  total : Z
}.

(** One turn of the loop over the items. *)
Definition bulkItem (y : YandexDownloader) (baseDir : path) (maxArchiveBytes : Z)
    (i : Z) (it : BulkItem) (st : LoopState) (w : World) : result LoopState * World :=
  let cleanup := os_RemoveAll baseDir in
  let finalName := finalNameFor (used st) i it in
  let used' := {[finalName]} ∪ used st in
  let destPath := Join baseDir finalName in
  let w := log_call (CallDownloadToFile (URL it) destPath) w in
  let '(r, m, d) := DownloadToFile y (URL it) destPath (fs w) (dl w) in
  let w := {| fs := m; faults := faults w; calls := calls w; disk := disk w; dl := d |} in
  match r with
  | inl err => (inl err, cleanup w)
  | inr n =>
      let total' := wrap64 (total st + n) in
      if total' >? maxArchiveBytes then (inl ErrArchiveTooLarge, cleanup w)
      else (inr {| used := used'; writtenPaths := writtenPaths st ++ [destPath];
                   total := total' |}, w)
  end.

Fixpoint bulkItems (y : YandexDownloader) (baseDir : path) (maxArchiveBytes : Z)
    (i : Z) (items : list BulkItem) (st : LoopState) (w : World)
    : result LoopState * World :=
  match items with
  | [] => (inr st, w)
  | it :: rest =>
      let '(r, w) := bulkItem y baseDir maxArchiveBytes i it st w in
      match r with
      | inl err => (inl err, w)
      | inr st => bulkItems y baseDir maxArchiveBytes (i + 1) rest st w
      end
  end.

(** The loop over the written paths that fills the zip. *)
Fixpoint zipPaths (baseDir zipPath : path) (ps : list path) (zw : list entry)
    (w : World) : option error * list entry * World :=
  match ps with
  | [] => (None, zw, w)
  | p :: rest =>
      let cleanup := os_RemoveAll baseDir in
      let innerName := Base (render p) in
      let '(e, zw, w) := zw_CreateHeader innerName zw w in
      match e with
      | Some err =>
          let '(_, w) := zw_Close zipPath zw w in
          let '(_, w) := file_Close zipPath w in
          (Some err, zw, cleanup w)
      | None =>
          let '(e, w) := os_Open p w in
          match e with
          | Some err =>
              let '(_, w) := zw_Close zipPath zw w in
              let '(_, w) := file_Close zipPath w in
              (Some err, zw, cleanup w)
          | None =>
              let '(zw, w) := io_Copy (Some p) zw w in
              let '(_, w) := file_Close p w in
              zipPaths baseDir zipPath rest zw w
          end
      end
  end.

(** [yandex] is [None] for the nil pointer; [id] is the string of the
    identifier that [uuid.New()] returns. *)
Definition BulkDownloadAndZip (yandex : option YandexDownloader)
    (items : list BulkItem) (categoryName : gostring)
    (maxArchiveBytes minFreeBytes : Z) (id : gostring) (w : World)
    : result (path * path) * World :=
  match yandex, items with
  | None, _ | _, [] => (inl ErrYandexOrItemsEmpty, w)
  | Some y, _ :: _ =>
      let tmp := TempDir in
      let free := Main.getFreeSpaceBytes windows (disk w) in
      if free <? to_uint64 minFreeBytes then (inl ErrNotEnoughDiskSpace, w)
      else
        let baseDir := Join tmp (str "bulk_" ++ id) in
        let '(e, w) := os_MkdirAll baseDir w in
        match e with
        | Some err => (inl err, w)
        | None =>
            let cleanup := os_RemoveAll baseDir in
            let '(r, w) :=
              bulkItems y baseDir maxArchiveBytes 0 items
                {| used := ∅; writtenPaths := []; total := 0 |} w in
            match r with
            | inl err => (inl err, w)
            | inr st =>
                let zipName := sanitizeCategoryForZip categoryName ++ str ".zip" in
                let zipName :=
                  if streq zipName (str ".zip") then str "archive.zip" else zipName in
                let zipPath := Join baseDir zipName in
                let '(e, w) := os_Create zipPath w in
                match e with
                | Some err => (inl err, cleanup w)
                | None =>
                    let '(e, zw, w) := zipPaths baseDir zipPath (writtenPaths st) [] w in
                    match e with
                    | Some err => (inl err, w)
                    | None =>
                        let '(e, w) := zw_Close zipPath zw w in
                        match e with
                        | Some err =>
                            let '(_, w) := file_Close zipPath w in
                            (inl err, cleanup w)
                        | None =>
                            let '(e, w) := file_Close zipPath w in
                            match e with
                            | Some err => (inl err, cleanup w)
                            | None => (inr (zipPath, baseDir), w)
                            end
                        end
                    end
                end
            end
        end
  end.

(** The workspace is gone: nothing is left at the directory or below it,
    and the last call made was the [os.RemoveAll] of the directory. *)
Definition workspaceRemoved (dir : path) (w : World) : Prop :=
  (forall p, dir `prefix_of` p -> fs w !! p = None) /\
  last (calls w) = Some (CallRemoveAll dir).

End WithWorld.

(** Modelled from the spec: the body of [DownloadToFile] is missing. By
    section 4.4 of the specification it fetches an item "directly into the
    Workspace", that is, into a regular file at its destination: it fails
    when the destination is a directory (as [os.Create] does), and it leaves
    every directory in place. *)
Class FetcherLaws {F : Fetcher} : Prop := {
  download_onto_dir : forall y url dest m d r m' d',
    DownloadToFile y url dest m d = (r, m', d') ->
    is_dir m dest = true -> exists e, r = inl e;
  download_keeps_dirs : forall y url dest m d r m' d' p,
    DownloadToFile y url dest m d = (r, m', d') ->
    is_dir m p = true -> is_dir m' p = true
}.

(** The entry names of the zip file at a path. *)
Definition archiveNames (m : gmap path node) (zipPath : path) : option (list gostring) :=
  match m !! zipPath with
  | Some (Archive es _) => Some (map fst es)
  | _ => None
  end.

(** The downloads among the calls of a log, in order: the URL and the
    destination of each. *)
Definition downloadsOf (cs : list Call) : list (gostring * path) :=
  omap (fun c => match c with
                 | CallDownloadToFile url dest => Some (url, dest)
                 | _ => None
                 end) cs.

(** Nothing is at a directory or below it. *)
Definition absent {F : Fetcher} (dir : path) (w : World) : Prop :=
  forall p : path, dir `prefix_of` p -> fs w !! p = None.

(** No download was made between two worlds. *)
Definition quiet {F : Fetcher} (w w' : World) : Prop :=
  downloadsOf (calls w') = downloadsOf (calls w).

(** A platform and a downloader for closed examples: Linux with [/tmp];
    a download writes as many zero bytes as the URL has characters, and
    fails like [os.Create] when the destination is a directory or lies in
    no directory. *)
#[local] Instance linux : Platform := {| windows := false; TempDir := [str "tmp"] |}.

#[local] Instance stub : Fetcher := {|
  DlState := unit;
  DownloadToFile := fun _ url dest m d =>
    if is_dir m dest then (inl (ErrOS EISDIR), m, d)
    else if negb (is_dir m (removelast dest)) then (inl (ErrOS ENOENT), m, d)
    else (inr (Z.of_nat (length url)),
          <[dest := File (replicate (length url) Byte.x00)]> m, d)
|}.

Definition emptyWorld (faults : list (option nat)) : World (F := stub) :=
  @mkWorld stub ∅ faults [] (Some (Main.mkStatfs 1000000 4096)) tt.

End Downloader.

(** ** Text constants of the program *)

Module Utf8.

(** The code points of a UTF-8 byte sequence; the string constants of the
    program are written in the source file in UTF-8. *)
Fixpoint decode (bs : list Z) : gostring :=
  match bs with
  | [] => []
  | b0 :: rest =>
      if b0 <? 128 then b0 :: decode rest
      else if b0 <? 224 then
        match rest with
        | b1 :: rest => ((b0 - 192) * 64 + (b1 - 128)) :: decode rest
        | _ => [65533]
        end
      else if b0 <? 240 then
        match rest with
        | b1 :: b2 :: rest =>
            ((b0 - 224) * 4096 + (b1 - 128) * 64 + (b2 - 128)) :: decode rest
        | _ => [65533]
        end
      else
        match rest with
        | b1 :: b2 :: b3 :: rest =>
            ((b0 - 240) * 262144 + (b1 - 128) * 4096 + (b2 - 128) * 64 + (b3 - 128))
            :: decode rest
        | _ => [65533]
        end
  end.

Definition ustr (s : string) : gostring := decode (str s).

End Utf8.
Export Utf8.

(** ** The spreadsheet ([SheetsAPI]) *)

Module Sheets.

Definition sheetНастройкиТекста : gostring := ustr "Настройки_Текста".
Definition sheetКатегории : gostring := ustr "Категории".
Definition sheetДокументы : gostring := ustr "Документы".
Definition sheetПожелания : gostring := ustr "Пожелания".
Definition sheetЗаявкиIMO : gostring := ustr "Заявки_IMO".
Definition sheetПользователи : gostring := ustr "Пользователи".
Definition sheetАдмины : gostring := ustr "Админы".
Definition sheetЛогиОшибок : gostring := ustr "Логи_Ошибок".

(** [sheetHeaders]: the first row of each sheet. *)
Definition sheetHeaders : list (gostring * list gostring) :=
  [(sheetНастройкиТекста, [ustr "Ключ"; ustr "Текст"]);
   (sheetКатегории, [ustr "Название"; ustr "ID"]);
   (sheetДокументы, [ustr "ID_Категории"; ustr "Название"; ustr "Описание";
                     ustr "Ссылка"; ustr "File_ID"]);
   (sheetПожелания, [ustr "Дата"; ustr "Юзернейм"; ustr "ID_Юзера"; ustr "Текст"]);
   (sheetЗаявкиIMO, [ustr "Дата"; ustr "Юзернейм"; ustr "ID_Юзера"; ustr "ФИО";
                     ustr "Телефон"; ustr "Должность"; ustr "Источник"]);
   (sheetПользователи, [ustr "ID_Пользователя"; ustr "Юзернейм";
                        ustr "Дата_Регистрации"]);
   (sheetАдмины, [ustr "Юзернейм"; ustr "ID_Чата"]);
   (sheetЛогиОшибок, [ustr "Дата"; ustr "Ошибка"; ustr "Контекст"])].

(** [sheetHeaders[title]]: nil for a title that is no key of the map. *)
Fixpoint headersOf (table : list (gostring * list gostring)) (title : gostring)
    : list gostring :=
  match table with
  | [] => []
  | (t, hs) :: rest => if streq t title then hs else headersOf rest title
  end.

(** A cell of a [ValueRange], an [interface{}]: a string, a [float64] or
    a value of another type. *)
Inductive cell {float64 other : Type} :=
| CellString (s : gostring)
| CellFloat (x : float64)
| CellOther (v : other).
Arguments cell : clear implicits.

(** The collaborators of [SheetsAPI] outside the program: the values
    service of the spreadsheet, with the formatting of the numbers and of
    the other values that it returns, and the scanner of a decimal number
    ([None] when it fails). *)
Class Service := {
  SheetState : Type;
  float64 : Type;
  other : Type;
  FormatFloat : float64 -> gostring;       (* strconv.FormatFloat(x, 'f', -1, 64) *)
  Sprint : other -> gostring;              (* fmt.Sprint(v) *)
  Sscan_int : gostring -> option Z;        (* fmt.Sscanf(s, "%d", &id) *)
  Values_Get : gostring -> SheetState ->
               (nat + list (list (cell float64 other))) * SheetState;
  Values_Update : gostring -> list (list (cell float64 other)) -> SheetState ->
                  option nat * SheetState
}.

Record Document := mkDocument {
  IDКатегории : gostring;
  Название : gostring;
  Описание : gostring;
  Ссылка : gostring;
  FileID : gostring;
  SheetRow : Z
}.

Record Category := mkCategory { ID : gostring; Name : gostring }.

(** [colToLetter]: the letters of a column, counted from 1. The fuel bounds
    the depth of the recursion; [colToLetter_step] shows that the fuel given
    in [colToLetter] never runs out. *)
Fixpoint colToLetter_rec (fuel : nat) (n : Z) : gostring :=
  if n <=? 0 then []
  else if n <=? 26 then [65 + n - 1]
  else match fuel with
       | O => []
       | S fuel' => colToLetter_rec fuel' ((n - 1) / 26) ++ [65 + (n - 1) mod 26]
       end.

Definition colToLetter (n : Z) : gostring := colToLetter_rec (Z.to_nat n) n.

(** The number that a string of capital letters stands for, to compare
    with [colToLetter]: [A] is 1, [Z] is 26, [AA] is 27. *)
Definition letterToCol (s : gostring) : Z :=
  fold_left (fun acc c => acc * 26 + (c - 65 + 1)) s 0.

Section WithService.
Context {S : Service}.

(** [strCell] *)
Definition strCell (v : cell float64 other) : gostring :=
  match v with
  | CellString x => x
  | CellFloat x => FormatFloat x
  | CellOther v => Sprint v
  end.

(** [strings.TrimSpace(strCell(row[k]))] for an index in range. *)
Definition field (row : list (cell float64 other)) (k : nat) : gostring :=
  match row !! k with
  | Some c => TrimSpace (strCell c)
  | None => []
  end.

(** The body of the loop of [GetDocumentsByCategory] for the row of index
    [i]: the document that it appends, if any. *)
Definition rowDocument (categoryID : gostring) (i : nat)
    (row : list (cell float64 other)) : option Document :=
  if (length row <? 4)%nat then None
  else
    let idCat := field row 0 in
    if negb (streq idCat categoryID) then None
    else
      Some {| IDКатегории := idCat;
              Название := field row 1;
              Описание := field row 2;
              Ссылка := field row 3;
              FileID := if (5 <=? length row)%nat then field row 4 else [];
              SheetRow := 2 + Z.of_nat i |}.

(** [GetDocumentsByCategory] *)
Definition GetDocumentsByCategory (categoryID : gostring) (st : SheetState)
    : (nat + list Document) * SheetState :=
  let rangeStr := sheetДокументы ++ str "!A2:E" in
  let '(r, st) := Values_Get rangeStr st in
  match r with
  | inl err => (inl err, st)
  | inr rows => (inr (omap id (imap (rowDocument categoryID) rows)), st)
  end.

(** The loop of [ensureSheetColumns] over the expected headers: the
    headers to add, [has] being the set of the headers seen. *)
Fixpoint missingHeaders (has : gset gostring) (expected : list gostring)
    : list gostring :=
  match expected with
  | [] => []
  | h :: rest =>
      if bool_decide (h ∈ has) then missingHeaders has rest
      else h :: missingHeaders ({[h]} ∪ has) rest
  end.

(** The first row as [ensureSheetColumns] reads it. *)
Definition existingHeaders (values : list (list (cell float64 other))) : list gostring :=
  match values with
  | row :: _ => map (fun c => TrimSpace (strCell c)) row
  | [] => []
  end.

(** The update that [ensureSheetColumns] makes for a first row: the range
    and the headers written, [None] when there is nothing to add. *)
Definition migration (title : gostring) (expected : list gostring)
    (values : list (list (cell float64 other))) : option (gostring * list gostring) :=
  let existing := existingHeaders values in
  let toAdd := missingHeaders (list_to_set existing) expected in
  if (length toAdd =? 0)%nat then None
  else
    let startCol := Z.of_nat (length existing) + 1 in
    let endCol := startCol + Z.of_nat (length toAdd) - 1 in
    Some (title ++ str "!" ++ colToLetter startCol ++ str "1:"
                ++ colToLetter endCol ++ str "1",
          toAdd).

(** [ensureSheetColumns] *)
Definition ensureSheetColumns (title : gostring) (st : SheetState)
    : option nat * SheetState :=
  let expected := headersOf sheetHeaders title in
  if (length expected =? 0)%nat then (None, st)
  else
    let '(r, st) := Values_Get (title ++ str "!A1:ZZ1") st in
    match r with
    | inl err => (Some err, st)
    | inr values =>
        match migration title expected values with
        | None => (None, st)
        | Some (updateRange, toAdd) =>
            Values_Update updateRange [map CellString toAdd] st
        end
    end.

(** The loop of [GetAllUserChatIDs] over the rows: the identifiers in the
    order of their first occurrence, [seen] being the set of those met. *)
Fixpoint chatIDsOf (seen : gset Z) (rows : list (list (cell float64 other)))
    : list Z :=
  match rows with
  | [] => []
  | row :: rest =>
      match row with
      | [] => chatIDsOf seen rest
      | c :: _ =>
          match Sscan_int (strCell c) with
          | None => chatIDsOf seen rest
          | Some id =>
              if bool_decide (id ∈ seen) then chatIDsOf seen rest
              else id :: chatIDsOf ({[id]} ∪ seen) rest
          end
      end
  end.

(** [GetAllUserChatIDs] *)
Definition GetAllUserChatIDs (st : SheetState) : (nat + list Z) * SheetState :=
  let '(r, st) := Values_Get (sheetПользователи ++ str "!A2:B") st in
  match r with
  | inl err => (inl err, st)
  | inr rows => (inr (chatIDsOf ∅ rows), st)
  end.

(** [UpdateDocumentFileID]: the range and the values of the update. *)
Definition fileIDRange (sheetRow : Z) : gostring :=
  sheetДокументы ++ str "!E" ++ Itoa sheetRow.

Definition UpdateDocumentFileID (sheetRow : Z) (fileID : gostring) (st : SheetState)
    : option nat * SheetState :=
  Values_Update (fileIDRange sheetRow) [[CellString fileID]] st.

(** The conversion [string(rune(n))] of an [int]: the code point that the
    low 32 bits of [n] give as a signed number, U+FFFD when that is no
    code point. *)
Definition stringOfRune (n : Z) : gostring :=
  let r := (n + 2 ^ 31) mod 2 ^ 32 - 2 ^ 31 in
  if (0 <=? r) && (r <=? 1114111) && negb ((55296 <=? r) && (r <=? 57343)) then [r]
  else [65533].

(** [WriteSheetData]: the end column for rows of [cols] cells,
    [string(rune('A' + cols - 1))], and the range of the update. *)
Definition writeEndCol (cols : Z) : gostring :=
  stringOfRune (wrap64 (wrap64 (65 + cols) - 1)).

Definition writeRange (sheet : gostring) (startRow : Z)
    (rows : list (list (cell float64 other))) : gostring :=
  let cols := Z.of_nat (length (hd [] rows)) in
  let endRow := wrap64 (wrap64 (startRow + Z.of_nat (length rows)) - 1) in
  sheet ++ str "!A" ++ Itoa startRow ++ str ":" ++ writeEndCol cols ++ Itoa endRow.

Definition WriteSheetData (sheet : gostring) (startRow : Z)
    (rows : list (list (cell float64 other))) (st : SheetState)
    : option nat * SheetState :=
  if (length rows =? 0)%nat then (None, st)
  else Values_Update (writeRange sheet startRow rows) rows st.

End WithService.

End Sheets.

(** ** The download handlers ([handlers.go]) *)

Module Handlers.

Import Yandex Downloader Sheets.

Definition telegramMaxBytes : Z := 50 * 1024 * 1024.

(** [sanitizeZipName] *)
Definition sanitizeZipName (s : gostring) : gostring :=
  let out := Map (fun r => if rune_in bad r then None else Some r) s in
  let out := TrimSpace out in
  if is_empty out then str "document" else out.

(** What is handed to [bot.Send]: a text, a document known to Telegram by
    its file identifier, or a document read from the disk. *)
Inductive Sendable :=
| Text (s : gostring)
| DocumentByID (fileID fileName caption : gostring)
| DocumentFromDisk (zipPath : path) (fileName caption : gostring).

(** The error of a step of a handler, as it is logged. *)
Inductive failure :=
| FromProgram (e : error)
| FromSheets (c : nat)
| FromBot (c : nat).

(** The collaborators of the handlers outside the program: the Telegram
    bot, the function fields [LogError] and [GetCategories] of [App], and
    [url.Parse]. [bot_Send] answers with the file identifier of the document
    of the message sent (empty when the message carries none) or fails;
    [file] is what the disk holds at the path of a document sent from the
    disk. [url_Path] is the path of the parsed link, [None] when the link
    does not parse. [bot_SendTo] sends a text to the chat with the
    identifier, and fails or not. *)
Class Bot := {
  BotState : Type;
  bot_Send : Sendable -> option node -> BotState -> (nat + gostring) * BotState;
  bot_SendTo : Z -> gostring -> BotState -> option nat * BotState;
  bot_Edit : gostring -> BotState -> BotState;
  bot_Delete : BotState -> BotState;
  app_LogError : failure -> gostring -> BotState -> BotState;
  app_GetCategories : BotState -> option (list Category) * BotState;
  url_Path : gostring -> option gostring
}.

(** What a handler does to the outside, in order. *)
Inductive Action :=
| Sent (what : Sendable) (file : option node)
| SentTo (chat : Z) (text : gostring)
| Edited (text : gostring)
| Deleted
| Logged (err : failure) (context : gostring)
| Updated (range : gostring) (fileID : gostring).

Record World {T : Transport} {F : Fetcher} {S : Service} {B : Bot} := mkWorld {
  net : Yandex.World;
  files : Downloader.World;
  sheet : SheetState;
  bot : BotState;
  acts : list Action
}.

(** What a part of a handler adds to the actions: a file identifier is
    written only to the row of the document, is not empty, and comes with
    the sending of a document from the disk. *)
Definition caches_on_row (d : Document) (new : list Action) : Prop :=
  forall range fileID,
    Updated range fileID ∈ new ->
    range = fileIDRange (SheetRow d) /\ fileID <> [] /\
    exists zipPath name caption file,
      Sent (DocumentFromDisk zipPath name caption) file ∈ new.

Section WithApp.
Context {P : Platform} {T : Transport} {F : Fetcher} {S : Service} {B : Bot}.

Definition set_net (n : Yandex.World) (w : World) : World :=
  {| net := n; files := files w; sheet := sheet w; bot := bot w; acts := acts w |}.

Definition set_files (f : Downloader.World) (w : World) : World :=
  {| net := net w; files := f; sheet := sheet w; bot := bot w; acts := acts w |}.

(** [bot.Send(chat, what, ...)] *)
Definition send (what : Sendable) (w : World) : (nat + gostring) * World :=
  let file := match what with
              | DocumentFromDisk p _ _ => fs (files w) !! p
              | _ => None
              end in
  let '(r, b) := bot_Send what file (bot w) in
  (r, {| net := net w; files := files w; sheet := sheet w; bot := b;
         acts := acts w ++ [Sent what file] |}).

(** [bot.Edit(statusMsg, text, tele.NoPreview)] *)
Definition edit (text : gostring) (w : World) : World :=
  {| net := net w; files := files w; sheet := sheet w;
     bot := bot_Edit text (bot w); acts := acts w ++ [Edited text] |}.

(** [bot.Delete(statusMsg)] *)
Definition delete_status (w : World) : World :=
  {| net := net w; files := files w; sheet := sheet w;
     bot := bot_Delete (bot w); acts := acts w ++ [Deleted] |}.

(** [app.LogError(err.Error(), context)] *)
Definition logError (err : failure) (context : gostring) (w : World) : World :=
  {| net := net w; files := files w; sheet := sheet w;
     bot := app_LogError err context (bot w); acts := acts w ++ [Logged err context] |}.

(** [app.Sheets.GetDocumentsByCategory(ctx, categoryID)] *)
Definition getDocuments (categoryID : gostring) (w : World)
    : (nat + list Document) * World :=
  let '(r, st) := GetDocumentsByCategory categoryID (sheet w) in
  (r, {| net := net w; files := files w; sheet := st; bot := bot w; acts := acts w |}).

(** [app.Sheets.UpdateDocumentFileID(ctx, sheetRow, fileID)]; the handler
    ignores its error. *)
Definition updateFileID (sheetRow : Z) (fileID : gostring) (w : World) : World :=
  let '(_, st) := UpdateDocumentFileID sheetRow fileID (sheet w) in
  {| net := net w; files := files w; sheet := st; bot := bot w;
     acts := acts w ++ [Updated (fileIDRange sheetRow) fileID] |}.

(** [bot.Send(&tele.Chat{ID: id}, text)] *)
Definition sendTo (chat : Z) (text : gostring) (w : World) : option nat * World :=
  let '(r, b) := bot_SendTo chat text (bot w) in
  (r, {| net := net w; files := files w; sheet := sheet w; bot := b;
         acts := acts w ++ [SentTo chat text] |}).

(** The messages of [runProxyArchive]. *)
Definition msgLowSpace (link : gostring) : Sendable :=
  Text (ustr "Место на сервере ограничено, скачайте по ссылке: " ++ link).

Definition msgByLink (link : gostring) : Sendable :=
  Text (ustr "Скачайте по ссылке: " ++ link).

Definition msgTooLarge (link : gostring) : Sendable :=
  Text (ustr "Файл слишком велик для отправки архивом (лимит Telegram 50МБ). Пожалуйста, скачайте его напрямую: " ++ link).

Definition msgFailed : Sendable := Text (ustr "Не удалось подготовить файл.").

(** The last part of [runProxyArchive], from [ZipBytesToTemp] on: the
    archive is built and sent, and the file identifier that Telegram
    returns is written to the row of the document. The removal of the
    workspace is deferred in the code and runs when it returns. *)
Definition zipAndSend (d : Document) (docName : gostring) (data : list byte)
    (filename id : gostring) (w : World) : World :=
  let '(rz, f) :=
    ZipBytesToTemp data filename (sanitizeZipName docName ++ str ".zip") id (files w) in
  let w := set_files f w in
  match rz with
  | inl err =>
      let w := logError (FromProgram err) (str "ZipBytesToTemp") w in
      let '(_, w) := send msgFailed w in w
  | inr (zipPath, zipDir) =>
      let zipFileName := sanitizeZipName docName ++ str ".zip" in
      let '(rm, w) :=
        send (DocumentFromDisk zipPath zipFileName (ustr "Файл: " ++ docName)) w in
      let w :=
        match rm with
        | inl c =>
            let w := logError (FromBot c) (str "Send document zip") w in
            let '(_, w) := send msgFailed w in w
        | inr fileID =>
            if negb (is_empty fileID) then updateFileID (SheetRow d) fileID w else w
        end in
      set_files (os_RemoveAll zipDir (files w)) w
  end.

(** The middle part of [runProxyArchive]: the size probe and the
    download. *)
Definition fetchAndSend (y : YandexDownloader) (d : Document)
    (docName link id : gostring) (w : World) : World :=
  let '(rs, n) := GetFileSize y link (net w) in
  let w := set_net n w in
  if err_is rs ErrNotYandexDisk then
    let '(_, w) := send (msgByLink link) w in w
  else if match rs with
          | inr size => (size >? 0) && (size >? telegramMaxBytes)
          | inl _ => false
          end
  then let '(_, w) := send (msgTooLarge link) w in w
  else
    let '(rf, n) := GetFile y link (net w) in
    let w := set_net n w in
    if err_is rf ErrNotYandexDisk then
      let '(_, w) := send (msgByLink link) w in w
    else if err_is rf ErrFileTooLarge then
      let '(_, w) := send (msgTooLarge link) w in w
    else
      match rf with
      | inl err =>
          let w := logError (FromProgram err) (str "GetFile proxy") w in
          let '(_, w) := send msgFailed w in w
      | inr (data, filename) => zipAndSend d docName data filename id w
      end.

(** [runProxyArchive]: [yandex] is [app.Yandex] ([None] for nil),
    [statusMsg] tells whether the status message is there, [id] is the
    string of the identifier that [uuid.New()] returns in [ZipBytesToTemp].
    The deletion of the status message is deferred in the code and runs
    when the function returns, after the removal of the workspace. *)
Definition runProxyArchive (yandex : option YandexDownloader) (categoryID : gostring)
    (idx : Z) (statusMsg : bool) (id : gostring) (w : World) : World :=
  let finish (w : World) := if statusMsg then delete_status w else w in
  let '(rd, w) := getDocuments categoryID w in
  match rd with
  | inl _ => finish w
  | inr docs =>
      if (idx <? 0) || (idx >=? Z.of_nat (length docs)) then finish w
      else
        match docs !! Z.to_nat idx with
        | None => finish w
        | Some d =>
            let link := TrimSpace (Ссылка d) in
            let docName := TrimSpace (Название d) in
            let docName := if is_empty docName then str "document" else docName in
            if is_empty link then finish w
            else if negb (is_empty (FileID d)) then
              let '(_, w) := send (DocumentByID (FileID d)
                                     (sanitizeZipName docName ++ str ".zip")
                                     (ustr "Файл: " ++ docName)) w in
              finish w
            else if Main.getFreeSpaceBytes windows (disk (files w)) <? Main.minFreeBytes then
              let '(_, w) := send (msgLowSpace link) w in finish w
            else
              match yandex with
              | None => let '(_, w) := send (msgByLink link) w in finish w
              | Some y => finish (fetchAndSend y d docName link id w)
              end
        end
  end.

(** The item that the loop of [runBulkDownload] appends for a document,
    if any. *)
Definition bulkItemOf (d : Document) : option BulkItem :=
  let link := TrimSpace (Ссылка d) in
  if is_empty link then None
  else
    let name := sanitizeZipName (Название d) in
    let name := if is_empty name then str "document" else name in
    let name :=
      if negb (Contains (Base name) (str ".")) then
        match url_Path link with
        | Some p => let ext := Ext p in
                    if negb (is_empty ext) then name ++ ext else name
        | None => name
        end
      else name in
    Some (mkBulkItem link name).

(** The name of the category with the identifier, empty when there is
    none: the loop that stops at the first one. *)
Fixpoint categoryNameOf (cats : list Category) (categoryID : gostring) : gostring :=
  match cats with
  | [] => []
  | cat :: rest =>
      if streq (ID cat) categoryID then Name cat else categoryNameOf rest categoryID
  end.

(** [runBulkDownload]: [id] is the string of the identifier that
    [uuid.New()] returns in [BulkDownloadAndZip]. The removal of the
    workspace is deferred in the code and runs when the function returns. *)
Definition runBulkDownload (yandex : option YandexDownloader) (categoryID : gostring)
    (statusMsg : bool) (id : gostring) (w : World) : World :=
  let editStatus (text : gostring) (w : World) :=
    if statusMsg then edit text w else w in
  let '(rd, w) := getDocuments categoryID w in
  match rd with
  | inl c =>
      let w := logError (FromSheets c) (str "GetDocumentsByCategory bulk") w in
      editStatus (ustr "Не удалось собрать архив.") w
  | inr docs =>
      let items := omap bulkItemOf docs in
      if (length items =? 0)%nat
      then editStatus (ustr "В категории нет файлов для скачивания.") w
      else
        let '(cats, b) := app_GetCategories (bot w) in
        let w := {| net := net w; files := files w; sheet := sheet w; bot := b;
                    acts := acts w |} in
        let categoryName := match cats with
                            | Some cats => categoryNameOf cats categoryID
                            | None => []
                            end in
        let categoryName := if is_empty categoryName then str "Archive" else categoryName in
        let '(rz, f) :=
          BulkDownloadAndZip yandex items categoryName telegramMaxBytes
            Main.minFreeBytes id (files w) in
        let w := set_files f w in
        if err_is rz ErrArchiveTooLarge then
          editStatus (ustr "⚠️ Общий размер файлов превышает 50 МБ. Пожалуйста, скачайте файлы по отдельности.") w
        else
          match rz with
          | inl err =>
              let w := logError (FromProgram err) (str "BulkDownloadAndZip") w in
              editStatus (ustr "Не удалось собрать архив.") w
          | inr (zipPath, bulkDir) =>
              let '(rm, w) :=
                send (DocumentFromDisk zipPath (Base (render zipPath))
                        (ustr "Архив: " ++ categoryName)) w in
              let w :=
                match rm with
                | inl c =>
                    let w := logError (FromBot c) (str "BulkDownload Send") w in
                    editStatus (ustr "Не удалось отправить архив.") w
                | inr _ => editStatus (ustr "📦 Архив собран и отправлен ниже.") w
                end in
              set_files (os_RemoveAll bulkDir (files w)) w
          end
  end.

(** The loop of [onSend] over the chats: the number of failures. *)
Fixpoint broadcast (text : gostring) (chatIDs : list Z) (failed : Z) (w : World)
    : Z * World :=
  match chatIDs with
  | [] => (failed, w)
  | id :: rest =>
      let '(r, w) := sendTo id text w in
      match r with
      | Some c =>
          broadcast text rest (failed + 1)
            (logError (FromBot c) (str "Send broadcast to " ++ Itoa id) w)
      | None => broadcast text rest failed w
      end
  end.

Definition broadcastReport (sent failed : Z) : Sendable :=
  Text (ustr "Рассылка завершена. Отправлено: " ++ Itoa sent
        ++ ustr ", ошибок: " ++ Itoa failed).

(** [onSend]; the error of the reply, which the handler returns, is left
    out. *)
Definition onSend (text : gostring) (w : World) : World :=
  if is_empty text then
    snd (send (Text (ustr "Использование: /send <текст рассылки>")) w)
  else
    let '(r, st) := GetAllUserChatIDs (sheet w) in
    let w := {| net := net w; files := files w; sheet := st; bot := bot w;
                acts := acts w |} in
    match r with
    | inl c =>
        let w := logError (FromSheets c) (str "GetAllUserChatIDs") w in
        snd (send (Text (ustr "Ошибка загрузки списка пользователей.")) w)
    | inr chatIDs =>
        let '(failed, w) := broadcast text chatIDs 0 w in
        snd (send (broadcastReport (Z.of_nat (length chatIDs) - failed) failed) w)
    end.

End WithApp.

(** The texts sent to chats among the actions, in order. *)
Definition sentTos (acts : list Action) : list (Z * gostring) :=
  omap (fun a => match a with SentTo chat text => Some (chat, text) | _ => None end) acts.

(** The failures logged among the actions, in order. *)
Definition loggedOf (acts : list Action) : list (failure * gostring) :=
  omap (fun a => match a with Logged e c => Some (e, c) | _ => None end) acts.

(** *** The form of [onIMOSubmit] *)

(** The lines of the text that are not blank, trimmed. *)
Definition imoParts (text : gostring) : list gostring :=
  omap (fun s => let s := TrimSpace s in if is_empty s then None else Some s)
       (Split text 10).

Record IMOForm := mkIMOForm {
  fio : gostring; phone : gostring; position : gostring; source : gostring
}.

(** The fields that [onIMOSubmit] hands to [AppendIMO], [None] when the
    text has fewer than four lines that are not blank. *)
Definition imoForm (text : gostring) : option IMOForm :=
  match imoParts text with
  | f :: p :: pos :: (_ :: _) as src =>
      Some {| fio := f; phone := p; position := pos;
              source := JoinStrings src (str " ") |}
  | _ => None
  end.

(** *** The middleware and the text handler of [RegisterHandlers] *)

(** The commands that the middleware keeps for the administrators. *)
Definition adminOnly (text : gostring) : bool :=
  streq text (str "/send") || HasPrefix text (str "/send ")
  || streq text (str "/reload").

(** The middleware: whether the handler behind it is called; [isAdmin] is
    the answer of [app.IsAdmin] for the sender. *)
Definition middleware (text : gostring) (isAdmin : bool) : bool :=
  if adminOnly text then isAdmin else true.

(** What the handler of [tele.OnText] does with a text: the function it
    calls, with its argument. [ListDocs], [WishStart], [IMOStart] and
    [WishSubmit] come after [app.ResetState]. *)
Inductive Route :=
| Usage
| Broadcast (text : gostring)
| ListDocs
| WishStart
| IMOStart
| WishSubmit (text : gostring)
| IMOSubmit (text : gostring)
| Nothing.

(** The handler of [tele.OnText]; [state] is [app.GetState] of the
    sender. *)
Definition onText (text state : gostring) : Route :=
  let txt := TrimSpace text in
  if streq txt (str "/send") then Usage
  else if HasPrefix txt (str "/send ")
  then Broadcast (TrimSpace (TrimPrefix txt (str "/send ")))
  else if streq txt (ustr "Список документов") then ListDocs
  else if streq txt (ustr "Пожелания") then WishStart
  else if streq txt (ustr "Запросить доступ в IMO") then IMOStart
  else if streq state (str "wish") then WishSubmit txt
  else if streq state (str "imo") then IMOSubmit txt
  else Nothing.

(** The handler of [tele.OnText] behind the middleware, for a text that
    the library hands to that handler. *)
Definition handleText (text : gostring) (isAdmin : bool) (state : gostring) : Route :=
  if middleware text isAdmin then onText text state else Nothing.

(** A spreadsheet and a bot for closed examples: the values service
    returns the rows of its state and accepts every update; the bot accepts
    every message and answers a document read from the disk with the file
    identifier [F1]; every link parses, and its path is the link itself. The scanner reads
    the length of a cell as its number, and the chat 2 cannot be reached. *)
#[local] Instance sheetStub : Service := {|
  SheetState := list (list (cell Empty_set Empty_set));
  float64 := Empty_set;
  other := Empty_set;
  FormatFloat := fun x => match x with end;
  Sprint := fun v => match v with end;
  Sscan_int := fun s => Some (Z.of_nat (length s));
  Values_Get := fun _ st => (inr st, st);
  Values_Update := fun _ _ st => (None, st)
|}.

#[local] Instance botStub : Bot := {|
  BotState := unit;
  bot_Send := fun what _ st =>
    (inr (match what with DocumentFromDisk _ _ _ => str "F1" | _ => [] end), st);
  bot_SendTo := fun chat _ st => (if chat =? 2 then Some 7%nat else None, st);
  bot_Edit := fun _ st => st;
  bot_Delete := fun st => st;
  app_LogError := fun _ _ st => st;
  app_GetCategories := fun st => (Some [mkCategory (str "c1") (str "Docs")], st);
  url_Path := fun link => Some link
|}.

End Handlers.

(** ** Sample inputs *)

Module Examples.

Import Yandex Downloader.

(** A downloader with a ceiling of 3 bytes, and responses of the scripted
    transport: a HEAD response without a length, a GET response that
    declares 2 bytes and sends 5, a GET response that sends 5 bytes
    without declaring a length, a HEAD response that declares 100 bytes,
    and the redirect of a share link to the downloader host. *)
Definition y3 : YandexDownloader := NewYandexDownloader 3.

Definition netWorld (script : list (nat + Response)) : Yandex.World (T := scripted) :=
  @Yandex.mkWorld scripted script [].

Definition headUnknown : Response := mkResponse 200 [] [] (-1) (mkBody [] None).

Definition getLong : Response :=
  mkResponse 200 [] [] 2
    (mkBody [Byte.x01; Byte.x02; Byte.x03; Byte.x04; Byte.x05] None).

Definition getChunked : Response :=
  mkResponse 200 [] [] (-1)
    (mkBody [Byte.x01; Byte.x02; Byte.x03; Byte.x04; Byte.x05] None).

Definition headHuge : Response := mkResponse 200 [] [] 100 (mkBody [] None).

Definition getHuge : Response := mkResponse 200 [] [] 100 (mkBody [Byte.x01] None).

(** A GET response of two bytes. *)
Definition getShort : Response :=
  mkResponse 200 [] [] 2 (mkBody [Byte.x01; Byte.x02] None).

Definition redirect : Response :=
  mkResponse 302 (str "https://downloader.disk.yandex.ru/disk/abc") [] (-1)
    (mkBody [] None).

Definition shareLink : gostring := str "https://disk.yandex.ru/d/abc".
Definition directLink : gostring := str "https://downloader.disk.yandex.ru/disk/abc".
Definition plainLink : gostring := str " https://example.org/a.pdf".
Definition plainLinkTrimmed : gostring := str "https://example.org/a.pdf".

(** A link to another host that names a Yandex Disk domain in its query. *)
Definition foreignLink : gostring := str "https://example.org/?u=disk.yandex.ru".

(** A batch in which the third item is the first to ask for [a_1.txt],
    after the second item was renamed to it. *)
Definition batch : list BulkItem :=
  [mkBulkItem (str "u1") (str "a.txt");
   mkBulkItem (str "u2") (str "a.txt");
   mkBulkItem (str "u3") (str "a_1.txt")].

Definition bulkDir0 : path := [str "tmp"; str "bulk_ID"].
Definition bulkZip0 : path := [str "tmp"; str "bulk_ID"; str "Docs.zip"].
Definition singleDir0 : path := [str "tmp"; str "single_ID"].
Definition singleZip0 : path := [str "tmp"; str "single_ID"; str "report.zip"].

Definition bulkRun (items : list BulkItem) (faults : list (option nat))
    : result (path * path) * Downloader.World (F := stub) :=
  BulkDownloadAndZip (P := linux) (Some y3) items (str "Docs") 100 1000 (str "ID")
    (emptyWorld faults).

Definition singleRun (innerFilename : gostring) (faults : list (option nat))
    : result (path * path) * Downloader.World (F := stub) :=
  ZipBytesToTemp (P := linux) [Byte.x01] innerFilename (str "report.zip") (str "ID")
    (emptyWorld faults).

(** The world in which the loop over the items starts: the workspace has
    just been made. *)
Definition bulkStart : Downloader.World (F := stub) :=
  snd (os_MkdirAll bulkDir0 (emptyWorld [])).

Definition loopRun (items : list BulkItem)
    : result LoopState * Downloader.World (F := stub) :=
  bulkItems y3 bulkDir0 100 0 items
    {| used := ∅; writtenPaths := []; total := 0 |} bulkStart.

(** A batch with an item without a usable name, after an item that asks
    for the fallback name of that position. *)
Definition batchFallback : list BulkItem :=
  [mkBulkItem (str "u1") (str "file_1");
   mkBulkItem (str "u2") (str "?")].

(** The state of the loop after a run without error (the initial state
    otherwise), with the world. *)
Definition bulk_state_of (items : list BulkItem)
    : LoopState * Downloader.World (F := stub) :=
  match loopRun items with
  | (inr st, w) => (st, w)
  | (inl _, w) => ({| used := ∅; writtenPaths := []; total := 0 |}, w)
  end.

(** A listing of the temporary-file root at a tick, one hour after the
    oldest entry was changed (times in nanoseconds). *)
Definition listing : list Main.DirEntry :=
  [Main.mkDirEntry (str "bulk_old") true (Some 0);
   Main.mkDirEntry (str "bulk_new") true (Some (50 * Main.Minute));
   Main.mkDirEntry (str "bugchat-1.tmp") false (Some 0);
   Main.mkDirEntry (str "other") true (Some 0)].

(** A sheet of documents: two documents of the category [c1], with a
    document of another category between them, and the world of the
    handlers with this sheet, an empty disk and a scripted network. *)
Definition sheetRows : list (list (Sheets.cell Empty_set Empty_set)) :=
  [[Sheets.CellString (str "c1"); Sheets.CellString (str "Report");
    Sheets.CellString (str "about"); Sheets.CellString shareLink];
   [Sheets.CellString (str "c2"); Sheets.CellString (str "Other");
    Sheets.CellString []; Sheets.CellString plainLink];
   [Sheets.CellString (str "c1"); Sheets.CellString (str "Plan?");
    Sheets.CellString []; Sheets.CellString (str " u2 ")]].

Definition appWorld (script : list (nat + Response)) (faults : list (option nat))
    : Handlers.World (T := scripted) (F := stub)
                     (S := Handlers.sheetStub) (B := Handlers.botStub) :=
  @Handlers.mkWorld scripted stub Handlers.sheetStub Handlers.botStub
    (netWorld script) (emptyWorld faults) sheetRows tt [].

(** The share link is probed and downloaded: two round trips for the
    probe, three for the download. *)
Definition proxyScript : list (nat + Response) :=
  [inr redirect; inr headUnknown; inr redirect; inr headUnknown; inr getShort].

Definition proxyRun (faults : list (option nat))
    : Handlers.World (T := scripted) (F := stub)
                     (S := Handlers.sheetStub) (B := Handlers.botStub) :=
  Handlers.runProxyArchive (P := linux) (Some y3) (str "c1") 0 true (str "ID")
    (appWorld proxyScript faults).

Definition bulkHandlerRun (faults : list (option nat))
    : Handlers.World (T := scripted) (F := stub)
                     (S := Handlers.sheetStub) (B := Handlers.botStub) :=
  Handlers.runBulkDownload (P := linux) (Some y3) (str "c1") true (str "ID")
    (appWorld [] faults).

End Examples.

(** * Properties *)

(** ** The Yandex Disk downloader *)

Section YandexFacts.
Import Yandex.
Context {T : Transport}.

Lemma is_empty_false (s : gostring) : is_empty s = false <-> s <> [].
Proof. destruct s; simpl; split; congruence. Qed.

Lemma Do_eq (req : Request) (w : World) r st :
  client_Do req (net w) = (r, st) ->
  Do req w =
  (match r with inl c => inl (ErrTransport c) | inr resp => inr resp end,
   {| net := st; log := log w ++ [EvDo req] |}).
Proof. intros E. unfold Do. now rewrite E. Qed.

Lemma NewRequest_ok m url : url_parses url = true -> NewRequest m url = inr (mkRequest m url).
Proof. intros E. unfold NewRequest. now rewrite E. Qed.

(** [ReadAllLimit] logs one read, of at most [n] bytes. *)
Lemma ReadAllLimit_log b n w r w' :
  ReadAllLimit b n w = (r, w') ->
  net w' = net w /\
  exists k, log w' = log w ++ [EvRead k] /\ Z.of_nat k <= Z.max 0 n.
Proof.
  unfold ReadAllLimit. intros E.
  destruct (n <=? 0) eqn:En; [|destruct (Z.of_nat (length (bytes b)) <? n) eqn:El];
    inversion E; subst; simpl; (split; [reflexivity|]); eexists; (split; [reflexivity|]); lia.
Qed.

Lemma wrap64_small x : min_int64 <= x <= max_int64 -> wrap64 x = x.
Proof.
  unfold wrap64, min_int64, max_int64. intros Hx.
  rewrite Z.mod_small; lia.
Qed.

(** The result of [downloadByURL], when it is a success, passed the final
    length test. *)
Lemma downloadByURL_ok_length y url w data name w' :
  downloadByURL y url w = (inr (data, name), w') ->
  Z.of_nat (length data) <= maxSize y.
Proof.
  unfold downloadByURL. intros E.
  repeat case_match; simplify_eq; lia.
Qed.

(** [GetFile] fails before any download or returns what [downloadByURL]
    returns for the address it resolved. *)
Lemma GetFile_cases y s w r w' :
  GetFile y s w = (r, w') ->
  (exists e, r = inl e) \/ (exists url w1, downloadByURL y url w1 = (r, w')).
Proof.
  unfold GetFile. intros E.
  repeat case_match; simplify_eq; eauto.
Qed.

Lemma status_check_ok (c : Z) :
  c = StatusOK \/ c = StatusFound ->
  negb (c =? StatusOK) && negb (c =? StatusFound) = false.
Proof. unfold StatusOK, StatusFound. intros [-> | ->]; reflexivity. Qed.

Lemma Do_log req w r w' : Do req w = (r, w') -> log w' = log w ++ [EvDo req].
Proof.
  unfold Do. destruct (client_Do req (net w)) as [r0 st]. intros E.
  inversion E; subst. reflexivity.
Qed.

(** The only body read of [downloadByURL] goes through the reader limited
    to [maxSize + 1] bytes. *)
Lemma downloadByURL_reads y url w r w' k :
  downloadByURL y url w = (r, w') ->
  EvRead k ∈ log w' ->
  EvRead k ∈ log w \/ Z.of_nat k <= Z.max 0 (wrap64 (maxSize y + 1)).
Proof.
  unfold downloadByURL. intros E Hk.
  destruct (NewRequest MethodHead url) as [e|req]; [simplify_eq; auto|].
  destruct (Do req w) as [r1 w1] eqn:E1. apply Do_log in E1.
  assert (Hw1 : EvRead k ∈ log w1 -> EvRead k ∈ log w).
  { rewrite E1. rewrite elem_of_app, list_elem_of_singleton. intros [?|?]; [done|congruence]. }
  destruct r1 as [e|resp]; [simplify_eq; auto|].
  destruct (negb (StatusCode resp =? StatusOK) && negb (StatusCode resp =? StatusFound));
    [simplify_eq; auto|].
  destruct ((ContentLength resp >? 0) && (ContentLength resp >? maxSize y));
    [simplify_eq; auto|].
  destruct (NewRequest MethodGet url) as [e|reqGet]; [simplify_eq; auto|].
  destruct (Do reqGet w1) as [r2 w2] eqn:E2. apply Do_log in E2.
  assert (Hw2 : EvRead k ∈ log w2 -> EvRead k ∈ log w).
  { rewrite E2. rewrite elem_of_app, list_elem_of_singleton. intros [?|?]; [auto|congruence]. }
  destruct r2 as [e|respGet]; [simplify_eq; auto|].
  destruct (negb (StatusCode respGet =? StatusOK)); [simplify_eq; auto|].
  destruct ((ContentLength respGet >? 0) && (ContentLength respGet >? maxSize y));
    [simplify_eq; auto|].
  destruct (ReadAllLimit (delivered respGet) (wrap64 (maxSize y + 1)) w2) as [rb w3] eqn:E3.
  apply ReadAllLimit_log in E3 as (_ & k' & E3 & Hk').
  assert (Hw3 : EvRead k ∈ log w3 ->
                EvRead k ∈ log w \/ Z.of_nat k <= Z.max 0 (wrap64 (maxSize y + 1))).
  { rewrite E3. rewrite elem_of_app, list_elem_of_singleton. intros [?|?]; [auto|].
    right. congruence. }
  destruct rb as [e|data]; [simplify_eq; auto|].
  destruct (Z.of_nat (length data) >? maxSize y); simplify_eq; auto.
Qed.

(** [GetFile] is its resolution followed by [downloadByURL]. *)
Lemma GetFile_eq y s w :
  GetFile y s w =
  match GetFile_target y s w with
  | (inl e, w1) => (inl e, w1)
  | (inr u, w1) => downloadByURL y u w1
  end.
Proof.
  unfold GetFile, GetFile_target. cbv zeta.
  destruct (negb (isYandexDiskURL (TrimSpace s))); [reflexivity|].
  destruct (NewRequest MethodGet (TrimSpace s)) as [e|req]; [reflexivity|].
  destruct (Do req w) as [[e|resp] w1]; [reflexivity|].
  destruct (negb (is_empty (Location resp)) && _); [reflexivity|].
  destruct (ReadAllLimit (delivered resp) (2 ^ 20) w1) as [[e|body] w2]; [reflexivity|].
  destruct (is_empty (reDirectURL_FindString (bytes_string body))); [|reflexivity].
  destruct (getDirectViaCloudAPI y (TrimSpace s) w2) as [href w3].
  destruct (negb (is_empty href)); reflexivity.
Qed.

(** What [net/http] delivers of a body with a declared length is never
    longer than that length; without a declared length it is the stream
    of the server. *)
Lemma delivered_length (resp : Response) :
  0 <= ContentLength resp ->
  Z.of_nat (length (bytes (delivered resp))) <= ContentLength resp.
Proof.
  intros Hn. unfold delivered. cbv zeta.
  destruct (ContentLength resp <? 0) eqn:E0; [lia|].
  destruct (Z.of_nat (length (bytes (RespBody resp))) <? ContentLength resp) eqn:E1;
    [simpl; lia|].
  destruct (Z.of_nat (length (bytes (RespBody resp))) =? ContentLength resp) eqn:E2;
    [simpl; lia|].
  simpl. rewrite length_take. lia.
Qed.

Lemma delivered_unknown (resp : Response) :
  ContentLength resp < 0 -> delivered resp = RespBody resp.
Proof.
  intros Hn. unfold delivered. cbv zeta.
  destruct (ContentLength resp <? 0) eqn:E0; [reflexivity|lia].
Qed.

(** A body that comes to the program longer than [maxSize] ends
    [downloadByURL] with [ErrFileTooLarge]. *)
Lemma downloadByURL_long y url w head st1 get st2 :
  min_int64 <= maxSize y < max_int64 ->
  url_parses url = true ->
  client_Do (mkRequest MethodHead url) (net w) = (inr head, st1) ->
  StatusCode head = StatusOK \/ StatusCode head = StatusFound ->
  client_Do (mkRequest MethodGet url) st1 = (inr get, st2) ->
  StatusCode get = StatusOK ->
  maxSize y < Z.of_nat (length (bytes (delivered get))) ->
  fst (downloadByURL y url w) = inl ErrFileTooLarge.
Proof.
  intros Hmax Hurl Hhead Hst Hget Hstg Hlong.
  unfold downloadByURL.
  rewrite !NewRequest_ok by exact Hurl.
  rewrite (Do_eq _ _ _ _ Hhead). cbv beta iota zeta.
  rewrite (status_check_ok _ Hst).
  destruct ((ContentLength head >? 0) && (ContentLength head >? maxSize y)); [reflexivity|].
  rewrite (Do_eq _ _ (inr get) st2) by exact Hget. cbv beta iota zeta.
  rewrite Hstg. change (negb (StatusOK =? StatusOK)) with false. cbv iota.
  destruct ((ContentLength get >? 0) && (ContentLength get >? maxSize y)); [reflexivity|].
  rewrite wrap64_small by (unfold min_int64, max_int64 in *; lia).
  unfold ReadAllLimit.
  destruct (maxSize y + 1 <=? 0) eqn:En.
  - cbn [length]. change (Z.of_nat 0) with 0.
    destruct (0 >? maxSize y) eqn:E0; [reflexivity|lia].
  - destruct (Z.of_nat (length (bytes (delivered get))) <? maxSize y + 1) eqn:El; [lia|].
    destruct (Z.of_nat (length (take (Z.to_nat (maxSize y + 1)) (bytes (delivered get))))
              >? maxSize y) eqn:Ec; [reflexivity|].
    rewrite length_take, Z.gtb_ltb in Ec. apply Z.ltb_ge in Ec. exfalso. lia.
Qed.

(** C1, as amended. Whenever [downloadByURL] or [GetFile] succeeds, the
    data returned is at most [maxSize] bytes long, and the body read of
    [downloadByURL] is capped at [maxSize + 1] bytes. When the HEAD and GET
    round trips pass their status tests and the body, as the HTTP client
    hands it to the program, is longer than [maxSize], [downloadByURL]
    fails with [ErrFileTooLarge] and returns no data, and so does [GetFile]
    for the address that its resolution reached. The client hands over the
    stream of the server when no length is declared, and at most the
    declared number of bytes otherwise: a stream longer than [maxSize]
    behind a declared length at or under [maxSize] never comes to the
    program in full, and the amended claim says nothing of it. ([maxSize]
    is an [int64] below the largest one, where [maxSize + 1] would wrap;
    no body is longer than that.) *)
Theorem downloadByURL_wire_ceiling (y : YandexDownloader) (url : gostring) (w : World) :
  (forall data name w',
     downloadByURL y url w = (inr (data, name), w') ->
     Z.of_nat (length data) <= maxSize y) /\
  (forall data name w',
     GetFile y url w = (inr (data, name), w') ->
     Z.of_nat (length data) <= maxSize y) /\
  (forall r w' k,
     downloadByURL y url w = (r, w') ->
     EvRead k ∈ log w' ->
     EvRead k ∈ log w \/ Z.of_nat k <= Z.max 0 (wrap64 (maxSize y + 1))) /\
  (forall head st1 get st2,
     min_int64 <= maxSize y < max_int64 ->
     url_parses url = true ->
     client_Do (mkRequest MethodHead url) (net w) = (inr head, st1) ->
     StatusCode head = StatusOK \/ StatusCode head = StatusFound ->
     client_Do (mkRequest MethodGet url) st1 = (inr get, st2) ->
     StatusCode get = StatusOK ->
     maxSize y < Z.of_nat (length (bytes (delivered get))) ->
     fst (downloadByURL y url w) = inl ErrFileTooLarge) /\
  (forall u w1 head st1 get st2,
     min_int64 <= maxSize y < max_int64 ->
     GetFile_target y url w = (inr u, w1) ->
     url_parses u = true ->
     client_Do (mkRequest MethodHead u) (net w1) = (inr head, st1) ->
     StatusCode head = StatusOK \/ StatusCode head = StatusFound ->
     client_Do (mkRequest MethodGet u) st1 = (inr get, st2) ->
     StatusCode get = StatusOK ->
     maxSize y < Z.of_nat (length (bytes (delivered get))) ->
     fst (GetFile y url w) = inl ErrFileTooLarge) /\
  (forall e w1,
     GetFile_target y url w = (inl e, w1) -> GetFile y url w = (inl e, w1)) /\
  (forall get : Response,
     (ContentLength get < 0 -> delivered get = RespBody get) /\
     (0 <= ContentLength get ->
      Z.of_nat (length (bytes (delivered get))) <= ContentLength get)).
Proof.
  split; [|split; [|split; [|split; [|split; [|split]]]]].
  - intros data name w'. apply downloadByURL_ok_length.
  - intros data name w' E.
    apply GetFile_cases in E as [[e E] | (u & w1 & E)]; [discriminate|].
    eapply downloadByURL_ok_length, E.
  - intros r w' k. apply downloadByURL_reads.
  - intros head st1 get st2. apply downloadByURL_long.
  - intros u w1 head st1 get st2 Hmax Ht Hurl Hhead Hst Hget Hstg Hlong.
    rewrite GetFile_eq, Ht. eapply downloadByURL_long; eassumption.
  - intros e w1 Ht. now rewrite GetFile_eq, Ht.
  - intros get. split; [apply delivered_unknown|apply delivered_length].
Qed.

(** [GetDirectURL] hands back, trimmed and without a request, a link in
    which [isYandexDiskURL] finds no domain name. *)
Lemma GetDirectURL_passthrough (y : YandexDownloader) (s : gostring) (w : World) :
  TrimSpace s <> [] ->
  isYandexDiskURL (TrimSpace s) = false ->
  GetDirectURL y s w = (inr (TrimSpace s), w).
Proof.
  intros Hne Hny. unfold GetDirectURL.
  apply is_empty_false in Hne. rewrite Hne, Hny. reflexivity.
Qed.

(** The requests of [getDirectViaCloudAPI] and of [GetDirectURL] only add
    to the log. *)
Lemma getDirectViaCloudAPI_log y s w href w' :
  getDirectViaCloudAPI y s w = (href, w') -> exists more, log w' = log w ++ more.
Proof.
  unfold getDirectViaCloudAPI. cbv zeta. intros E.
  destruct (NewRequest MethodGet _) as [e|req];
    [inversion E; subst; exists []; now rewrite app_nil_r|].
  destruct (Do req w) as [r w1] eqn:E1. apply Do_log in E1.
  destruct r as [e|resp]; [inversion E; subst; eauto|].
  destruct (negb (StatusCode resp =? StatusOK)); [inversion E; subst; eauto|].
  destruct (ReadAllLimit (delivered resp) (2 ^ 14) w1) as [rb w2] eqn:E2.
  apply ReadAllLimit_log in E2 as (_ & k & E2 & _).
  assert (Hw2 : exists more, log w2 = log w ++ more)
    by (rewrite E2, E1, <- app_assoc; eauto).
  destruct rb as [e|body]; [inversion E; subst; exact Hw2|].
  destruct (json_href body); inversion E; subst; exact Hw2.
Qed.

Lemma GetDirectURL_request y (u : gostring) w :
  TrimSpace u = u -> u <> [] -> isYandexDiskURL u = true -> url_parses u = true ->
  exists rest, log (snd (GetDirectURL y u w)) = log w ++ EvDo (mkRequest MethodGet u) :: rest.
Proof.
  intros Ht Hne Hy Hp. unfold GetDirectURL. cbv zeta.
  apply is_empty_false in Hne. rewrite Ht, Hne, Hy, (NewRequest_ok _ _ Hp). cbn [negb].
  destruct (Do (mkRequest MethodGet u) w) as [r w1] eqn:E1. apply Do_log in E1.
  destruct r as [e|resp]; [simpl; eauto|].
  destruct (negb (is_empty (Location resp)) && _); [simpl; eauto|].
  destruct (ReadAllLimit (delivered resp) (2 ^ 20) w1) as [rb w2] eqn:E2.
  apply ReadAllLimit_log in E2 as (_ & k & E2 & _).
  assert (Hw2 : log w2 = log w ++ EvDo (mkRequest MethodGet u) :: [EvRead k])
    by (rewrite E2, E1, <- app_assoc; reflexivity).
  destruct rb as [e|body]; [simpl; eauto|].
  destruct (negb (is_empty (reDirectURL_FindString (bytes_string body)))); [simpl; eauto|].
  destruct (getDirectViaCloudAPI y u w2) as [href w3] eqn:E3.
  apply getDirectViaCloudAPI_log in E3 as [more E3].
  assert (Hw3 : log w3 = log w ++ EvDo (mkRequest MethodGet u) :: EvRead k :: more)
    by (rewrite E3, Hw2, <- app_assoc; reflexivity).
  destruct (negb (is_empty href)); simpl; eauto.
Qed.

(** C3. The code at a link whose host is outside the share-link domains
    and whose query names one of them, [Examples.foreignLink]: the link is
    trimmed and not empty, [isYandexDiskURL] finds the domain name in the
    query and answers true, and [GetDirectURL] sends a GET request to the
    foreign host; the result is not the link with the world unchanged,
    which the claim asks for. *)
Theorem GetDirectURL_foreign_host (y : YandexDownloader) (w : World) :
  url_parses Examples.foreignLink = true ->
  TrimSpace Examples.foreignLink = Examples.foreignLink /\
  isYandexDiskURL Examples.foreignLink = true /\
  (exists rest,
     log (snd (GetDirectURL y Examples.foreignLink w)) =
       log w ++ EvDo (mkRequest MethodGet Examples.foreignLink) :: rest) /\
  GetDirectURL y Examples.foreignLink w <> (inr Examples.foreignLink, w).
Proof.
  intros Hp.
  assert (Ht : TrimSpace Examples.foreignLink = Examples.foreignLink)
    by (vm_compute; reflexivity).
  assert (Hy : isYandexDiskURL Examples.foreignLink = true) by (vm_compute; reflexivity).
  assert (Hne : Examples.foreignLink <> []) by discriminate.
  destruct (GetDirectURL_request y _ w Ht Hne Hy Hp) as [rest Hlog].
  split; [exact Ht|]. split; [exact Hy|]. split; [eauto|].
  intros E. rewrite E in Hlog. simpl in Hlog.
  apply (f_equal (@length _)) in Hlog. rewrite length_app in Hlog. simpl in Hlog. lia.
Qed.

(** C5. When the HEAD response has an acceptable status and declares a
    positive length above [maxSize], [downloadByURL] fails with
    [ErrFileTooLarge] after the HEAD round trip alone. When the HEAD response
    passes and the GET response has status 200 and declares a positive
    length above [maxSize], it fails with [ErrFileTooLarge] after the two
    round trips. In both cases the log gains no [EvRead]: no byte of the
    body is read. *)
Theorem downloadByURL_declared_too_large (y : YandexDownloader) (url : gostring)
    (w : World) (head : Response) (st1 : NetState) :
  url_parses url = true ->
  client_Do (mkRequest MethodHead url) (net w) = (inr head, st1) ->
  StatusCode head = StatusOK \/ StatusCode head = StatusFound ->
  (0 < ContentLength head -> maxSize y < ContentLength head ->
   downloadByURL y url w =
   (inl ErrFileTooLarge,
    {| net := st1; log := log w ++ [EvDo (mkRequest MethodHead url)] |})) /\
  (forall get st2,
     ~ (0 < ContentLength head /\ maxSize y < ContentLength head) ->
     client_Do (mkRequest MethodGet url) st1 = (inr get, st2) ->
     StatusCode get = StatusOK ->
     0 < ContentLength get -> maxSize y < ContentLength get ->
     downloadByURL y url w =
     (inl ErrFileTooLarge,
      {| net := st2;
         log := (log w ++ [EvDo (mkRequest MethodHead url)])
                ++ [EvDo (mkRequest MethodGet url)] |})).
Proof.
  intros Hurl Hhead Hst. split.
  - intros Hpos Hbig. unfold downloadByURL.
    rewrite !NewRequest_ok by exact Hurl.
    rewrite (Do_eq _ _ _ _ Hhead). cbv beta iota zeta.
    rewrite (status_check_ok _ Hst).
    replace ((ContentLength head >? 0) && (ContentLength head >? maxSize y)) with true
      by (symmetry; apply andb_true_iff; split; apply Z.gtb_lt; lia).
    reflexivity.
  - intros get st2 Hsmall Hget Hstg Hpos Hbig. unfold downloadByURL.
    rewrite !NewRequest_ok by exact Hurl.
    rewrite (Do_eq _ _ _ _ Hhead). cbv beta iota zeta.
    rewrite (status_check_ok _ Hst).
    replace ((ContentLength head >? 0) && (ContentLength head >? maxSize y)) with false.
    2:{ symmetry. apply andb_false_iff.
        destruct (Z.gtb_spec (ContentLength head) 0); [|auto].
        destruct (Z.gtb_spec (ContentLength head) (maxSize y)); [|auto].
        exfalso. apply Hsmall. lia. }
    rewrite (Do_eq _ _ (inr get) st2) by exact Hget. cbv beta iota zeta.
    rewrite Hstg. change (negb (StatusOK =? StatusOK)) with false. cbv iota.
    replace ((ContentLength get >? 0) && (ContentLength get >? maxSize y)) with true
      by (symmetry; apply andb_true_iff; split; apply Z.gtb_lt; lia).
    reflexivity.
Qed.

(** C7. For a share link whose direct URL is resolved, when the HEAD request
    to it comes back with status 200 or 302 and without a length (Go reports
    a negative [ContentLength]), [GetFileSize] returns [-1] and a nil
    error. *)
Theorem GetFileSize_unknown_length (y : YandexDownloader) (s direct : gostring)
    (w w1 : World) (resp : Response) (st : NetState) :
  TrimSpace s <> [] ->
  isYandexDiskURL (TrimSpace s) = true ->
  GetDirectURL y (TrimSpace s) w = (inr direct, w1) ->
  url_parses direct = true ->
  client_Do (mkRequest MethodHead direct) (net w1) = (inr resp, st) ->
  StatusCode resp = StatusOK \/ StatusCode resp = StatusFound ->
  ContentLength resp < 0 ->
  GetFileSize y s w =
  (inr (-1), {| net := st; log := log w1 ++ [EvDo (mkRequest MethodHead direct)] |}).
Proof.
  intros Hne Hy Hd Hurl Hhead Hst Hlen. unfold GetFileSize.
  apply is_empty_false in Hne. rewrite Hne, Hy. cbn [negb].
  rewrite Hd, (NewRequest_ok _ _ Hurl), (Do_eq _ _ _ _ Hhead).
  rewrite (status_check_ok _ Hst).
  replace (ContentLength resp >=? 0) with false
    by (symmetry; rewrite Z.geb_leb; apply Z.leb_gt; lia).
  reflexivity.
Qed.

End YandexFacts.

(** ** Strings and paths *)

Section StringFacts.

Lemma chr_inj a b : chr a = chr b -> a = b.
Proof.
  unfold chr. intros E. apply N2Z.inj in E.
  rewrite <- (ascii_N_embedding a), <- (ascii_N_embedding b). now rewrite E.
Qed.

Lemma str_inj s t : str s = str t -> s = t.
Proof.
  unfold str. intros E.
  rewrite <- (string_of_list_ascii_of_string s), <- (string_of_list_ascii_of_string t).
  f_equal. revert E. generalize (list_ascii_of_string t).
  induction (list_ascii_of_string s) as [|a l IH]; intros [|b l'] E;
    simpl in E; try discriminate; [reflexivity|].
  injection E as Ea El. f_equal; [now apply chr_inj | now apply IH].
Qed.

Lemma Itoa_inj a b : Itoa a = Itoa b -> a = b.
Proof. unfold Itoa. intros E. apply str_inj in E. now apply (inj pretty). Qed.

Ltac char_arith := cbv [numeral_char chr N_of_ascii N_of_digits]; simpl; lia.

Lemma pretty_N_char_digit x : numeral_char (pretty_N_char x).
Proof. unfold pretty_N_char. repeat case_match; char_arith. Qed.

Lemma pretty_N_go_chars x s :
  Forall numeral_char (list_ascii_of_string s) ->
  Forall numeral_char (list_ascii_of_string (pretty_N_go x s)).
Proof.
  revert s. induction (N.lt_wf_0 x) as [x _ IH]. intros s Hs.
  destruct (decide (x = 0)%N) as [->|Hx].
  - now rewrite pretty_N_go_0.
  - rewrite pretty_N_go_step by lia. apply IH.
    + apply N.div_lt; lia.
    + simpl. constructor; [apply pretty_N_char_digit | exact Hs].
Qed.

Lemma pretty_N_chars (x : N) : Forall numeral_char (list_ascii_of_string (pretty x)).
Proof.
  unfold pretty, pretty_N. case_decide.
  - constructor; [char_arith | constructor].
  - apply pretty_N_go_chars. constructor.
Qed.

Lemma pretty_Z_chars (z : Z) : Forall numeral_char (list_ascii_of_string (pretty z)).
Proof.
  destruct z as [|p|p]; unfold pretty, pretty_Z.
  - constructor; [char_arith | constructor].
  - apply (pretty_N_chars (Npos p)).
  - simpl. constructor; [char_arith | apply (pretty_N_chars (Npos p))].
Qed.

Lemma Itoa_chars z r : r ∈ Itoa z -> 48 <= r <= 57 \/ r = 45.
Proof.
  unfold Itoa, str. intros Hr.
  apply list_elem_of_fmap in Hr as (a & -> & Ha).
  pose proof (pretty_Z_chars z) as Hall.
  rewrite Forall_forall in Hall. apply Hall, Ha.
Qed.

End StringFacts.

Section PathFacts.

Lemma elem_of_rev {A} (x : A) (l : list A) : x ∈ rev l <-> x ∈ l.
Proof. rewrite !list_elem_of_In. symmetry. apply in_rev. Qed.

Lemma span_fst_all f s : Forall (fun c => f c = true) (fst (span f s)).
Proof.
  induction s as [|c t IH]; simpl; [constructor|].
  destruct (f c) eqn:Ec; [|constructor].
  destruct (span f t) as [a b]. simpl in *. now constructor.
Qed.

Lemma span_app f a c b :
  Forall (fun c => f c = true) a -> f c = false -> span f (a ++ c :: b) = (a, c :: b).
Proof.
  intros Ha Hc. induction Ha as [|x a Hx _ IH]; simpl.
  - now rewrite Hc.
  - now rewrite Hx, IH.
Qed.

Lemma TrimLeftFunc_suffix f s : TrimLeftFunc f s `suffix_of` s.
Proof.
  induction s as [|c t IH]; simpl; [reflexivity|].
  destruct (f c); [|reflexivity]. now apply suffix_cons_r.
Qed.

Lemma TrimFunc_elem f s r : r ∈ TrimFunc f s -> r ∈ s.
Proof.
  unfold TrimFunc, TrimRightFunc. intros Hr.
  rewrite elem_of_rev in Hr.
  destruct (TrimLeftFunc_suffix f (rev (TrimLeftFunc f s))) as [k Ek].
  assert (Hr' : r ∈ rev (TrimLeftFunc f s)).
  { rewrite Ek. apply elem_of_app. now right. }
  rewrite elem_of_rev in Hr'.
  destruct (TrimLeftFunc_suffix f s) as [k' Ek'].
  rewrite Ek'. apply elem_of_app. now right.
Qed.

Lemma TrimSpace_elem s r : r ∈ TrimSpace s -> r ∈ s.
Proof. apply TrimFunc_elem. Qed.

Lemma not_sep_iff r : negb (is_sep r) = true <-> r <> sep.
Proof. unfold is_sep. destruct (Z.eqb_spec r sep); simpl; split; congruence. Qed.

(** [Base] never returns the empty string, and the only result with a
    separator in it is the root. *)
Lemma Base_nonempty s : Base s <> [].
Proof.
  unfold Base. destruct (is_empty s); [discriminate|].
  destruct (is_empty (after_last_sep _)) eqn:E; [discriminate|].
  now apply is_empty_false.
Qed.

Lemma after_last_sep_no_sep s : sep ∉ after_last_sep s.
Proof.
  unfold after_last_sep. intros Hin. rewrite elem_of_rev in Hin.
  pose proof (span_fst_all (fun r => negb (is_sep r)) (rev s)) as Hall.
  rewrite Forall_forall in Hall. apply Hall in Hin.
  apply not_sep_iff in Hin. congruence.
Qed.

Lemma Base_sep s : sep ∈ Base s -> Base s = [sep].
Proof.
  unfold Base. destruct (is_empty s).
  - intros Hin. exfalso. revert Hin. vm_compute. intros Hin.
    repeat (apply elem_of_cons in Hin as [Hin|Hin]; [discriminate|]).
    now apply elem_of_nil in Hin.
  - destruct (is_empty (after_last_sep _)) eqn:E; [reflexivity|].
    intros Hin. now apply after_last_sep_no_sep in Hin.
Qed.

(** [filepath.Ext] returns a suffix of its argument, and [TrimSuffix] takes
    exactly that suffix away. *)
Lemma ext_scan_spec rs acc :
  ext_scan rs acc = [] \/ exists a b, rs = a ++ b /\ ext_scan rs acc = rev a ++ acc.
Proof.
  revert acc. induction rs as [|c rs IH]; intros acc; simpl; [now left|].
  destruct (is_sep c); [now left|].
  destruct (c =? 46).
  - right. exists [c], rs. split; reflexivity.
  - destruct (IH (c :: acc)) as [E | (a & b & -> & E)]; [now left|].
    right. exists (c :: a), b. split; [reflexivity|].
    rewrite E. simpl. now rewrite <- app_assoc.
Qed.

Lemma Ext_suffix s : exists stem, s = stem ++ Ext s.
Proof.
  unfold Ext. destruct (ext_scan_spec (rev s) []) as [E | (a & b & Hs & E)].
  - rewrite E. exists s. now rewrite app_nil_r.
  - rewrite E, app_nil_r. exists (rev b).
    rewrite <- (rev_involutive s), Hs, rev_app_distr. reflexivity.
Qed.

Lemma HasPrefix_app a b : HasPrefix (a ++ b) a = true.
Proof.
  induction a as [|c a IH]; simpl; [now destruct b|].
  now rewrite Z.eqb_refl, IH.
Qed.

Lemma TrimSuffix_app stem x : TrimSuffix (stem ++ x) x = stem.
Proof.
  unfold TrimSuffix, HasSuffix. rewrite rev_app_distr, HasPrefix_app.
  rewrite length_app. replace (length stem + length x - length x)%nat with (length stem) by lia.
  now rewrite take_app_length.
Qed.

Lemma stem_ext s : TrimSuffix s (Ext s) ++ Ext s = s.
Proof.
  destruct (Ext_suffix s) as [stem E].
  rewrite E at 1. rewrite TrimSuffix_app. now symmetry.
Qed.

Lemma ext_scan_no_dot rs acc : 46 ∉ rs -> ext_scan rs acc = [].
Proof.
  revert acc. induction rs as [|c rs IH]; intros acc Hn; simpl; [reflexivity|].
  destruct (is_sep c); [reflexivity|].
  destruct (Z.eqb_spec c 46) as [->|Hc].
  - exfalso. apply Hn. constructor.
  - apply IH. intros Hin. apply Hn. now constructor.
Qed.

Lemma Ext_no_dot s : 46 ∉ s -> Ext s = [].
Proof.
  intros Hn. unfold Ext. apply ext_scan_no_dot.
  intros Hin. apply Hn. now rewrite elem_of_rev in Hin.
Qed.

(** Joining a name without separators. *)
Lemma split_sep_no_sep s : sep ∉ s -> split_sep s = [s].
Proof.
  induction s as [|c t IH]; intros Hn; simpl; [reflexivity|].
  unfold is_sep. destruct (Z.eqb_spec c sep) as [->|Hc].
  - exfalso. apply Hn. constructor.
  - rewrite IH; [reflexivity|]. intros Hin. apply Hn. now constructor.
Qed.

Lemma streq_false a b : streq a b = false <-> a <> b.
Proof. unfold streq. apply bool_decide_eq_false. Qed.

Lemma Join_name dir n :
  sep ∉ n -> n <> [] -> n <> str "." -> n <> str ".." -> Join dir n = dir ++ [n].
Proof.
  intros Hs Hn Hd Hdd. unfold Join. rewrite split_sep_no_sep by exact Hs.
  simpl. unfold push_elem.
  apply is_empty_false in Hn. apply streq_false in Hd, Hdd.
  now rewrite Hn, Hd, Hdd.
Qed.

Lemma Join_dot dir : Join dir (str ".") = dir.
Proof. reflexivity. Qed.

Lemma Join_dotdot dir : Join dir (str "..") = removelast dir.
Proof. reflexivity. Qed.

Lemma Join_sep dir : Join dir [sep] = dir.
Proof. reflexivity. Qed.

(** The base name of a joined path is the name joined. *)
Lemma TrimLeftFunc_head f a b :
  a <> [] -> Forall (fun c => f c = false) a -> TrimLeftFunc f (a ++ b) = a ++ b.
Proof.
  intros Ha Hall. destruct Hall as [|c a Hc _]; [congruence|].
  simpl. now rewrite Hc.
Qed.

Lemma render_snoc dir n : n <> [] -> exists x, render (dir ++ [n]) = x ++ sep :: n.
Proof.
  intros _. unfold render.
  destruct (dir ++ [n]) eqn:E; [now destruct dir|]. rewrite <- E.
  rewrite flat_map_app. simpl. rewrite app_nil_r. eauto.
Qed.

Lemma Base_render_snoc dir n :
  sep ∉ n -> n <> [] -> Base (render (dir ++ [n])) = n.
Proof.
  intros Hs Hn. destruct (render_snoc dir n Hn) as [x Ex]. rewrite Ex.
  unfold Base.
  replace (is_empty (x ++ sep :: n)) with false by (now destruct x).
  assert (Hrev : rev (x ++ sep :: n) = rev n ++ sep :: rev x).
  { rewrite rev_app_distr. simpl. now rewrite <- app_assoc. }
  assert (Hall : Forall (fun c => negb (is_sep c) = true) (rev n)).
  { rewrite Forall_forall. intros c Hc. apply not_sep_iff. intros ->.
    apply Hs. now rewrite elem_of_rev in Hc. }
  assert (Htrim : TrimRightFunc is_sep (x ++ sep :: n) = x ++ sep :: n).
  { unfold TrimRightFunc. rewrite Hrev. rewrite TrimLeftFunc_head.
    - rewrite <- Hrev. apply rev_involutive.
    - intros E. apply Hn. rewrite <- (rev_involutive n), E. reflexivity.
    - eapply Forall_impl; [exact Hall|]. intros c Hc. now apply negb_true_iff. }
  rewrite Htrim. unfold after_last_sep. rewrite Hrev.
  rewrite span_app; [|exact Hall|reflexivity].
  simpl. rewrite rev_involutive.
  apply is_empty_false in Hn. now rewrite Hn.
Qed.

End PathFacts.

(** ** Names inside a batch *)

Section NameFacts.
Import Downloader.

Lemma sanitizeBulkFilename_elem s r :
  r ∈ sanitizeBulkFilename s -> (r ∈ s) /\ rune_in bad r = false.
Proof.
  unfold sanitizeBulkFilename, Map. intros Hr.
  apply TrimSpace_elem in Hr.
  apply list_elem_of_omap in Hr as (c & Hc & E).
  destruct (rune_in bad c) eqn:Eb; simplify_eq. auto.
Qed.

Lemma sanitizeBulkFilename_no_sep s : sep ∉ sanitizeBulkFilename s.
Proof. intros Hin. apply sanitizeBulkFilename_elem in Hin as [_ E]. discriminate. Qed.

Lemma str_elem_file r : r ∈ str "file_" -> r <> sep /\ r <> 46.
Proof.
  vm_compute. intros Hr.
  repeat (apply elem_of_cons in Hr as [->|Hr]; [split; discriminate|]).
  now apply elem_of_nil in Hr.
Qed.

Lemma Itoa_elem z r : r ∈ Itoa z -> r <> sep /\ r <> 46.
Proof. intros Hr. apply Itoa_chars in Hr. unfold sep. lia. Qed.

(** The base name of an item is not empty and has no separator. *)
Lemma baseFor_nonempty i it : baseFor i it <> [].
Proof.
  unfold baseFor. destruct (is_empty (sanitizeBulkFilename (Filename it))) eqn:E.
  - vm_compute. discriminate.
  - now apply is_empty_false.
Qed.

Lemma baseFor_no_sep i it : sep ∉ baseFor i it.
Proof.
  unfold baseFor. destruct (is_empty (sanitizeBulkFilename (Filename it))).
  - intros Hin. apply elem_of_app in Hin as [Hin|Hin].
    + now apply str_elem_file in Hin as [? _].
    + now apply Itoa_elem in Hin as [? _].
  - apply sanitizeBulkFilename_no_sep.
Qed.

(** The fallback base [file_<i>] has no extension. *)
Lemma fallback_Ext i : Ext (str "file_" ++ Itoa i) = [].
Proof.
  apply Ext_no_dot. intros Hin. apply elem_of_app in Hin as [Hin|Hin].
  - now apply str_elem_file in Hin as [_ ?].
  - now apply Itoa_elem in Hin as [_ ?].
Qed.

Lemma suffixed_inj stem ext a b : suffixed stem ext a = suffixed stem ext b -> a = b.
Proof.
  unfold suffixed. destruct (negb (is_empty ext)); intros E.
  - apply app_inv_head, app_inv_head, app_inv_tail in E. now apply Itoa_inj.
  - apply app_inv_head, app_inv_head in E. now apply Itoa_inj.
Qed.

Lemma suffixed_nonempty stem ext k : suffixed stem ext k <> [].
Proof.
  unfold suffixed. destruct (negb (is_empty ext)); intros E;
    apply app_eq_nil in E as [_ E]; discriminate.
Qed.

Lemma suffixed_elem stem ext k r :
  r ∈ suffixed stem ext k -> r ∈ stem \/ r ∈ ext \/ r = 95 \/ r ∈ Itoa k.
Proof.
  unfold suffixed. destruct (negb (is_empty ext)); intros Hr;
    repeat (apply elem_of_app in Hr as [Hr|Hr]); auto.
  - apply list_elem_of_singleton in Hr. auto.
  - apply list_elem_of_singleton in Hr. auto.
Qed.

(** Among the counters [1 .. size used + 1] one gives a name not in use. *)
Lemma free_counter (used : gset gostring) stem ext :
  exists j, 1 <= j <= Z.of_nat (S (size used)) /\ suffixed stem ext j ∉ used.
Proof.
  set (n := S (size used)).
  set (cands := map (fun j => suffixed stem ext (Z.of_nat j)) (seq 1 n)).
  destruct (decide (Forall (fun c => c ∈ used) cands)) as [Hall|Hnot].
  - exfalso.
    assert (Hnd : NoDup cands).
    { unfold cands. apply NoDup_fmap_2_strong; [|apply NoDup_seq].
      intros a b _ _ E. apply suffixed_inj in E. lia. }
    assert (Hsub : (list_to_set cands : gset gostring) ⊆ used).
    { intros c Hc. apply elem_of_list_to_set in Hc.
      rewrite Forall_forall in Hall. now apply Hall. }
    apply subseteq_size in Hsub.
    rewrite size_list_to_set in Hsub by exact Hnd.
    unfold cands in Hsub. rewrite length_map, length_seq in Hsub. unfold n in Hsub. lia.
  - apply not_Forall_Exists in Hnot; [|intros; apply _].
    apply Exists_exists in Hnot as (c & Hc & Hfree).
    unfold cands in Hc. apply list_elem_of_fmap in Hc as (j & -> & Hj).
    apply elem_of_seq in Hj. exists (Z.of_nat j). split; [unfold n in *; lia | exact Hfree].
Qed.

(** The loop returns the current name when it is free, and otherwise the
    name of the least later counter that is free, provided the fuel reaches
    a free counter. *)
Lemma uniqueName_spec (fuel : nat) (used : gset gostring) stem ext cur c :
  (exists j, 1 <= j <= Z.of_nat fuel /\ suffixed stem ext (c + j) ∉ used) ->
  ((cur ∉ used) /\ uniqueName fuel used stem ext cur c = cur) \/
  ((cur ∈ used) /\
   exists k, 1 <= k /\ uniqueName fuel used stem ext cur c = suffixed stem ext (c + k) /\
             (suffixed stem ext (c + k) ∉ used) /\
             forall j, 1 <= j < k -> suffixed stem ext (c + j) ∈ used).
Proof.
  revert cur c. induction fuel as [|fuel IH]; intros cur c (j & Hj & Hfree).
  - lia.
  - simpl. destruct (decide (cur ∈ used)) as [Hin|Hout].
    + rewrite bool_decide_eq_true_2 by exact Hin. right. split; [exact Hin|].
      destruct (decide (suffixed stem ext (c + 1) ∈ used)) as [Hin1|Hout1].
      * destruct (IH (suffixed stem ext (c + 1)) (c + 1)) as [[Hc _] | (_ & k & Hk & E & Hf & Hlt)].
        { exists (j - 1). split.
          - destruct (decide (j = 1)) as [->|]; [contradiction|lia].
          - now replace (c + 1 + (j - 1)) with (c + j) by lia. }
        { contradiction. }
        exists (k + 1). split; [lia|].
        replace (c + (k + 1)) with (c + 1 + k) by lia.
        split; [exact E|]. split; [exact Hf|].
        intros i Hi. destruct (decide (i = 1)) as [->|]; [exact Hin1|].
        replace (c + i) with (c + 1 + (i - 1)) by lia. apply Hlt. lia.
      * exists 1. split; [lia|].
        assert (E : uniqueName fuel used stem ext (suffixed stem ext (c + 1)) (c + 1)
                    = suffixed stem ext (c + 1)).
        { destruct fuel; simpl; now rewrite bool_decide_eq_false_2 by exact Hout1. }
        split; [exact E|]. split; [exact Hout1|]. intros i Hi. lia.
    + rewrite bool_decide_eq_false_2 by exact Hout. now left.
Qed.

(** The naming rule: the name of an item is its base name when that is
    free, and otherwise the base name with the least counter, from 1 on,
    that gives a free name. *)
Lemma finalNameFor_spec (used : gset gostring) i it :
  let base := baseFor i it in
  let ext := Ext base in
  let stem := TrimSuffix base ext in
  ((base ∉ used) /\ finalNameFor used i it = base) \/
  ((base ∈ used) /\
   exists k, 1 <= k /\ finalNameFor used i it = suffixed stem ext k /\
             (suffixed stem ext k ∉ used) /\
             forall j, 1 <= j < k -> suffixed stem ext j ∈ used).
Proof.
  intros base ext stem. unfold finalNameFor. fold base. fold ext. fold stem.
  destruct (free_counter used stem ext) as (j & Hj & Hfree).
  destruct (uniqueName_spec (S (size used)) used stem ext base 0) as [H|H].
  - exists j. split; [lia|]. now replace (0 + j) with j by lia.
  - now left.
  - right. destruct H as (Hin & k & Hk & E & Hf & Hlt). split; [exact Hin|].
    exists k. replace (0 + k) with k in * by lia.
    repeat split; auto.
Qed.

Lemma finalNameFor_fresh (used : gset gostring) i it : finalNameFor used i it ∉ used.
Proof.
  destruct (finalNameFor_spec used i it) as [[H E] | (_ & k & _ & E & H & _)];
    rewrite E; exact H.
Qed.

Lemma finalNameFor_nonempty (used : gset gostring) i it : finalNameFor used i it <> [].
Proof.
  destruct (finalNameFor_spec used i it) as [[_ E] | (_ & k & _ & E & _)]; rewrite E.
  - apply baseFor_nonempty.
  - apply suffixed_nonempty.
Qed.

Lemma finalNameFor_no_sep (used : gset gostring) i it : sep ∉ finalNameFor used i it.
Proof.
  destruct (finalNameFor_spec used i it) as [[_ E] | (_ & k & _ & E & _)]; rewrite E.
  - apply baseFor_no_sep.
  - intros Hin. apply suffixed_elem in Hin.
    pose proof (baseFor_no_sep i it) as Hb.
    rewrite <- (stem_ext (baseFor i it)) in Hb.
    destruct Hin as [Hin | [Hin | [Hin | Hin]]].
    + apply Hb, elem_of_app. now left.
    + apply Hb, elem_of_app. now right.
    + discriminate.
    + now apply Itoa_elem in Hin as [? _].
Qed.

(** The names given to a batch are pairwise distinct, none is empty, none
    was in use before. *)
Lemma assignNames_length i used items : length (assignNames i used items) = length items.
Proof. revert i used. induction items; intros; simpl; auto. Qed.

Lemma assignNames_fresh (i : Z) (used : gset gostring) items n :
  n ∈ assignNames i used items -> n ∉ used.
Proof.
  revert i used. induction items as [|it rest IH]; intros i used Hn; simpl in Hn.
  - now apply elem_of_nil in Hn.
  - apply elem_of_cons in Hn as [->|Hn]; [apply finalNameFor_fresh|].
    apply IH in Hn. set_solver.
Qed.

Lemma assignNames_NoDup (i : Z) (used : gset gostring) items : NoDup (assignNames i used items).
Proof.
  revert i used. induction items as [|it rest IH]; intros i used; simpl; constructor.
  - intros Hin. apply assignNames_fresh in Hin. set_solver.
  - apply IH.
Qed.

Lemma assignNames_nonempty (i : Z) (used : gset gostring) items : [] ∉ assignNames i used items.
Proof.
  revert i used. induction items as [|it rest IH]; intros i used Hn; simpl in Hn.
  - now apply elem_of_nil in Hn.
  - apply elem_of_cons in Hn as [E|Hn]; [|now apply IH in Hn].
    symmetry in E. now apply finalNameFor_nonempty in E.
Qed.

End NameFacts.

(** ** The archive builders of [downloader.go] *)

Section BuilderFacts.
Import Yandex Downloader.
Context {P : Platform} {F : Fetcher}.

Lemma oscall_spec c (w : World) :
  exists f fl,
    oscall c w =
    (f, {| fs := fs w; faults := fl; calls := calls w ++ [c]; disk := disk w; dl := dl w |}).
Proof. unfold oscall, log_call. destruct (faults w); eauto. Qed.

Lemma os_RemoveAll_removed dir (w : World) : workspaceRemoved dir (os_RemoveAll dir w).
Proof.
  unfold workspaceRemoved, os_RemoveAll, set_fs, log_call. simpl. split.
  - intros p Hp. apply map_lookup_filter_None. right. intros x _ Hn. now apply Hn.
  - apply last_snoc.
Qed.

Lemma foldr_insert_Dir (l : list path) (m : gmap path node) q :
  q ∈ l -> foldr (fun q m => <[q := Dir]> m) m l !! q = Some Dir.
Proof.
  induction l as [|x l IH]; intros Hq; [now apply elem_of_nil in Hq|].
  simpl. destruct (decide (x = q)) as [->|Hne].
  - apply lookup_insert_eq.
  - rewrite lookup_insert_ne by exact Hne. apply IH.
    apply elem_of_cons in Hq as [->|Hq]; [congruence|exact Hq].
Qed.

Lemma prefixes_elem (p : path) (n : nat) :
  (1 <= n <= length p)%nat -> take n p ∈ prefixes p.
Proof.
  intros Hn. unfold prefixes.
  apply list_elem_of_In, (in_map (fun n => take n p)), in_seq. lia.
Qed.

Lemma removelast_take {A} (l : list A) : removelast l = take (length l - 1) l.
Proof.
  induction l as [|x l IH]; [reflexivity|].
  destruct l as [|y l]; [reflexivity|].
  change (removelast (x :: y :: l)) with (x :: removelast (y :: l)).
  rewrite IH. simpl. now rewrite Nat.sub_0_r.
Qed.

(** After a successful [os.MkdirAll] the directory and its parent exist. *)
Lemma os_MkdirAll_ok p (w w' : World) :
  os_MkdirAll p w = (None, w') ->
  is_dir (fs w') p = true /\ is_dir (fs w') (removelast p) = true /\
  calls w' = calls w ++ [CallMkdirAll p].
Proof.
  unfold os_MkdirAll. destruct (oscall_spec (CallMkdirAll p) w) as (f & fl & ->).
  destruct f as [c|]; [discriminate|]. simpl.
  destruct (forallb _ _); [|discriminate].
  intros E. inversion E; subst; clear E. unfold set_fs. simpl.
  assert (Hd : forall n, (n <= length p)%nat ->
               is_dir (foldr (fun q m => <[q := Dir]> m) (fs w) (prefixes p)) (take n p) = true).
  { intros n Hn. unfold is_dir. destruct (take n p) as [|x q] eqn:E; [reflexivity|].
    rewrite <- E. rewrite foldr_insert_Dir; [reflexivity|].
    apply prefixes_elem. destruct n; [discriminate|]. lia. }
  split; [|split; [|reflexivity]].
  - rewrite <- (take_ge p (length p)) at 2 by lia. apply Hd. lia.
  - rewrite removelast_take. apply Hd. lia.
Qed.

Lemma write_node_ok c p n (w w' : World) :
  write_node c p n w = (None, w') ->
  is_dir (fs w) p = false /\ fs w' = <[p := n]> (fs w).
Proof.
  unfold write_node. destruct (oscall_spec c w) as (f & fl & ->).
  destruct f as [k|]; [discriminate|]. simpl.
  destruct (is_dir (fs w) p) eqn:Ed; [discriminate|].
  destruct (negb (is_dir (fs w) (removelast p))); [discriminate|].
  intros E. inversion E; subst. auto.
Qed.

(** Each call leaves through [workspaceRemoved] when the builders clean
    up; the calls below do not touch the file system. *)
Lemma os_Open_fs p (w : World) r w' : os_Open p w = (r, w') -> fs w' = fs w.
Proof.
  unfold os_Open. destruct (oscall_spec (CallOpen p) w) as (f & fl & ->).
  destruct f; [|simpl; destruct (exists_at _ _)]; intros E; inversion E; subst; reflexivity.
Qed.

Lemma file_Close_fs p (w : World) r w' : file_Close p w = (r, w') -> fs w' = fs w.
Proof.
  unfold file_Close. destruct (oscall_spec (CallFileClose p) w) as (f & fl & ->).
  intros E; inversion E; subst; reflexivity.
Qed.

Lemma zw_CreateHeader_spec name zw (w : World) e zw' w' :
  zw_CreateHeader name zw w = (e, zw', w') ->
  fs w' = fs w /\ (e = None -> zw' = zw ++ [(name, [])]).
Proof.
  unfold zw_CreateHeader. destruct (oscall_spec (CallCreateHeader name) w) as (f & fl & ->).
  destruct f; intros E; inversion E; subst; split; auto; discriminate.
Qed.

Lemma io_Copy_spec src zw (w : World) zw' w' :
  io_Copy src zw w = (zw', w') -> fs w' = fs w /\ map fst zw' = map fst zw.
Proof.
  unfold io_Copy. destruct (oscall_spec CallCopy w) as (f & fl & ->).
  intros E. inversion E; subst; clear E. split; [reflexivity|].
  destruct (reverse zw) as [|[name d] others] eqn:Er; [reflexivity|].
  assert (Hz : zw = reverse others ++ [(name, d)]).
  { rewrite <- (reverse_involutive zw), Er. now rewrite reverse_cons. }
  rewrite Hz. now rewrite !map_app.
Qed.

Lemma zw_Close_spec zipPath zw (w : World) e w' :
  zw_Close zipPath zw w = (e, w') ->
  exists ok, fs w' = <[zipPath := Archive zw ok]> (fs w) /\ (e = None -> ok = true).
Proof.
  unfold zw_Close. destruct (oscall_spec CallZipClose w) as (f & fl & ->).
  intros E. inversion E; subst; clear E. simpl.
  destruct f; eexists; split; try reflexivity; try discriminate.
Qed.

(** The name of the single entry, as [ZipBytesToTemp] computes it. *)
Lemma innerName_cases (innerFilename : gostring) :
  let name := if is_empty (Base innerFilename) || streq (Base innerFilename) (str ".")
              then str "document" else Base innerFilename in
  name <> [] /\ (sep ∈ name -> name = [sep]).
Proof.
  intros name. unfold name.
  destruct (is_empty (Base innerFilename) || streq (Base innerFilename) (str ".")).
  - split; [discriminate|]. vm_compute. intros Hin.
    repeat (apply elem_of_cons in Hin as [Hin|Hin]; [discriminate|]).
    now apply elem_of_nil in Hin.
  - split; [apply Base_nonempty | apply Base_sep].
Qed.

(** Without a fault no call fails for a reason outside the file system,
    and the list of faults stays empty. *)
Lemma oscall_nofault c (w : World) :
  faults w = [] -> oscall c w = (None, log_call c w).
Proof. unfold oscall. intros ->. reflexivity. Qed.

Lemma write_node_nofault c p n (w : World) r w' :
  faults w = [] -> write_node c p n w = (r, w') -> faults w' = [].
Proof.
  intros Hf. unfold write_node. rewrite (oscall_nofault _ _ Hf). simpl.
  intros E. repeat case_match; simplify_eq; exact Hf.
Qed.

Lemma os_MkdirAll_nofault p (w : World) r w' :
  faults w = [] -> os_MkdirAll p w = (r, w') -> faults w' = [].
Proof.
  intros Hf. unfold os_MkdirAll. rewrite (oscall_nofault _ _ Hf). simpl.
  intros E. repeat case_match; simplify_eq; exact Hf.
Qed.

Lemma os_Open_nofault p (w : World) r w' :
  faults w = [] -> os_Open p w = (r, w') -> faults w' = [].
Proof.
  intros Hf. unfold os_Open. rewrite (oscall_nofault _ _ Hf). simpl.
  intros E. repeat case_match; simplify_eq; exact Hf.
Qed.

Lemma file_Close_nofault p (w : World) r w' :
  faults w = [] -> file_Close p w = (r, w') -> faults w' = [].
Proof.
  intros Hf. unfold file_Close. rewrite (oscall_nofault _ _ Hf). simpl.
  intros E. simplify_eq. exact Hf.
Qed.

Lemma zw_CreateHeader_nofault name zw (w : World) r w' :
  faults w = [] -> zw_CreateHeader name zw w = (r, w') -> faults w' = [].
Proof.
  intros Hf. unfold zw_CreateHeader. rewrite (oscall_nofault _ _ Hf). simpl.
  intros E. simplify_eq. exact Hf.
Qed.

Lemma io_Copy_nofault src zw (w : World) r w' :
  faults w = [] -> io_Copy src zw w = (r, w') -> faults w' = [].
Proof.
  intros Hf. unfold io_Copy. rewrite (oscall_nofault _ _ Hf). simpl.
  intros E. simplify_eq. exact Hf.
Qed.

Lemma zw_Close_nofault zipPath zw (w : World) e w' :
  faults w = [] -> zw_Close zipPath zw w = (e, w') ->
  fs w' = <[zipPath := Archive zw true]> (fs w).
Proof.
  intros Hf. unfold zw_Close. rewrite (oscall_nofault _ _ Hf). simpl.
  intros E. simplify_eq. reflexivity.
Qed.

Lemma ZipBytesToTemp_nofault (data : list byte)
    (innerFilename zipFilename id : gostring) (w w' : World) (zipPath dir : path) :
  faults w = [] ->
  ZipBytesToTemp data innerFilename zipFilename id w = (inr (zipPath, dir), w') ->
  exists zw, fs w' !! zipPath = Some (Archive zw true).
Proof.
  intros Hf E. unfold ZipBytesToTemp in E. cbv zeta in E.
  destruct (os_MkdirAll _ w) as [e1 w1] eqn:E1.
  apply os_MkdirAll_nofault in E1; [|exact Hf].
  destruct e1 as [err|]; [discriminate|].
  destruct (os_WriteFile _ data w1) as [e2 w2] eqn:E2.
  apply write_node_nofault in E2; [|exact E1].
  destruct e2 as [err|]; [discriminate|].
  destruct (os_Create _ w2) as [e3 w3] eqn:E3.
  apply write_node_nofault in E3; [|exact E2].
  destruct e3 as [err|]; [discriminate|].
  destruct (zw_CreateHeader _ [] w3) as [[e4 zw4] w4] eqn:E4.
  apply zw_CreateHeader_nofault in E4; [|exact E3].
  destruct e4 as [err|].
  { destruct (zw_Close _ zw4 w4) as [? w5]. destruct (file_Close _ w5). discriminate. }
  destruct (os_Open _ w4) as [e5 w5] eqn:E5.
  apply os_Open_nofault in E5; [|exact E4].
  destruct (io_Copy _ _ w5) as [zw6 w6] eqn:E6.
  apply io_Copy_nofault in E6; [|exact E5].
  destruct (file_Close _ w6) as [e7 w7] eqn:E7.
  apply file_Close_nofault in E7; [|exact E6].
  destruct (zw_Close _ zw6 w7) as [e8 w8] eqn:E8.
  apply zw_Close_nofault in E8; [|exact E7].
  destruct (file_Close _ w8) as [e9 w9] eqn:E9. apply file_Close_fs in E9.
  inversion E; subst; clear E.
  exists zw6. rewrite E9, E8. apply lookup_insert_eq.
Qed.

(** C8. When [ZipBytesToTemp] succeeds, the zip file it returns holds
    exactly one entry; the name of the entry is [filepath.Base] of the inner
    file name asked for, or [document] when that base is empty or a dot; the
    name is not empty and contains no path separator. When no system call
    meets a fault, the zip file is complete. *)
Theorem ZipBytesToTemp_single_entry (data : list byte)
    (innerFilename zipFilename id : gostring) (w w' : World) (zipPath dir : path) :
  ZipBytesToTemp data innerFilename zipFilename id w = (inr (zipPath, dir), w') ->
  let name := if is_empty (Base innerFilename) || streq (Base innerFilename) (str ".")
              then str "document" else Base innerFilename in
  (exists d ok, fs w' !! zipPath = Some (Archive [(name, d)] ok) /\
                (faults w = [] -> ok = true)) /\
  name <> [] /\ sep ∉ name.
Proof.
  intros E name.
  pose proof (fun Hf => ZipBytesToTemp_nofault _ _ _ _ _ _ _ _ Hf E) as Hcomplete.
  destruct (innerName_cases innerFilename) as [Hne Hsep]. fold name in Hne, Hsep.
  unfold ZipBytesToTemp in E. cbv zeta in E. fold name in E.
  set (dir0 := Join TempDir (str "single_" ++ id)) in E.
  destruct (os_MkdirAll dir0 w) as [e1 w1] eqn:E1.
  destruct e1 as [err|]; [discriminate|].
  apply os_MkdirAll_ok in E1 as (Hdir & _ & _).
  destruct (os_WriteFile (Join dir0 name) data w1) as [e2 w2] eqn:E2.
  destruct e2 as [err|]; [discriminate|].
  apply write_node_ok in E2 as [Hraw _].
  destruct (os_Create _ w2) as [e3 w3] eqn:E3.
  destruct e3 as [err|]; [discriminate|].
  destruct (zw_CreateHeader name [] w3) as [[e4 zw4] w4] eqn:E4.
  destruct e4 as [err|].
  { destruct (zw_Close _ zw4 w4) as [? w5]. destruct (file_Close _ w5). discriminate. }
  apply zw_CreateHeader_spec in E4 as [_ Hzw]. specialize (Hzw eq_refl). subst zw4.
  destruct (os_Open (Join dir0 name) w4) as [e5 w5] eqn:E5.
  destruct (io_Copy _ _ w5) as [zw6 w6] eqn:E6.
  destruct (file_Close (Join dir0 name) w6) as [e7 w7] eqn:E7.
  destruct (zw_Close _ zw6 w7) as [e8 w8] eqn:E8.
  destruct (file_Close _ w8) as [e9 w9] eqn:E9.
  inversion E; subst; clear E.
  apply zw_Close_spec in E8 as (ok & Hfs & _).
  apply file_Close_fs in E9.
  split; [|split; [exact Hne|]].
  - assert (Hzw6 : exists d, zw6 = [(name, d)]).
    { unfold io_Copy in E6. destruct (oscall CallCopy w5) as [f w5'].
      simpl in E6. inversion E6; subst. eauto. }
    destruct Hzw6 as [d ->]. exists d, ok.
    assert (Hl : fs w' !! Join dir0 (if is_empty (Base zipFilename)
                                        || streq (Base zipFilename) (str ".")
                                     then str "archive.zip" else Base zipFilename)
                 = Some (Archive [(name, d)] ok)).
    { rewrite E9, Hfs. apply lookup_insert_eq. }
    split; [exact Hl|].
    intros Hf. destruct (Hcomplete Hf) as [zw Hzw]. rewrite Hl in Hzw. congruence.
  - intros Hin. apply Hsep in Hin. rewrite Hin in Hraw.
    rewrite Join_sep in Hraw. congruence.
Qed.

(** The error returns of the builders pass through [cleanup]. *)
Lemma ZipBytesToTemp_error_cleanup (data : list byte)
    (innerFilename zipFilename id : gostring) (w w1 w' : World) (e : error) :
  os_MkdirAll (Join TempDir (str "single_" ++ id)) w = (None, w1) ->
  ZipBytesToTemp data innerFilename zipFilename id w = (inl e, w') ->
  workspaceRemoved (Join TempDir (str "single_" ++ id)) w'.
Proof.
  intros E1 E. unfold ZipBytesToTemp in E. cbv zeta in E. rewrite E1 in E.
  repeat case_match; simplify_eq; apply os_RemoveAll_removed.
Qed.

Lemma bulkItems_error_cleanup y baseDir maxArchiveBytes :
  forall items i st (w w' : World) e,
    bulkItems y baseDir maxArchiveBytes i items st w = (inl e, w') ->
    workspaceRemoved baseDir w'.
Proof.
  induction items as [|it rest IH]; intros i st w w' e E; simpl in E; [discriminate|].
  destruct (bulkItem y baseDir maxArchiveBytes i it st w) as [r w1] eqn:E1.
  destruct r as [err|st1]; [|eapply IH, E].
  inversion E; subst; clear E.
  unfold bulkItem in E1. cbv zeta in E1.
  repeat case_match; simplify_eq; apply os_RemoveAll_removed.
Qed.

Lemma zipPaths_error_cleanup baseDir zipPath :
  forall ps zw (w w' : World) err zw',
    zipPaths baseDir zipPath ps zw w = (Some err, zw', w') ->
    workspaceRemoved baseDir w'.
Proof.
  induction ps as [|p rest IH]; intros zw w w' err zw' E; simpl in E; [discriminate|].
  repeat case_match; simplify_eq; try apply os_RemoveAll_removed.
  eapply IH; eassumption.
Qed.

Lemma BulkDownloadAndZip_error_cleanup (y : YandexDownloader) (items : list BulkItem)
    (categoryName id : gostring) (maxArchiveBytes minFreeBytes : Z)
    (w w1 w' : World) (e : error) :
  items <> [] ->
  (Main.getFreeSpaceBytes windows (disk w) <? to_uint64 minFreeBytes) = false ->
  os_MkdirAll (Join TempDir (str "bulk_" ++ id)) w = (None, w1) ->
  BulkDownloadAndZip (Some y) items categoryName maxArchiveBytes minFreeBytes id w
  = (inl e, w') ->
  workspaceRemoved (Join TempDir (str "bulk_" ++ id)) w'.
Proof.
  intros Hit Hfree E1 E. unfold BulkDownloadAndZip in E. cbv zeta in E.
  destruct items as [|it rest]; [congruence|].
  rewrite Hfree, E1 in E.
  destruct (bulkItems _ _ _ _ _ _ w1) as [r w2] eqn:E2.
  destruct r as [err|st].
  { inversion E; subst. eapply bulkItems_error_cleanup, E2. }
  destruct (os_Create _ w2) as [e3 w3] eqn:E3.
  destruct e3 as [err|]; [inversion E; subst; apply os_RemoveAll_removed|].
  destruct (zipPaths _ _ _ _ w3) as [[e4 zw] w4] eqn:E4.
  destruct e4 as [err|].
  { inversion E; subst. eapply zipPaths_error_cleanup, E4. }
  repeat case_match; simplify_eq; apply os_RemoveAll_removed.
Qed.

(** C2. Every error that [ZipBytesToTemp] or [BulkDownloadAndZip] returns
    after its workspace directory was created leaves the workspace removed:
    nothing remains at the directory or below it, and the last call before
    the return is the [os.RemoveAll] of the directory. *)
Theorem builders_cleanup_on_error :
  (forall (data : list byte) (innerFilename zipFilename id : gostring)
          (w w1 w' : World) (e : error),
     os_MkdirAll (Join TempDir (str "single_" ++ id)) w = (None, w1) ->
     ZipBytesToTemp data innerFilename zipFilename id w = (inl e, w') ->
     workspaceRemoved (Join TempDir (str "single_" ++ id)) w') /\
  (forall (y : YandexDownloader) (items : list BulkItem)
          (categoryName id : gostring) (maxArchiveBytes minFreeBytes : Z)
          (w w1 w' : World) (e : error),
     items <> [] ->
     (Main.getFreeSpaceBytes windows (disk w) <? to_uint64 minFreeBytes) = false ->
     os_MkdirAll (Join TempDir (str "bulk_" ++ id)) w = (None, w1) ->
     BulkDownloadAndZip (Some y) items categoryName maxArchiveBytes minFreeBytes id w
     = (inl e, w') ->
     workspaceRemoved (Join TempDir (str "bulk_" ++ id)) w').
Proof.
  split.
  - apply ZipBytesToTemp_error_cleanup.
  - apply BulkDownloadAndZip_error_cleanup.
Qed.

(** The log of calls only grows. *)
Lemma oscall_calls c (w : World) f w' : oscall c w = (f, w') -> calls w' = calls w ++ [c].
Proof.
  destruct (oscall_spec c w) as (f0 & fl & ->). intros E. inversion E; subst. reflexivity.
Qed.

Lemma prefix_snoc {A} (l k : list A) x : l ++ [x] `prefix_of` k -> l `prefix_of` k.
Proof. intros [t ->]. exists (x :: t). now rewrite <- app_assoc. Qed.

Lemma write_node_calls c p n (w : World) r w' :
  write_node c p n w = (r, w') -> calls w `prefix_of` calls w'.
Proof.
  unfold write_node. destruct (oscall c w) as [f w1] eqn:E1. apply oscall_calls in E1.
  intros E. apply (prefix_snoc _ _ c). rewrite <- E1.
  repeat case_match; simplify_eq; reflexivity.
Qed.

Lemma os_Open_calls p (w : World) r w' : os_Open p w = (r, w') -> calls w `prefix_of` calls w'.
Proof.
  unfold os_Open. destruct (oscall _ w) as [f w1] eqn:E1. apply oscall_calls in E1.
  intros E. apply (prefix_snoc _ _ (CallOpen p)). rewrite <- E1.
  repeat case_match; simplify_eq; reflexivity.
Qed.

Lemma file_Close_calls p (w : World) r w' :
  file_Close p w = (r, w') -> calls w `prefix_of` calls w'.
Proof.
  unfold file_Close. destruct (oscall _ w) as [f w1] eqn:E1. apply oscall_calls in E1.
  intros E. apply (prefix_snoc _ _ (CallFileClose p)). rewrite <- E1.
  simplify_eq; reflexivity.
Qed.

Lemma zw_CreateHeader_calls name zw (w : World) r w' :
  zw_CreateHeader name zw w = (r, w') -> calls w `prefix_of` calls w'.
Proof.
  unfold zw_CreateHeader. destruct (oscall _ w) as [f w1] eqn:E1. apply oscall_calls in E1.
  intros E. apply (prefix_snoc _ _ (CallCreateHeader name)). rewrite <- E1.
  repeat case_match; simplify_eq; reflexivity.
Qed.

Lemma io_Copy_calls src zw (w : World) r w' :
  io_Copy src zw w = (r, w') -> calls w `prefix_of` calls w'.
Proof.
  unfold io_Copy. destruct (oscall _ w) as [f w1] eqn:E1. apply oscall_calls in E1.
  intros E. apply (prefix_snoc _ _ CallCopy). rewrite <- E1.
  simplify_eq; reflexivity.
Qed.

Lemma zw_Close_calls zipPath zw (w : World) r w' :
  zw_Close zipPath zw w = (r, w') -> calls w `prefix_of` calls w'.
Proof.
  unfold zw_Close. destruct (oscall _ w) as [f w1] eqn:E1. apply oscall_calls in E1.
  intros E. apply (prefix_snoc _ _ CallZipClose). rewrite <- E1.
  simplify_eq; reflexivity.
Qed.

Lemma os_RemoveAll_calls p (w : World) : calls w `prefix_of` calls (os_RemoveAll p w).
Proof. unfold os_RemoveAll, set_fs, log_call. simpl. now apply prefix_app_r. Qed.

Lemma bulkItem_calls y baseDir maxArchiveBytes i it st (w : World) r w' :
  bulkItem y baseDir maxArchiveBytes i it st w = (r, w') -> calls w `prefix_of` calls w'.
Proof.
  unfold bulkItem. cbv zeta. intros E.
  assert (Hrm : forall v : World, calls v = calls w ++ [CallDownloadToFile (URL it)
                   (Join baseDir (finalNameFor (used st) i it))] ->
                 calls w `prefix_of` calls (os_RemoveAll baseDir v)).
  { intros v Hv. etrans; [|apply os_RemoveAll_calls]. rewrite Hv. now apply prefix_app_r. }
  repeat case_match; simplify_eq; try (apply Hrm; reflexivity).
  simpl. now apply prefix_app_r.
Qed.

Lemma bulkItems_calls y baseDir maxArchiveBytes :
  forall items i st (w : World) r w',
    bulkItems y baseDir maxArchiveBytes i items st w = (r, w') ->
    calls w `prefix_of` calls w'.
Proof.
  induction items as [|it rest IH]; intros i st w r w' E; simpl in E.
  - inversion E; subst. reflexivity.
  - destruct (bulkItem y baseDir maxArchiveBytes i it st w) as [r1 w1] eqn:E1.
    apply bulkItem_calls in E1.
    destruct r1 as [err|st1].
    + inversion E; subst. exact E1.
    + etrans; [exact E1|]. eapply IH, E.
Qed.

Lemma zipPaths_calls baseDir zipPath :
  forall ps zw (w : World) r w',
    zipPaths baseDir zipPath ps zw w = (r, w') -> calls w `prefix_of` calls w'.
Proof.
  induction ps as [|p rest IH]; intros zw w r w' E; simpl in E.
  - inversion E; subst. reflexivity.
  - destruct (zw_CreateHeader _ zw w) as [[e1 zw1] w1] eqn:E1.
    apply zw_CreateHeader_calls in E1. etrans; [exact E1|].
    destruct e1 as [err|].
    + destruct (zw_Close zipPath zw1 w1) as [? w2] eqn:E2. apply zw_Close_calls in E2.
      destruct (file_Close zipPath w2) as [? w3] eqn:E3. apply file_Close_calls in E3.
      inversion E; subst. etrans; [exact E2|]. etrans; [exact E3|]. apply os_RemoveAll_calls.
    + destruct (os_Open p w1) as [e2 w2] eqn:E2. apply os_Open_calls in E2.
      etrans; [exact E2|].
      destruct e2 as [err|].
      * destruct (zw_Close zipPath zw1 w2) as [? w3] eqn:E3. apply zw_Close_calls in E3.
        destruct (file_Close zipPath w3) as [? w4] eqn:E4. apply file_Close_calls in E4.
        inversion E; subst. etrans; [exact E3|]. etrans; [exact E4|]. apply os_RemoveAll_calls.
      * destruct (io_Copy (Some p) zw1 w2) as [zw3 w3] eqn:E3. apply io_Copy_calls in E3.
        destruct (file_Close p w3) as [? w4] eqn:E4. apply file_Close_calls in E4.
        etrans; [exact E3|]. etrans; [exact E4|]. eapply IH, E.
Qed.

(** Once past the free-space test, [BulkDownloadAndZip] calls
    [os.MkdirAll]: the log of the world it returns is longer. *)
Lemma BulkDownloadAndZip_past_gate (y : YandexDownloader) (items : list BulkItem)
    (categoryName id : gostring) (maxArchiveBytes minFreeBytes : Z)
    (w w' : World) r :
  items <> [] ->
  (Main.getFreeSpaceBytes windows (disk w) <? to_uint64 minFreeBytes) = false ->
  BulkDownloadAndZip (Some y) items categoryName maxArchiveBytes minFreeBytes id w
  = (r, w') ->
  (length (calls w) < length (calls w'))%nat.
Proof.
  intros Hit Hfree E. unfold BulkDownloadAndZip in E. cbv zeta in E.
  destruct items as [|it rest]; [congruence|]. rewrite Hfree in E.
  set (baseDir := Join TempDir (str "bulk_" ++ id)) in E.
  assert (Hlen : forall v : World,
            calls w ++ [CallMkdirAll baseDir] `prefix_of` calls v ->
            (length (calls w) < length (calls v))%nat).
  { intros v [t Ht]. rewrite Ht, !length_app. simpl. lia. }
  destruct (os_MkdirAll baseDir w) as [e1 w1] eqn:E1.
  assert (H1 : calls w1 = calls w ++ [CallMkdirAll baseDir]).
  { unfold os_MkdirAll in E1. destruct (oscall _ w) as [f v] eqn:Eo.
    apply oscall_calls in Eo. repeat case_match; simplify_eq; exact Eo. }
  apply Hlen. rewrite <- H1.
  destruct e1 as [err|]; [inversion E; subst; reflexivity|].
  destruct (bulkItems _ _ _ _ _ _ w1) as [r2 w2] eqn:E2. apply bulkItems_calls in E2.
  etrans; [exact E2|].
  destruct r2 as [err|st]; [inversion E; subst; reflexivity|].
  destruct (os_Create _ w2) as [e3 w3] eqn:E3. apply write_node_calls in E3.
  etrans; [exact E3|].
  destruct e3 as [err|]; [inversion E; subst; apply os_RemoveAll_calls|].
  destruct (zipPaths _ _ _ _ w3) as [[e4 zw] w4] eqn:E4. apply zipPaths_calls in E4.
  etrans; [exact E4|].
  destruct e4 as [err|]; [inversion E; subst; reflexivity|].
  destruct (zw_Close _ zw w4) as [e5 w5] eqn:E5. apply zw_Close_calls in E5.
  etrans; [exact E5|].
  destruct (file_Close _ w5) as [e6 w6] eqn:E6. apply file_Close_calls in E6.
  etrans; [exact E6|].
  destruct e5 as [err|]; [inversion E; subst; apply os_RemoveAll_calls|].
  destruct e6 as [err|]; inversion E; subst; [apply os_RemoveAll_calls|reflexivity].
Qed.

Lemma to_uint64_small x : 0 <= x <= max_uint64 -> to_uint64 x = x.
Proof. unfold to_uint64, max_uint64. intros Hx. apply Z.mod_small. lia. Qed.

(** C10. [getFreeSpaceBytes] returns the largest [uint64] on Windows and
    when [syscall.Statfs] fails. [BulkDownloadAndZip] rejects the batch at
    its free-space test, returning the not-enough-disk-space error and
    leaving the world untouched, exactly when it was given a downloader and
    a non-empty batch, the platform is not Windows, the probe succeeded, and
    the free space it reports ([Bavail * Bsize] as a [uint64]) is strictly
    below [uint64(minFreeBytes)], which is [minFreeBytes] itself for a
    non-negative value; a failed or unsupported probe therefore never
    rejects. *)
Theorem free_space_gate (yandex : option YandexDownloader) (items : list BulkItem)
    (categoryName id : gostring) (maxArchiveBytes minFreeBytes : Z) (w : World) :
  (forall st, Main.getFreeSpaceBytes true st = max_uint64) /\
  (forall win, Main.getFreeSpaceBytes win None = max_uint64) /\
  (BulkDownloadAndZip yandex items categoryName maxArchiveBytes minFreeBytes id w
   = (inl ErrNotEnoughDiskSpace, w)
   <->
   (exists y, yandex = Some y) /\ items <> [] /\ windows = false /\
   exists st, disk w = Some st /\
     to_uint64 (Main.Bavail st * to_uint64 (Main.Bsize st)) < to_uint64 minFreeBytes) /\
  (0 <= minFreeBytes <= max_int64 -> to_uint64 minFreeBytes = minFreeBytes).
Proof.
  split; [reflexivity|]. split; [intros []; reflexivity|]. split.
  - split.
    + intros E.
      destruct yandex as [y|]; [|destruct items; discriminate].
      destruct items as [|it rest] eqn:Eit; [discriminate|]. rewrite <- Eit in *.
      assert (Hit : items <> []) by (rewrite Eit; discriminate).
      destruct (Main.getFreeSpaceBytes windows (disk w) <? to_uint64 minFreeBytes) eqn:Ef.
      * split; [eauto|]. split; [exact Hit|].
        assert (Hmax : to_uint64 minFreeBytes <= max_uint64).
        { unfold to_uint64, max_uint64.
          pose proof (Z.mod_pos_bound minFreeBytes (2 ^ 64)). lia. }
        unfold Main.getFreeSpaceBytes in Ef. apply Z.ltb_lt in Ef.
        destruct windows; [lia|]. split; [reflexivity|].
        destruct (disk w) as [st|]; [|lia]. eauto.
      * apply BulkDownloadAndZip_past_gate in E; [lia|exact Hit|exact Ef].
    + intros ((y & ->) & Hit & Hw & st & Hd & Hlt).
      destruct items as [|it rest]; [congruence|].
      unfold BulkDownloadAndZip, Main.getFreeSpaceBytes. cbv zeta.
      rewrite Hw, Hd. apply Z.ltb_lt in Hlt. now rewrite Hlt.
  - intros Hm. apply to_uint64_small. unfold max_int64, max_uint64 in *. lia.
Qed.

End BuilderFacts.

Section BulkFacts.
Import Yandex Downloader.
Context {P : Platform} {F : Fetcher}.

Lemma assignNames_lookup (items : list BulkItem) :
  forall (i : Z) (used : gset gostring) (k : nat) it,
    items !! k = Some it ->
    assignNames i used items !! k =
    Some (finalNameFor (list_to_set (take k (assignNames i used items)) ∪ used)
                       (i + Z.of_nat k) it).
Proof.
  induction items as [|x rest IH]; intros i used k it Hk; [discriminate|].
  destruct k as [|k]; simpl in *.
  - inversion Hk; subst. f_equal. f_equal; [set_solver|lia].
  - rewrite (IH _ _ _ _ Hk). f_equal. f_equal; [set_solver|lia].
Qed.

(** The loop over a batch passes through the states of its prefixes. *)
Lemma bulkItems_app y baseDir maxArchiveBytes (xs ys : list BulkItem) :
  forall i st (w : World),
    bulkItems y baseDir maxArchiveBytes i (xs ++ ys) st w =
    match bulkItems y baseDir maxArchiveBytes i xs st w with
    | (inl err, w1) => (inl err, w1)
    | (inr st1, w1) =>
        bulkItems y baseDir maxArchiveBytes (i + Z.of_nat (length xs)) ys st1 w1
    end.
Proof.
  induction xs as [|x xs IH]; intros i st w; simpl.
  - now replace (i + Z.of_nat 0) with i by lia.
  - destruct (bulkItem y baseDir maxArchiveBytes i x st w) as [[err|st1] w1]; [reflexivity|].
    rewrite IH.
    now replace (i + 1 + Z.of_nat (length xs))
      with (i + Z.pos (Pos.of_succ_nat (length xs))) by lia.
Qed.

Context {L : FetcherLaws}.

(** One completed turn of the loop: the name is recorded as used, the file
    lies directly in the workspace under that name, and the workspace
    directory and its parent are still directories. *)
Lemma bulkItem_ok y baseDir maxArchiveBytes i it st (w : World) st' w' :
  is_dir (fs w) baseDir = true ->
  is_dir (fs w) (removelast baseDir) = true ->
  bulkItem y baseDir maxArchiveBytes i it st w = (inr st', w') ->
  let n := finalNameFor (used st) i it in
  used st' = {[n]} ∪ used st /\
  writtenPaths st' = writtenPaths st ++ [baseDir ++ [n]] /\
  Base (render (baseDir ++ [n])) = n /\
  is_dir (fs w') baseDir = true /\
  is_dir (fs w') (removelast baseDir) = true.
Proof.
  intros Hd Hp E n. unfold bulkItem in E. cbv zeta in E. fold n in E.
  destruct (DownloadToFile y (URL it) (Join baseDir n) _ _) as [[r m] d] eqn:Ed.
  simpl in Ed.
  destruct r as [err|sz]; [discriminate|].
  assert (Hdest : is_dir (fs w) (Join baseDir n) = false).
  { destruct (is_dir (fs w) (Join baseDir n)) eqn:Ei; [|reflexivity].
    destruct (download_onto_dir _ _ _ _ _ _ _ _ Ed Ei) as [e' He']. discriminate. }
  assert (Hn : Join baseDir n = baseDir ++ [n]).
  { apply Join_name.
    - apply finalNameFor_no_sep.
    - apply finalNameFor_nonempty.
    - intros En. rewrite En, Join_dot in Hdest. congruence.
    - intros En. rewrite En, Join_dotdot in Hdest. congruence. }
  destruct (wrap64 (total st + sz) >? maxArchiveBytes); [discriminate|].
  inversion E; subst; clear E. simpl. rewrite Hn.
  split; [reflexivity|]. split; [reflexivity|]. split.
  - apply Base_render_snoc; [apply finalNameFor_no_sep | apply finalNameFor_nonempty].
  - split; eapply download_keeps_dirs; eauto.
Qed.

Lemma bulkItems_ok y baseDir maxArchiveBytes (items : list BulkItem) :
  forall i st (w : World) st' w',
    is_dir (fs w) baseDir = true ->
    is_dir (fs w) (removelast baseDir) = true ->
    bulkItems y baseDir maxArchiveBytes i items st w = (inr st', w') ->
    let names := assignNames i (used st) items in
    used st' = list_to_set names ∪ used st /\
    writtenPaths st' = writtenPaths st ++ map (fun n => baseDir ++ [n]) names /\
    Forall (fun n => Base (render (baseDir ++ [n])) = n) names.
Proof.
  induction items as [|it rest IH]; intros i st w st' w' Hd Hp E; simpl in *.
  - inversion E; subst. split; [set_solver|]. split; [now rewrite app_nil_r|constructor].
  - destruct (bulkItem y baseDir maxArchiveBytes i it st w) as [[err|st1] w1] eqn:E1;
      [discriminate|].
    apply bulkItem_ok in E1 as (Hu & Hw & Hb & Hd1 & Hp1); [|assumption..].
    apply IH in E as (Hu' & Hw' & Hb'); [|assumption..].
    rewrite Hu in Hu', Hb'. rewrite Hu in Hw'. rewrite Hw in Hw'.
    split; [rewrite Hu'; set_solver|]. split.
    + rewrite Hw', <- app_assoc. reflexivity.
    + constructor; assumption.
Qed.

Lemma zipPaths_ok baseDir zipPath (ps : list path) :
  forall zw (w : World) zw' w',
    zipPaths baseDir zipPath ps zw w = (None, zw', w') ->
    map fst zw' = map fst zw ++ map (fun p => Base (render p)) ps /\ fs w' = fs w.
Proof.
  induction ps as [|p rest IH]; intros zw w zw' w' E; simpl in E.
  - inversion E; subst. now rewrite app_nil_r.
  - destruct (zw_CreateHeader (Base (render p)) zw w) as [[e1 zw1] w1] eqn:E1.
    apply zw_CreateHeader_spec in E1 as [Hf1 Hz1].
    destruct e1 as [err|].
    { destruct (zw_Close zipPath zw1 w1) as [? w2]. destruct (file_Close zipPath w2).
      discriminate. }
    specialize (Hz1 eq_refl). subst zw1.
    destruct (os_Open p w1) as [e2 w2] eqn:E2. apply os_Open_fs in E2.
    destruct e2 as [err|].
    { destruct (zw_Close zipPath _ w2) as [? w3]. destruct (file_Close zipPath w3).
      discriminate. }
    destruct (io_Copy (Some p) _ w2) as [zw3 w3] eqn:E3.
    apply io_Copy_spec in E3 as [Hf3 Hz3].
    destruct (file_Close p w3) as [e4 w4] eqn:E4. apply file_Close_fs in E4.
    apply IH in E as [Hz Hf]. split; [|congruence].
    rewrite Hz, Hz3, map_app. simpl. now rewrite <- app_assoc.
Qed.

Lemma map_Base_render (baseDir : path) (l : list gostring) :
  Forall (fun n => Base (render (baseDir ++ [n])) = n) l ->
  map (fun n => Base (render (baseDir ++ [n]))) l = l.
Proof. induction 1 as [|n l Hn _ IH]; simpl; [reflexivity|]. now rewrite Hn, IH. Qed.

Lemma TrimSuffix_nil s : TrimSuffix s [] = s.
Proof.
  unfold TrimSuffix, HasSuffix. simpl.
  replace (HasPrefix (rev s) []) with true by (now destruct (rev s)).
  simpl. rewrite Nat.sub_0_r. apply firstn_all.
Qed.

(** C9. After each completed turn of the loop over the items (for every
    list [processed] of items that the loop has gone through without
    error; by [bulkItems_app] the loop over a batch passes through the
    states of its prefixes): the names given so far are exactly the set
    [used]; each file lies directly in the workspace under its name, and the
    base name of its path, which is the name of its archive entry, is that
    name; the names are pairwise distinct and none is empty. An item whose
    sanitized file name is empty has the base [file_<index>]; its name is
    that base, or that base with a counter when the base is already in
    use. *)
Theorem bulk_names_invariant (y : YandexDownloader) (baseDir : path)
    (maxArchiveBytes : Z) (processed : list BulkItem) (w w' : World) (st : LoopState) :
  is_dir (fs w) baseDir = true ->
  is_dir (fs w) (removelast baseDir) = true ->
  bulkItems y baseDir maxArchiveBytes 0 processed
    {| used := ∅; writtenPaths := []; total := 0 |} w = (inr st, w') ->
  let names := assignNames 0 ∅ processed in
  used st = list_to_set names /\
  writtenPaths st = map (fun n => baseDir ++ [n]) names /\
  map (fun p => Base (render p)) (writtenPaths st) = names /\
  NoDup names /\
  ([] ∉ names) /\
  (forall (k : nat) it,
     processed !! k = Some it ->
     sanitizeBulkFilename (Filename it) = [] ->
     baseFor (Z.of_nat k) it = str "file_" ++ Itoa (Z.of_nat k) /\
     exists n, names !! k = Some n /\
       (n = str "file_" ++ Itoa (Z.of_nat k) \/
        exists c, 1 <= c /\ n = (str "file_" ++ Itoa (Z.of_nat k)) ++ str "_" ++ Itoa c)).
Proof.
  intros Hd Hp E names.
  apply bulkItems_ok in E as (Hu & Hw & Hb); [|assumption..].
  simpl in Hu, Hw, Hb. fold names in Hu, Hw, Hb.
  split; [rewrite Hu; set_solver|]. split; [exact Hw|]. split.
  { rewrite Hw, map_map. now apply map_Base_render. }
  split; [apply assignNames_NoDup|]. split; [apply assignNames_nonempty|].
  intros k it Hk Hs.
  assert (Hbase : baseFor (Z.of_nat k) it = str "file_" ++ Itoa (Z.of_nat k)).
  { unfold baseFor. now rewrite Hs. }
  split; [exact Hbase|].
  pose proof (assignNames_lookup processed 0 ∅ k it Hk) as Hl. fold names in Hl.
  change (0 + Z.of_nat k) with (Z.of_nat k) in Hl.
  eexists. split; [exact Hl|].
  destruct (finalNameFor_spec (list_to_set (take k names) ∪ ∅) (Z.of_nat k) it)
    as [[_ En] | (_ & c & Hc & En & _)]; rewrite En, Hbase.
  - now left.
  - right. exists c. split; [exact Hc|].
    rewrite fallback_Ext, TrimSuffix_nil. reflexivity.
Qed.

(** C4, as amended. When [BulkDownloadAndZip] succeeds for a batch of N
    items, the archive is complete and holds exactly N entries, the k-th of
    them named with the name given to the k-th item; the names are pairwise
    distinct. An item keeps its sanitized name when no earlier item of the
    batch was given that name; otherwise it gets the name with a counter
    before the extension, the least counter from 1 on whose name no earlier
    item was given. *)
Theorem BulkDownloadAndZip_entries (yandex : option YandexDownloader)
    (items : list BulkItem) (categoryName id : gostring)
    (maxArchiveBytes minFreeBytes : Z) (w w' : World) (zipPath bulkDir : path) :
  BulkDownloadAndZip yandex items categoryName maxArchiveBytes minFreeBytes id w
  = (inr (zipPath, bulkDir), w') ->
  let names := assignNames 0 ∅ items in
  (exists es, fs w' !! zipPath = Some (Archive es true) /\ map fst es = names) /\
  length names = length items /\
  NoDup names /\
  (forall (k : nat) it,
     items !! k = Some it ->
     let base := baseFor (Z.of_nat k) it in
     let ext := Ext base in
     let stem := TrimSuffix base ext in
     let earlier := take k names in
     exists n, names !! k = Some n /\ stem ++ ext = base /\
       (((base ∉ earlier) /\ n = base) \/
        ((base ∈ earlier) /\
         exists c, 1 <= c /\ n = suffixed stem ext c /\
                   forall j, 1 <= j < c -> suffixed stem ext j ∈ earlier))).
Proof.
  intros E names. split; [|split; [apply assignNames_length|split; [apply assignNames_NoDup|]]].
  - unfold BulkDownloadAndZip in E. cbv zeta in E.
    destruct yandex as [y|]; [|discriminate].
    destruct items as [|it0 rest0]; [discriminate|].
    destruct (_ <? _); [discriminate|].
    set (baseDir := Join TempDir (str "bulk_" ++ id)) in E.
    destruct (os_MkdirAll baseDir w) as [e1 w1] eqn:E1.
    destruct e1 as [err|]; [discriminate|].
    apply os_MkdirAll_ok in E1 as (Hd & Hp & _).
    destruct (bulkItems _ _ _ _ _ _ w1) as [r w2] eqn:E2.
    destruct r as [err|st]; [discriminate|].
    apply bulkItems_ok in E2 as (_ & Hw & Hb); [|assumption..].
    cbn [used writtenPaths app] in Hw, Hb. fold names in Hw, Hb.
    destruct (os_Create _ w2) as [e3 w3] eqn:E3.
    destruct e3 as [err|]; [discriminate|].
    destruct (zipPaths _ _ _ _ w3) as [[e4 zw] w4] eqn:E4.
    destruct e4 as [err|]; [discriminate|].
    apply zipPaths_ok in E4 as [Hz _].
    destruct (zw_Close _ zw w4) as [e5 w5] eqn:E5.
    apply zw_Close_spec in E5 as (ok & Hfs & Hok).
    destruct e5 as [err|]; [destruct (file_Close _ w5); discriminate|].
    rewrite (Hok eq_refl) in Hfs.
    destruct (file_Close _ w5) as [e6 w6] eqn:E6. apply file_Close_fs in E6.
    destruct e6 as [err|]; [discriminate|].
    inversion E; subst zipPath bulkDir w'; clear E.
    exists zw. split; [rewrite E6, Hfs; apply lookup_insert_eq|].
    rewrite Hz, Hw, map_map. cbn [map app]. now apply map_Base_render.
  - intros k it Hk base ext stem earlier.
    pose proof (assignNames_lookup items 0 ∅ k it Hk) as Hl. fold names in Hl.
    change (0 + Z.of_nat k) with (Z.of_nat k) in Hl.
    eexists. split; [exact Hl|]. split; [apply stem_ext|].
    pose proof (finalNameFor_spec (list_to_set (take k names) ∪ ∅) (Z.of_nat k) it) as Hs.
    cbv zeta in Hs. subst base ext stem. fold earlier in Hs.
    destruct Hs as [[Hout En] | (Hin & c & Hc & En & _ & Hlt)].
    + left. split; [|exact En]. set_solver.
    + right. split; [set_solver|].
      exists c. split; [exact Hc|]. split; [exact En|].
      intros j Hj. specialize (Hlt j Hj). set_solver.
Qed.

End BulkFacts.

(** ** The cleanup worker of [main.go] *)

Section JanitorFacts.
Import Main.

(** Saturation does not change the comparison with the retention window. *)
Lemma Sub_window now mtime : cleanupMaxAge <= Sub now mtime <-> cleanupMaxAge <= now - mtime.
Proof.
  unfold Sub, cleanupMaxAge, Minute, max_int64, min_int64.
  destruct (Z.gtb_spec (now - mtime) (2 ^ 63 - 1)); [lia|].
  destruct (Z.ltb_spec (now - mtime) (- 2 ^ 63)); lia.
Qed.

Lemma sweepEntry_spec dir now e r :
  sweepEntry dir now e = Some r <->
  exists mtime,
    ModTime e = Some mtime /\ cleanupMaxAge <= now - mtime /\
    ((IsDir e = true /\
      (HasPrefix (Name e) (str "bulk_") = true \/ HasPrefix (Name e) (str "single_") = true) /\
      r = RemoveAll (Join dir (Name e))) \/
     (IsDir e = false /\ HasPrefix (Name e) (str "bugchat-") = true /\
      r = Remove (Join dir (Name e)))).
Proof.
  unfold sweepEntry. cbv zeta.
  destruct (IsDir e).
  - destruct (HasPrefix (Name e) (str "bulk_") || HasPrefix (Name e) (str "single_")) eqn:Ep.
    + apply orb_true_iff in Ep.
      destruct (ModTime e) as [mtime|].
      * destruct (Z.geb_spec (Sub now mtime) cleanupMaxAge) as [Hge|Hlt].
        -- apply Sub_window in Hge. split.
           ++ intros E. inversion E; subst. exists mtime. auto 10.
           ++ intros (m & Em & _ & [(_ & _ & ->) | (? & _)]); [reflexivity|discriminate].
        -- split; [discriminate|].
           intros (m & Em & Hm & _). inversion Em; subst.
           apply Sub_window in Hm. lia.
      * split; [discriminate|]. intros (m & Em & _). discriminate.
    + apply orb_false_iff in Ep as [E1 E2]. split; [discriminate|].
      intros (m & _ & _ & [(_ & [H|H] & _) | (? & _)]); congruence.
  - destruct (HasPrefix (Name e) (str "bugchat-")) eqn:Ep; simpl.
    + destruct (ModTime e) as [mtime|].
      * destruct (Z.ltb_spec (Sub now mtime) cleanupMaxAge) as [Hlt|Hge].
        -- split; [discriminate|].
           intros (m & Em & Hm & _). inversion Em; subst.
           apply Sub_window in Hm. lia.
        -- apply Sub_window in Hge. split.
           ++ intros E. inversion E; subst. exists mtime. auto 10.
           ++ intros (m & Em & _ & [(? & _) | (_ & _ & ->)]); [discriminate|reflexivity].
      * split; [discriminate|]. intros (m & Em & _). discriminate.
    + split; [discriminate|].
      intros (m & _ & _ & [(? & _) | (_ & ? & _)]); discriminate.
Qed.

(** C6. The worker removes an entry exactly when a tick lists it and the
    loop body removes it, and the loop body removes an entry exactly when
    its modification time can be read, its age at the tick is at least the
    30 minutes of [cleanupMaxAge], and it is a directory whose name starts
    with [bulk_] or [single_] (removed with [os.RemoveAll]) or a file whose
    name starts with [bugchat-] (removed with [os.Remove]). So nothing else
    is removed, an entry younger than the window is never removed, and a
    matching entry that has reached the window is removed by the first
    sweep that lists it. *)
Theorem cleanup_sweep (dir : path) (ticks : list (option (list DirEntry) * Z)) :
  (forall r,
     r ∈ StartCleanupWorker dir ticks <->
     exists entries now e,
       ((Some entries, now) ∈ ticks) /\ (e ∈ entries) /\ sweepEntry dir now e = Some r) /\
  (forall now e r,
     sweepEntry dir now e = Some r <->
     exists mtime,
       ModTime e = Some mtime /\ cleanupMaxAge <= now - mtime /\
       ((IsDir e = true /\
         (HasPrefix (Name e) (str "bulk_") = true \/
          HasPrefix (Name e) (str "single_") = true) /\
         r = RemoveAll (Join dir (Name e))) \/
        (IsDir e = false /\ HasPrefix (Name e) (str "bugchat-") = true /\
         r = Remove (Join dir (Name e))))) /\
  cleanupMaxAge = 30 * 60 * 1000000000.
Proof.
  split; [|split; [apply sweepEntry_spec | reflexivity]].
  intros r. unfold StartCleanupWorker. rewrite list_elem_of_In, in_flat_map. split.
  - intros ([rd now] & Ht & Hr). simpl in Hr.
    destruct rd as [entries|]; [|destruct Hr].
    apply list_elem_of_In, list_elem_of_omap in Hr as (e & He & Hs).
    exists entries, now, e. split; [now apply list_elem_of_In|]. auto.
  - intros (entries & now & e & Ht & He & Hs).
    exists (Some entries, now). split; [now apply list_elem_of_In|].
    simpl. apply list_elem_of_In, list_elem_of_omap. eauto.
Qed.

End JanitorFacts.

(** ** Link resolution and the download round trips *)

Ltac split_tests :=
  repeat match goal with
         | H : _ && _ = true |- _ => apply andb_prop in H as [? ?]
         | H : negb _ = true |- _ => apply negb_true_iff in H
         end.

Section LinkFacts.
Import Yandex.
Context {T : Transport}.

Lemma NewRequest_error m url e : NewRequest m url = inl e -> e = ErrNewRequest url.
Proof. unfold NewRequest. destruct (url_parses url); congruence. Qed.

Lemma NewRequest_inr m url req : NewRequest m url = inr req -> req = mkRequest m url.
Proof. unfold NewRequest. destruct (url_parses url); congruence. Qed.

Lemma Do_error req w e w' : Do req w = (inl e, w') -> exists c, e = ErrTransport c.
Proof.
  unfold Do. destruct (client_Do req (net w)) as [[c|resp] st]; intros E; inversion E; eauto.
Qed.

Lemma ReadAllLimit_error b n w e w' :
  ReadAllLimit b n w = (inl e, w') -> exists c, e = ErrRead c.
Proof.
  unfold ReadAllLimit. intros E. repeat case_match; simplify_eq; eauto.
Qed.

(** An error handed up from the libraries is not a sentinel of the
    program. *)
Ltac wire :=
  match goal with
  | H : NewRequest _ _ = inl _ |- _ => apply NewRequest_error in H; subst; discriminate
  | H : Do _ _ = (inl _, _) |- _ => apply Do_error in H as [? ->]; discriminate
  | H : ReadAllLimit _ _ _ = (inl _, _) |- _ =>
      apply ReadAllLimit_error in H as [? ->]; discriminate
  | |- _ => discriminate
  end.

Lemma downloadByURL_not_sentinel y url w e w' :
  downloadByURL y url w = (inl e, w') -> e <> ErrNotYandexDisk.
Proof.
  unfold downloadByURL. intros E.
  destruct (NewRequest MethodHead url) as [e0|req] eqn:Eq; [simplify_eq; wire|].
  destruct (Do req w) as [[e1|resp] w1] eqn:E1; [simplify_eq; wire|].
  destruct (negb _ && negb _); [simplify_eq; wire|].
  destruct (_ && _); [simplify_eq; wire|].
  destruct (NewRequest MethodGet url) as [e0|reqGet] eqn:Eq2; [simplify_eq; wire|].
  destruct (Do reqGet w1) as [[e2|respGet] w2] eqn:E2; [simplify_eq; wire|].
  destruct (negb _); [simplify_eq; wire|].
  destruct (_ && _); [simplify_eq; wire|].
  destruct (ReadAllLimit _ _ w2) as [[e3|data] w3] eqn:E3; [simplify_eq; wire|].
  destruct (_ >? _); simplify_eq; wire.
Qed.

Lemma GetDirectURL_not_sentinel y s w e w' :
  GetDirectURL y s w = (inl e, w') -> e <> ErrNotYandexDisk.
Proof.
  unfold GetDirectURL. intros E.
  destruct (is_empty _); [simplify_eq; wire|].
  destruct (negb _); [simplify_eq|].
  destruct (NewRequest _ _) as [e0|req] eqn:Eq; [simplify_eq; wire|].
  destruct (Do req w) as [[e1|resp] w1] eqn:E1; [simplify_eq; wire|].
  destruct (_ && _); [simplify_eq|].
  destruct (ReadAllLimit _ _ w1) as [[e3|body] w3] eqn:E3; [simplify_eq; wire|].
  destruct (negb _); [simplify_eq|].
  destruct (getDirectViaCloudAPI _ _ _) as [href w4].
  destruct (negb _); simplify_eq; wire.
Qed.

Lemma GetFile_not_sentinel y s w e w' :
  isYandexDiskURL (TrimSpace s) = true ->
  GetFile y s w = (inl e, w') -> e <> ErrNotYandexDisk.
Proof.
  unfold GetFile. intros -> E. cbn [negb] in E.
  destruct (NewRequest _ _) as [e0|req] eqn:Eq; [simplify_eq; wire|].
  destruct (Do req w) as [[e1|resp] w1] eqn:E1; [simplify_eq; wire|].
  destruct (_ && _); [now apply downloadByURL_not_sentinel in E|].
  destruct (ReadAllLimit _ _ w1) as [[e3|body] w3] eqn:E3; [simplify_eq; wire|].
  destruct (is_empty _); [|now apply downloadByURL_not_sentinel in E].
  destruct (getDirectViaCloudAPI _ _ _) as [href w4].
  destruct (negb _); [now apply downloadByURL_not_sentinel in E|simplify_eq; wire].
Qed.

Lemma GetFileSize_not_sentinel y s w e w' :
  isYandexDiskURL (TrimSpace s) = true ->
  GetFileSize y s w = (inl e, w') -> e <> ErrNotYandexDisk.
Proof.
  unfold GetFileSize. intros -> E. cbn [negb] in E.
  destruct (is_empty _); [simplify_eq; wire|].
  destruct (GetDirectURL _ _ _) as [[e0|direct] w1] eqn:Ed.
  { apply GetDirectURL_not_sentinel in Ed. now simplify_eq. }
  destruct (NewRequest _ _) as [e0|req] eqn:Eq; [simplify_eq; wire|].
  destruct (Do req w1) as [[e1|resp] w2] eqn:E1; [simplify_eq; wire|].
  destruct (negb _ && negb _); [simplify_eq; wire|].
  destruct (_ >=? _); simplify_eq.
Qed.

Lemma GetFile_sentinel (y : YandexDownloader) (s : gostring) (w : World) :
  fst (GetFile y s w) = inl ErrNotYandexDisk <-> isYandexDiskURL (TrimSpace s) = false.
Proof.
  split.
  - destruct (isYandexDiskURL (TrimSpace s)) eqn:Ey; [|reflexivity].
    destruct (GetFile y s w) as [[e|v] w'] eqn:E; [|discriminate].
    apply GetFile_not_sentinel in E; [|exact Ey]. simpl. congruence.
  - intros Ey. unfold GetFile. now rewrite Ey.
Qed.

Lemma GetFileSize_sentinel (y : YandexDownloader) (s : gostring) (w : World) :
  fst (GetFileSize y s w) = inl ErrNotYandexDisk <->
  TrimSpace s <> [] /\ isYandexDiskURL (TrimSpace s) = false.
Proof.
  split.
  - destruct (isYandexDiskURL (TrimSpace s)) eqn:Ey.
    + destruct (GetFileSize y s w) as [[e|v] w'] eqn:E; [|discriminate].
      apply GetFileSize_not_sentinel in E; [|exact Ey]. simpl. congruence.
    + unfold GetFileSize. destruct (is_empty (TrimSpace s)) eqn:Ee; [discriminate|].
      apply is_empty_false in Ee. auto.
  - intros [Hne Ey]. unfold GetFileSize. apply is_empty_false in Hne. now rewrite Hne, Ey.
Qed.

(** X1. [GetFile] answers with the sentinel [ErrNotYandexDisk] exactly
    when the trimmed link contains neither [disk.yandex.ru] nor
    [disk.yandex.com], and [GetFileSize] exactly when the trimmed link is,
    besides, not empty (the empty link has an error of its own); no other
    failure of the two, on any response of the network, is this sentinel.
    When it is returned the world is as before: no request was made. *)
Theorem ErrNotYandexDisk_iff (y : YandexDownloader) (s : gostring) (w : World) :
  (fst (GetFile y s w) = inl ErrNotYandexDisk <-> isYandexDiskURL (TrimSpace s) = false) /\
  (fst (GetFileSize y s w) = inl ErrNotYandexDisk <->
   TrimSpace s <> [] /\ isYandexDiskURL (TrimSpace s) = false) /\
  (fst (GetFile y s w) = inl ErrNotYandexDisk -> snd (GetFile y s w) = w) /\
  (fst (GetFileSize y s w) = inl ErrNotYandexDisk -> snd (GetFileSize y s w) = w).
Proof.
  split; [apply GetFile_sentinel|]. split; [apply GetFileSize_sentinel|]. split.
  - intros E. apply GetFile_sentinel in E. unfold GetFile. now rewrite E.
  - intros E. apply GetFileSize_sentinel in E as [Hne Ey]. unfold GetFileSize.
    apply is_empty_false in Hne. now rewrite Hne, Ey.
Qed.

(** X2. A direct URL that [GetDirectURL] returns without error is never
    the empty string, whichever of its four sources it comes from: the
    trimmed input, the [Location] header, the page body or the cloud API. *)
Theorem GetDirectURL_nonempty (y : YandexDownloader) (s : gostring) (w w' : World)
    (direct : gostring) :
  GetDirectURL y s w = (inr direct, w') -> direct <> [].
Proof.
  unfold GetDirectURL. intros E.
  repeat case_match; simplify_eq; split_tests; now apply is_empty_false.
Qed.

(** X3. The traffic of [downloadByURL] is a prefix of: the HEAD request
    for the address, the GET request for the same address, one read of the
    GET body. A GET is never sent before the HEAD came back, and a success
    made all three steps. *)
Theorem downloadByURL_traffic (y : YandexDownloader) (url : gostring) (w w' : World)
    (r : result (list byte * gostring)) :
  downloadByURL y url w = (r, w') ->
  exists evs n,
    log w' = log w ++ evs /\
    evs `prefix_of` [EvDo (mkRequest MethodHead url); EvDo (mkRequest MethodGet url);
                     EvRead n] /\
    ((exists v, r = inr v) -> length evs = 3%nat).
Proof.
  unfold downloadByURL. intros E.
  pose (h := EvDo (mkRequest MethodHead url)). pose (g := EvDo (mkRequest MethodGet url)).
  assert (H0 : forall e, r = inl e -> w' = w -> exists evs n,
               log w' = log w ++ evs /\ evs `prefix_of` [h; g; EvRead n] /\
               ((exists v, r = inr v) -> length evs = 3%nat)).
  { intros e -> ->. exists [], 0%nat. rewrite app_nil_r.
    repeat split; [apply prefix_nil|]. intros [v Hv]. discriminate. }
  destruct (NewRequest MethodHead url) as [e|req] eqn:Eq; [simplify_eq; eauto|].
  apply NewRequest_inr in Eq as ->.
  destruct (Do _ w) as [r1 w1] eqn:E1. apply Do_log in E1.
  assert (H1 : forall e, r = inl e -> w' = w1 -> exists evs n,
               log w' = log w ++ evs /\ evs `prefix_of` [h; g; EvRead n] /\
               ((exists v, r = inr v) -> length evs = 3%nat)).
  { intros e -> ->. exists [h], 0%nat. rewrite E1.
    repeat split; [now exists [g; EvRead 0%nat]|]. intros [v Hv]. discriminate. }
  destruct r1 as [e|resp]; [simplify_eq; eauto|].
  destruct (negb (StatusCode resp =? StatusOK) && negb (StatusCode resp =? StatusFound));
    [simplify_eq; eauto|].
  destruct ((ContentLength resp >? 0) && (ContentLength resp >? maxSize y));
    [simplify_eq; eauto|].
  destruct (NewRequest MethodGet url) as [e|reqGet] eqn:Eq; [simplify_eq; eauto|].
  apply NewRequest_inr in Eq as ->.
  destruct (Do _ w1) as [r2 w2] eqn:E2. apply Do_log in E2.
  assert (H2 : forall e, r = inl e -> w' = w2 -> exists evs n,
               log w' = log w ++ evs /\ evs `prefix_of` [h; g; EvRead n] /\
               ((exists v, r = inr v) -> length evs = 3%nat)).
  { intros e -> ->. exists [h; g], 0%nat. rewrite E2, E1, <- app_assoc.
    repeat split; [now exists [EvRead 0%nat]|]. intros [v Hv]. discriminate. }
  destruct r2 as [e|respGet]; [simplify_eq; eauto|].
  destruct (negb (StatusCode respGet =? StatusOK)); [simplify_eq; eauto|].
  destruct ((ContentLength respGet >? 0) && (ContentLength respGet >? maxSize y));
    [simplify_eq; eauto|].
  destruct (ReadAllLimit _ _ w2) as [rb w3] eqn:E3.
  apply ReadAllLimit_log in E3 as (_ & k & E3 & _).
  assert (w' = w3) as ->
    by (destruct rb as [e|data]; [|destruct (Z.of_nat (length data) >? maxSize y)];
        simplify_eq; reflexivity).
  exists [h; g; EvRead k], k. rewrite E3, E2, E1, <- !app_assoc.
  repeat split; reflexivity.
Qed.

Lemma downloadByURL_filename y url w data name w' :
  downloadByURL y url w = (inr (data, name), w') ->
  exists cd, name = dispositionFilename cd.
Proof.
  unfold downloadByURL. intros E.
  destruct (NewRequest MethodHead url) as [e0|req]; [discriminate|].
  destruct (Do req w) as [[e1|resp] w1]; [discriminate|].
  destruct (negb _ && negb _); [discriminate|].
  destruct (_ && _); [discriminate|].
  destruct (NewRequest MethodGet url) as [e0|reqGet]; [discriminate|].
  destruct (Do reqGet w1) as [[e2|respGet] w2]; [discriminate|].
  destruct (negb _); [discriminate|].
  destruct (_ && _); [discriminate|].
  destruct (ReadAllLimit _ _ w2) as [[e3|d] w3]; [discriminate|].
  destruct (_ >? _); simplify_eq. eauto.
Qed.

Lemma IndexAny_pos s chars : IndexAny s chars > 0 -> s <> [].
Proof. destruct s; simpl; [lia|congruence]. Qed.

Lemma dispositionFilename_nonempty cd : dispositionFilename cd <> [].
Proof.
  unfold dispositionFilename.
  destruct (negb (is_empty cd)); [|discriminate].
  destruct (Index cd (str "filename=") >=? 0); [|discriminate].
  set (s := Trim _ _).
  destruct (IndexAny s [59; 32; 9; 10] >? 0) eqn:Ei.
  - assert (Hs : s <> []) by (apply (IndexAny_pos s [59; 32; 9; 10]); lia).
    unfold slice_to.
    destruct (Z.to_nat (IndexAny s [59; 32; 9; 10])) as [|n] eqn:En; [lia|].
    destruct s as [|c t]; [congruence|]. discriminate.
  - destruct (negb (is_empty s)) eqn:Es; [|discriminate].
    split_tests. now apply is_empty_false.
Qed.

(** X4. The file name that comes with downloaded data is never empty:
    whatever the [Content-Disposition] header holds, the name read off it is
    not empty ([document] stands in), and so is the name that a successful
    [downloadByURL] or [GetFile] returns. *)
Theorem download_filename_nonempty (y : YandexDownloader) :
  (forall cd, dispositionFilename cd <> []) /\
  (forall url w data name w',
     downloadByURL y url w = (inr (data, name), w') -> name <> []) /\
  (forall s w data name w',
     GetFile y s w = (inr (data, name), w') -> name <> []).
Proof.
  split; [apply dispositionFilename_nonempty|]. split.
  - intros url w data name w' E. apply downloadByURL_filename in E as [cd ->].
    apply dispositionFilename_nonempty.
  - intros s w data name w' E.
    apply GetFile_cases in E as [[e E] | (u & w1 & E)]; [discriminate|].
    apply downloadByURL_filename in E as [cd ->]. apply dispositionFilename_nonempty.
Qed.

End LinkFacts.

(** ** The pattern of a direct link *)

Section PatternFacts.
Import Yandex.

Lemma span_eq f s a b :
  span f s = (a, b) ->
  s = a ++ b /\ Forall (fun c => f c = true) a /\
  match b with [] => True | c :: _ => f c = false end.
Proof.
  revert a b. induction s as [|c t IH]; intros a b; simpl.
  - intros [= <- <-]. auto.
  - destruct (f c) eqn:Ec.
    + destruct (span f t) as [a0 b0]. intros [= <- <-].
      destruct (IH a0 b0 eq_refl) as (-> & Ha & Hb). auto.
    + intros [= <- <-]. auto.
Qed.

Lemma HasPrefix_true s p : HasPrefix s p = true -> exists t, s = p ++ t.
Proof.
  revert s. induction p as [|c p IH]; intros s; simpl; [eauto|].
  destruct s as [|d s]; [discriminate|].
  intros E. apply andb_prop in E as [Ec E]. apply Z.eqb_eq in Ec as ->.
  destruct (IH _ E) as [t ->]. eauto.
Qed.

Lemma host_is_path r : re_host_class r = true -> re_path_class r = true.
Proof. unfold re_host_class, re_path_class, rune_in. simpl. lia. Qed.

Lemma reDirectURL_match_here_spec s m :
  reDirectURL_match_here s = Some m ->
  exists host path rest,
    s = m ++ rest /\ m = re_prefix ++ host ++ re_disk ++ path /\
    host <> [] /\ path <> [] /\
    Forall (fun c => re_host_class c = true) host /\
    Forall (fun c => re_path_class c = true) path /\
    match rest with [] => True | c :: _ => re_path_class c = false end.
Proof.
  unfold reDirectURL_match_here.
  destruct (HasPrefix s re_prefix) eqn:Ep; [|discriminate].
  apply HasPrefix_true in Ep as [t ->]. rewrite drop_app_length.
  destruct (span re_host_class t) as [host rest] eqn:Eh.
  apply span_eq in Eh as (-> & Hhost & _).
  destruct (is_empty host) eqn:Ee; [discriminate|]. apply is_empty_false in Ee.
  destruct (HasPrefix rest re_disk) eqn:Ed; [|discriminate].
  apply HasPrefix_true in Ed as [t ->]. rewrite drop_app_length.
  destruct (span re_path_class t) as [path tl] eqn:Et.
  apply span_eq in Et as (-> & Hpath & Htl).
  destruct (is_empty path) eqn:Ee2; [discriminate|]. apply is_empty_false in Ee2.
  intros E. assert (Hm : m = re_prefix ++ host ++ re_disk ++ path) by congruence.
  clear E. subst m. exists host, path, tl.
  split; [now rewrite <- !app_assoc|]. repeat split; auto.
Qed.

(** X5. What [reDirectURL.FindString] returns is empty or a match of the
    pattern inside the text: a substring of the text that is the literal
    prefix, a non-empty run of lower-case letters and dots, the literal
    [/disk/] and a non-empty path; it holds no quote, white space or angle
    bracket, and the match is not cut short: the text ends after it or
    goes on with one of these characters. *)
Theorem reDirectURL_FindString_shape (s : gostring) :
  reDirectURL_FindString s = [] \/
  exists before host path rest,
    s = before ++ reDirectURL_FindString s ++ rest /\
    reDirectURL_FindString s = re_prefix ++ host ++ re_disk ++ path /\
    host <> [] /\ path <> [] /\
    Forall (fun c => re_host_class c = true) host /\
    Forall (fun c => re_path_class c = true) (reDirectURL_FindString s) /\
    match rest with [] => True | c :: _ => re_path_class c = false end.
Proof.
  induction s as [|c t IH].
  - left. reflexivity.
  - cbn [reDirectURL_FindString].
    destruct (reDirectURL_match_here (c :: t)) as [m|] eqn:Em.
    + right. apply reDirectURL_match_here_spec in Em
        as (host & path & rest & Es & Hm & Hh & Hp & Fh & Fp & Hr).
      exists [], host, path, rest. repeat split; auto.
      rewrite Hm. repeat apply Forall_app_2; auto.
      * unfold re_prefix. repeat constructor.
      * eapply Forall_impl; [exact Fh|]. apply host_is_path.
      * unfold re_disk. repeat constructor.
    + destruct IH as [IH | (before & host & path & rest & Es & IH)]; [now left|].
      right. exists (c :: before), host, path, rest. split; [|exact IH].
      simpl. now f_equal.
Qed.

End PatternFacts.

(** ** The workspace of the single-file builder *)

Section WorkspaceFacts.
Import Yandex Downloader.
Context {P : Platform} {F : Fetcher}.

Ltac chase_fs :=
  repeat match goal with
         | H : fs _ !! _ = fs _ !! _ |- _ => rewrite H; clear H
         | H : fs _ = fs _ |- _ => rewrite H; clear H
         end; reflexivity.


Lemma removelast_prefix {A} (l : list A) : removelast l `prefix_of` l.
Proof. rewrite removelast_take. apply prefix_take. Qed.

Lemma Join_chain dir n : (sep ∈ n -> n = [sep]) -> chain dir (Join dir n).
Proof.
  intros Hn. destruct (decide (sep ∈ n)) as [Hin|Hnin].
  - rewrite (Hn Hin), Join_sep. now left.
  - unfold Join. rewrite (split_sep_no_sep _ Hnin). simpl. unfold push_elem.
    destruct (is_empty n || streq n (str ".")); [now left|].
    destruct (streq n (str "..")); [right; apply removelast_prefix|].
    left. now apply prefix_app_r.
Qed.

Lemma Base_or_default_sep s d :
  sep ∉ d ->
  let n := if is_empty (Base s) || streq (Base s) (str ".") then d else Base s in
  sep ∈ n -> n = [sep].
Proof.
  intros Hd n. unfold n. destruct (is_empty (Base s) || streq (Base s) (str ".")).
  - intros Hin. now apply Hd in Hin.
  - apply Base_sep.
Qed.

Lemma foldr_insert_Dir_ne (l : list path) (m : gmap path node) q :
  q ∉ l -> foldr (fun q m => <[q := Dir]> m) m l !! q = m !! q.
Proof.
  induction l as [|x l IH]; intros Hq; [reflexivity|].
  apply not_elem_of_cons in Hq as [Hne Hq]. simpl.
  rewrite lookup_insert_ne by congruence. now apply IH.
Qed.

Lemma prefixes_prefix (p q : path) : q ∈ prefixes p -> q `prefix_of` p.
Proof.
  unfold prefixes. intros Hq. apply list_elem_of_fmap in Hq as (n & -> & _).
  apply prefix_take.
Qed.

Lemma os_MkdirAll_frame (p : path) (w : World) r w' (q : path) :
  os_MkdirAll p w = (r, w') -> ~ q `prefix_of` p -> fs w' !! q = fs w !! q.
Proof.
  unfold os_MkdirAll. destruct (oscall_spec (CallMkdirAll p) w) as (f & fl & ->).
  intros E Hq. destruct f as [c|]; [now inversion E|]. simpl in E.
  destruct (forallb _ _); inversion E; subst; simpl; [|reflexivity].
  apply foldr_insert_Dir_ne. intros Hin. now apply prefixes_prefix in Hin.
Qed.

Lemma write_node_frame c (p : path) n (w : World) r w' (q : path) :
  write_node c p n w = (r, w') -> q <> p -> fs w' !! q = fs w !! q.
Proof.
  unfold write_node. destruct (oscall_spec c w) as (f & fl & ->).
  intros E Hq. destruct f as [k|]; [now inversion E|]. simpl in E.
  destruct (is_dir (fs w) p); [now inversion E|].
  destruct (negb (is_dir (fs w) (removelast p))); inversion E; subst; simpl; [reflexivity|].
  now rewrite lookup_insert_ne by congruence.
Qed.

Lemma os_RemoveAll_frame (dir : path) (w : World) (q : path) :
  ~ dir `prefix_of` q -> fs (os_RemoveAll dir w) !! q = fs w !! q.
Proof.
  intros Hq. unfold os_RemoveAll, set_fs, log_call. simpl.
  destruct (fs w !! q) as [x|] eqn:E.
  - apply map_lookup_filter_Some. split; [exact E|exact Hq].
  - apply map_lookup_filter_None. now left.
Qed.

Lemma zw_Close_frame (zipPath : path) zw (w : World) e w' (q : path) :
  zw_Close zipPath zw w = (e, w') -> q <> zipPath -> fs w' !! q = fs w !! q.
Proof.
  intros E Hq. apply zw_Close_spec in E as (ok & -> & _).
  now rewrite lookup_insert_ne by congruence.
Qed.

(** X6. [ZipBytesToTemp] changes the file system only on the chain of its
    workspace: whatever the file names asked for, whatever faults occur and
    whether it succeeds or fails, a path that is neither the workspace or
    below it nor one of the directories above it holds what it held. *)
Theorem ZipBytesToTemp_frame (data : list byte)
    (innerFilename zipFilename id : gostring) (w w' : World)
    (r : result (path * path)) (q : path) :
  ZipBytesToTemp data innerFilename zipFilename id w = (r, w') ->
  ~ chain (Join TempDir (str "single_" ++ id)) q ->
  fs w' !! q = fs w !! q.
Proof.
  intros E Hq. unfold ZipBytesToTemp in E. cbv zeta in E.
  set (dir := Join TempDir (str "single_" ++ id)) in *.
  set (name := if is_empty (Base innerFilename) || streq (Base innerFilename) (str ".")
               then str "document" else Base innerFilename) in *.
  set (zname := if is_empty (Base zipFilename) || streq (Base zipFilename) (str ".")
                then str "archive.zip" else Base zipFilename) in *.
  assert (Hdir : ~ dir `prefix_of` q /\ ~ q `prefix_of` dir).
  { split; intros H; apply Hq; [now left|now right]. }
  destruct Hdir as [Hbelow Habove].
  assert (Hraw : q <> Join dir name).
  { intros ->. apply Hq. apply Join_chain, Base_or_default_sep. vm_compute.
    intros Hin. repeat (apply elem_of_cons in Hin as [Hin|Hin]; [discriminate|]).
    now apply elem_of_nil in Hin. }
  assert (Hzip : q <> Join dir zname).
  { intros ->. apply Hq. apply Join_chain, Base_or_default_sep. vm_compute.
    intros Hin. repeat (apply elem_of_cons in Hin as [Hin|Hin]; [discriminate|]).
    now apply elem_of_nil in Hin. }
  pose proof (fun w0 => os_RemoveAll_frame dir w0 q Hbelow) as Hrm.
  destruct (os_MkdirAll dir w) as [e1 w1] eqn:E1.
  apply (os_MkdirAll_frame _ _ _ _ q) in E1; [|exact Habove].
  destruct e1 as [err|]; [now inversion E; subst|].
  destruct (os_WriteFile _ data w1) as [e2 w2] eqn:E2.
  apply (write_node_frame _ _ _ _ _ _ q) in E2; [|exact Hraw].
  destruct e2 as [err|]; [inversion E; subst; rewrite Hrm; chase_fs|].
  destruct (os_Create _ w2) as [e3 w3] eqn:E3.
  apply (write_node_frame _ _ _ _ _ _ q) in E3; [|exact Hzip].
  destruct e3 as [err|]; [inversion E; subst; rewrite Hrm; chase_fs|].
  destruct (zw_CreateHeader name [] w3) as [[e4 zw4] w4] eqn:E4.
  apply zw_CreateHeader_spec in E4 as [E4 _].
  destruct e4 as [err|].
  { destruct (zw_Close _ zw4 w4) as [e5 w5] eqn:E5.
    apply (zw_Close_frame _ _ _ _ _ q) in E5; [|exact Hzip].
    destruct (file_Close _ w5) as [e6 w6] eqn:E6. apply file_Close_fs in E6.
    inversion E; subst. rewrite Hrm. chase_fs. }
  destruct (os_Open _ w4) as [e5 w5] eqn:E5. apply os_Open_fs in E5.
  destruct (io_Copy _ _ w5) as [zw6 w6] eqn:E6. apply io_Copy_spec in E6 as [E6 _].
  destruct (file_Close _ w6) as [e7 w7] eqn:E7. apply file_Close_fs in E7.
  destruct (zw_Close _ zw6 w7) as [e8 w8] eqn:E8.
  apply (zw_Close_frame _ _ _ _ _ q) in E8; [|exact Hzip].
  destruct (file_Close _ w8) as [e9 w9] eqn:E9. apply file_Close_fs in E9.
  inversion E; subst. chase_fs.
Qed.


Lemma io_Copy_bytes src name d0 zw (w : World) zw' w' :
  io_Copy src (zw ++ [(name, d0)]) w = (zw', w') ->
  let avail := match src with Some p => file_bytes (fs w) p | None => [] end in
  exists copied, zw' = zw ++ [(name, copied)] /\
    copied `prefix_of` avail /\ (faults w = [] -> copied = avail).
Proof.
  unfold io_Copy, oscall. rewrite reverse_snoc, reverse_involutive.
  destruct (faults w) as [|f rest]; simpl; intros E; inversion E; subst; clear E.
  - eexists. split; [reflexivity|]. split; [reflexivity|]. reflexivity.
  - eexists. split; [reflexivity|]. split; [|discriminate].
    destruct f; [apply prefix_take|reflexivity].
Qed.

Lemma os_Open_nofault_ok (p : path) (w : World) :
  faults w = [] -> exists_at (fs w) p = true -> fst (os_Open p w) = None.
Proof.
  intros Hf He. unfold os_Open. rewrite (oscall_nofault _ _ Hf). simpl. now rewrite He.
Qed.

(** X7. The bytes of the single entry of a successful [ZipBytesToTemp]
    are a prefix of the data given (the errors of [os.Open] and [io.Copy]
    are ignored by the code, so a copy can stop early); when no system call
    meets a fault and the raw file is not the zip file itself, they are the
    data, the zip is complete, and the raw file still holds the data next
    to it. *)
Theorem ZipBytesToTemp_entry_bytes (data : list byte)
    (innerFilename zipFilename id : gostring) (w w' : World) (zipPath dir : path) :
  ZipBytesToTemp data innerFilename zipFilename id w = (inr (zipPath, dir), w') ->
  let name := if is_empty (Base innerFilename) || streq (Base innerFilename) (str ".")
              then str "document" else Base innerFilename in
  exists d ok,
    fs w' !! zipPath = Some (Archive [(name, d)] ok) /\
    d `prefix_of` data /\
    (faults w = [] -> Join dir name <> zipPath ->
     d = data /\ ok = true /\ fs w' !! Join dir name = Some (File data)).
Proof.
  intros E name. unfold ZipBytesToTemp in E. cbv zeta in E. fold name in E.
  set (dir0 := Join TempDir (str "single_" ++ id)) in E.
  set (zname := if is_empty (Base zipFilename) || streq (Base zipFilename) (str ".")
                then str "archive.zip" else Base zipFilename) in E.
  destruct (os_MkdirAll dir0 w) as [e1 w1] eqn:E1.
  pose proof (fun Hf => os_MkdirAll_nofault _ _ _ _ Hf E1) as F1.
  destruct e1 as [err|]; [discriminate|].
  destruct (os_WriteFile (Join dir0 name) data w1) as [e2 w2] eqn:E2.
  pose proof (fun Hf => write_node_nofault _ _ _ _ _ _ Hf E2) as F2.
  destruct e2 as [err|]; [discriminate|].
  apply write_node_ok in E2 as [_ E2].
  destruct (os_Create (Join dir0 zname) w2) as [e3 w3] eqn:E3.
  pose proof (fun Hf => write_node_nofault _ _ _ _ _ _ Hf E3) as F3.
  destruct e3 as [err|]; [discriminate|].
  apply write_node_ok in E3 as [_ E3].
  destruct (zw_CreateHeader name [] w3) as [[e4 zw4] w4] eqn:E4.
  pose proof (fun Hf => zw_CreateHeader_nofault _ _ _ _ _ Hf E4) as F4.
  destruct e4 as [err|].
  { destruct (zw_Close _ zw4 w4) as [? w5]. destruct (file_Close _ w5). discriminate. }
  apply zw_CreateHeader_spec in E4 as [E4 Hzw]. specialize (Hzw eq_refl). subst zw4.
  destruct (os_Open (Join dir0 name) w4) as [e5 w5] eqn:E5.
  pose proof (fun Hf => os_Open_nofault _ _ _ _ Hf E5) as F5.
  pose proof (os_Open_nofault_ok (Join dir0 name) w4) as O5. rewrite E5 in O5.
  apply os_Open_fs in E5.
  destruct (io_Copy _ _ w5) as [zw6 w6] eqn:E6.
  pose proof (fun Hf => io_Copy_nofault _ _ _ _ _ Hf E6) as F6.
  pose proof (io_Copy_spec _ _ _ _ _ E6) as [E6' _].
  apply (io_Copy_bytes _ name [] []) in E6 as (d & -> & Hpre & Hall).
  destruct (file_Close (Join dir0 name) w6) as [e7 w7] eqn:E7.
  pose proof (fun Hf => file_Close_nofault _ _ _ _ Hf E7) as F7.
  apply file_Close_fs in E7.
  destruct (zw_Close _ _ w7) as [e8 w8] eqn:E8.
  pose proof (fun Hf => zw_Close_nofault _ _ _ _ _ Hf E8) as F8.
  apply zw_Close_spec in E8 as (ok & E8 & _).
  destruct (file_Close _ w8) as [e9 w9] eqn:E9. apply file_Close_fs in E9.
  inversion E; subst zipPath dir w9; clear E.
  assert (Hraw5 : fs w5 !! Join dir0 name =
                  Some (File (if decide (Join dir0 name = Join dir0 zname) then [] else data))).
  { rewrite E5, E4, E3, E2. destruct (decide _) as [Heq|Hne].
    - rewrite <- Heq. apply lookup_insert_eq.
    - rewrite lookup_insert_ne by congruence. apply lookup_insert_eq. }
  assert (Hlook : fs w' !! Join dir0 zname = Some (Archive [(name, d)] ok)).
  { rewrite E9, E8. apply lookup_insert_eq. }
  exists d, ok. split; [exact Hlook|]. split.
  - destruct e5; simpl in Hpre; [apply prefix_nil_inv in Hpre; subst; apply prefix_nil|].
    unfold file_bytes in Hpre. rewrite Hraw5 in Hpre.
    destruct (decide _); [apply prefix_nil_inv in Hpre; subst; apply prefix_nil|exact Hpre].
  - intros Hf Hne.
    assert (Hf5 : faults w5 = []) by (apply F5, F4, F3, F2, F1, Hf).
    assert (He5 : e5 = None).
    { apply O5; [apply F4, F3, F2, F1, Hf|]. unfold exists_at. destruct (Join dir0 name); [reflexivity|].
      rewrite E4, E3, E2. rewrite lookup_insert_ne by congruence.
      now rewrite lookup_insert_eq. }
    subst e5. simpl in Hall. specialize (Hall Hf5).
    unfold file_bytes in Hall. rewrite Hraw5 in Hall.
    destruct (decide _) as [Heq|_]; [contradiction|]. subst d.
    split; [reflexivity|]. split.
    + assert (Hf7 : faults w7 = []) by (apply F7, F6, Hf5).
      specialize (F8 Hf7). rewrite E8 in F8.
      apply (f_equal (fun m => m !! Join dir0 zname)) in F8.
      rewrite !lookup_insert_eq in F8. congruence.
    + rewrite E9, E8. rewrite lookup_insert_ne by congruence.
      rewrite E7, E6'. exact Hraw5.
Qed.

End WorkspaceFacts.

(** ** The archive and the downloads of the bulk builder *)

Section ArchiveFacts.
Import Yandex Downloader.
Context {P : Platform} {F : Fetcher}.

Lemma sanitizeCategoryForZip_elem s r :
  r ∈ sanitizeCategoryForZip s -> rune_in bad r = false /\ r <> 32 /\ r <> 9.
Proof.
  unfold sanitizeCategoryForZip. cbv zeta.
  destruct (is_empty _).
  - vm_compute. intros Hin.
    repeat (apply elem_of_cons in Hin as [->|Hin]; [repeat split; discriminate|]).
    now apply elem_of_nil in Hin.
  - intros Hin. apply TrimSpace_elem in Hin. unfold Map in Hin.
    apply list_elem_of_omap in Hin as (x & _ & Hx).
    destruct (rune_in bad x) eqn:Eb; [discriminate|].
    destruct ((x =? 32) || (x =? 9)) eqn:Es; inversion Hx; subst.
    + repeat split; discriminate.
    + split; [exact Eb|]. apply orb_false_elim in Es as [E1 E2].
      apply Z.eqb_neq in E1, E2. auto.
Qed.

Lemma sanitizeCategoryForZip_nonempty s : sanitizeCategoryForZip s <> [].
Proof.
  unfold sanitizeCategoryForZip. cbv zeta.
  destruct (is_empty _) eqn:E; [discriminate|]. now apply is_empty_false.
Qed.

Lemma zipName_plain s :
  let zipName := sanitizeCategoryForZip s ++ str ".zip" in
  (sep ∉ zipName) /\ zipName <> [] /\ zipName <> str "." /\ zipName <> str ".." /\
  zipName <> str ".zip".
Proof.
  intros zipName. unfold zipName.
  pose proof (sanitizeCategoryForZip_nonempty s) as Hne.
  pose proof (sanitizeCategoryForZip_elem s) as Hel.
  destruct (sanitizeCategoryForZip s) as [|c t]; [congruence|].
  split; [|repeat split; try discriminate].
  - intros Hin. apply elem_of_app in Hin as [Hin|Hin].
    + apply Hel in Hin as [Hb _]. discriminate.
    + vm_compute in Hin.
      repeat (apply elem_of_cons in Hin as [Hin|Hin]; [discriminate|]).
      now apply elem_of_nil in Hin.
  - destruct t as [|c2 t]; [discriminate|]. destruct t; discriminate.
  - destruct t as [|c2 t]; [discriminate|]. destruct t; discriminate.
  - intros E. apply (f_equal (@length _)) in E. rewrite length_app in E.
    simpl in E. lia.
Qed.

(** X8. A successful [BulkDownloadAndZip] returns the workspace
    [bulk_<id>] under the temporary-file root and an archive that lies
    directly in it and is named after the sanitized category: the sanitized
    category is never empty and holds no forbidden character, space or tab,
    so the name is never the bare [.zip] that the code guards against, and
    [filepath.Base] of the archive path is this name. *)
Theorem BulkDownloadAndZip_paths (yandex : option YandexDownloader)
    (items : list BulkItem) (categoryName id : gostring)
    (maxArchiveBytes minFreeBytes : Z) (w w' : World) (zipPath bulkDir : path) :
  BulkDownloadAndZip yandex items categoryName maxArchiveBytes minFreeBytes id w
  = (inr (zipPath, bulkDir), w') ->
  let zipName := sanitizeCategoryForZip categoryName ++ str ".zip" in
  bulkDir = Join TempDir (str "bulk_" ++ id) /\
  zipPath = bulkDir ++ [zipName] /\
  Base (render zipPath) = zipName /\
  zipName <> str ".zip" /\
  (forall r, r ∈ sanitizeCategoryForZip categoryName ->
             rune_in bad r = false /\ r <> 32 /\ r <> 9).
Proof.
  intros E zipName.
  destruct (zipName_plain categoryName) as (Hsep & Hne & Hdot & Hdd & Hzip).
  fold zipName in Hsep, Hne, Hdot, Hdd, Hzip.
  assert (Hpaths : bulkDir = Join TempDir (str "bulk_" ++ id) /\
                   zipPath = Join bulkDir zipName).
  { unfold BulkDownloadAndZip in E. cbv zeta in E. fold zipName in E.
    apply streq_false in Hzip. rewrite Hzip in E.
    repeat case_match; simplify_eq; auto. }
  destruct Hpaths as [-> ->]. rewrite (Join_name _ _ Hsep Hne Hdot Hdd).
  split; [reflexivity|]. split; [reflexivity|].
  split; [now apply Base_render_snoc|]. split; [exact Hzip|].
  apply sanitizeCategoryForZip_elem.
Qed.


Lemma downloadsOf_snoc cs c :
  downloadsOf (cs ++ [c]) =
  downloadsOf cs ++ match c with CallDownloadToFile u d => [(u, d)] | _ => [] end.
Proof. unfold downloadsOf. rewrite omap_app. f_equal. now destruct c. Qed.

Lemma oscall_quiet c (w : World) f w' :
  oscall c w = (f, w') -> (forall u d, c <> CallDownloadToFile u d) -> quiet w w'.
Proof.
  intros E Hc. apply oscall_calls in E. unfold quiet. rewrite E, downloadsOf_snoc.
  destruct c; try apply app_nil_r. now destruct (Hc url dest).
Qed.

Lemma os_RemoveAll_quiet p (w : World) : quiet w (os_RemoveAll p w).
Proof.
  unfold quiet, os_RemoveAll, set_fs, log_call. simpl.
  rewrite downloadsOf_snoc. apply app_nil_r.
Qed.

Ltac quiet_call :=
  match goal with
  | |- context [oscall ?c ?w] =>
      let E := fresh in
      destruct (oscall c w) as [? ?] eqn:E;
      apply oscall_quiet in E; [|discriminate];
      intros; repeat case_match; simplify_eq; exact E
  end.

Lemma os_MkdirAll_quiet p (w : World) r w' : os_MkdirAll p w = (r, w') -> quiet w w'.
Proof. unfold os_MkdirAll. quiet_call. Qed.

Lemma write_node_quiet c p n (w : World) r w' :
  (forall u d, c <> CallDownloadToFile u d) -> write_node c p n w = (r, w') -> quiet w w'.
Proof.
  intros Hc. unfold write_node. destruct (oscall c w) as [f w1] eqn:E.
  apply oscall_quiet in E; [|exact Hc]. intros; repeat case_match; simplify_eq; exact E.
Qed.

Lemma os_Open_quiet p (w : World) r w' : os_Open p w = (r, w') -> quiet w w'.
Proof. unfold os_Open. quiet_call. Qed.

Lemma file_Close_quiet p (w : World) r w' : file_Close p w = (r, w') -> quiet w w'.
Proof. unfold file_Close. quiet_call. Qed.

Lemma zw_CreateHeader_quiet name zw (w : World) r w' :
  zw_CreateHeader name zw w = (r, w') -> quiet w w'.
Proof. unfold zw_CreateHeader. quiet_call. Qed.

Lemma io_Copy_quiet src zw (w : World) r w' : io_Copy src zw w = (r, w') -> quiet w w'.
Proof. unfold io_Copy. quiet_call. Qed.

Lemma zw_Close_quiet zipPath zw (w : World) r w' :
  zw_Close zipPath zw w = (r, w') -> quiet w w'.
Proof. unfold zw_Close. quiet_call. Qed.

Lemma quiet_trans (w1 w2 w3 : World) : quiet w1 w2 -> quiet w2 w3 -> quiet w1 w3.
Proof. unfold quiet. congruence. Qed.

Lemma zipPaths_quiet baseDir zipPath :
  forall ps zw (w : World) r w',
    zipPaths baseDir zipPath ps zw w = (r, w') -> quiet w w'.
Proof.
  induction ps as [|p rest IH]; intros zw w r w' E; simpl in E.
  - inversion E; subst. reflexivity.
  - destruct (zw_CreateHeader _ zw w) as [[e1 zw1] w1] eqn:E1.
    apply zw_CreateHeader_quiet in E1.
    destruct e1 as [err|].
    { destruct (zw_Close zipPath zw1 w1) as [e2 w2] eqn:E2. apply zw_Close_quiet in E2.
      destruct (file_Close zipPath w2) as [e3 w3] eqn:E3. apply file_Close_quiet in E3.
      inversion E; subst.
      eapply quiet_trans; [|apply os_RemoveAll_quiet].
      eapply quiet_trans; [|exact E3]. eapply quiet_trans; [|exact E2]. exact E1. }
    destruct (os_Open p w1) as [e2 w2] eqn:E2. apply os_Open_quiet in E2.
    destruct e2 as [err|].
    { destruct (zw_Close zipPath zw1 w2) as [e3 w3] eqn:E3. apply zw_Close_quiet in E3.
      destruct (file_Close zipPath w3) as [e4 w4] eqn:E4. apply file_Close_quiet in E4.
      inversion E; subst.
      eapply quiet_trans; [|apply os_RemoveAll_quiet].
      eapply quiet_trans; [|exact E4]. eapply quiet_trans; [|exact E3].
      eapply quiet_trans; [exact E1|exact E2]. }
    destruct (io_Copy (Some p) zw1 w2) as [zw3 w3] eqn:E3. apply io_Copy_quiet in E3.
    destruct (file_Close p w3) as [e4 w4] eqn:E4. apply file_Close_quiet in E4.
    apply IH in E.
    eapply quiet_trans; [|exact E]. eapply quiet_trans; [|exact E4].
    eapply quiet_trans; [|exact E3]. eapply quiet_trans; [exact E1|exact E2].
Qed.

(** The downloads of the loop over the items. *)
Lemma bulkItems_downloads y (baseDir : path) maxArchiveBytes :
  forall items (i : Z) st (w : World) r w',
    bulkItems y baseDir maxArchiveBytes i items st w = (r, w') ->
    exists k : nat,
      (k <= length items)%nat /\
      downloadsOf (calls w') =
        downloadsOf (calls w) ++
        take k (zip (map URL items)
                    (map (Join baseDir) (assignNames i (used st) items))) /\
      ((exists v, r = inr v) -> k = length items).
Proof.
  induction items as [|it rest IH]; intros i st w r w' E; simpl in E.
  - inversion E; subst. exists 0%nat. rewrite app_nil_r. auto.
  - destruct (bulkItem y baseDir maxArchiveBytes i it st w) as [r1 w1] eqn:E1.
    unfold bulkItem in E1. cbv zeta in E1.
    set (n := finalNameFor (used st) i it) in *.
    destruct (DownloadToFile _ _ _ _ _) as [[rd m] d] in E1.
    assert (H1 : downloadsOf (calls w1) =
                 downloadsOf (calls w) ++ [(URL it, Join baseDir n)] /\
                 forall st1, r1 = inr st1 -> used st1 = {[n]} ∪ used st).
    { destruct rd as [err|sz]; [|destruct (wrap64 (total st + sz) >? maxArchiveBytes)];
        inversion E1; subst; simpl; rewrite ?downloadsOf_snoc;
        rewrite ?app_nil_r; (split; [reflexivity|]); intros st1 [= <-]; reflexivity. }
    destruct H1 as [Hd Hu].
    destruct r1 as [err|st1].
    + inversion E; subst. exists 1%nat. simpl. split; [lia|]. split; [exact Hd|].
      intros [v Hv]. discriminate.
    + apply IH in E as (k & Hk & Hk2 & Hk3). exists (S k). simpl. split; [lia|].
      rewrite (Hu st1 eq_refl) in Hk2. fold n. split.
      * rewrite Hk2, Hd, <- app_assoc. reflexivity.
      * intros Hv. now rewrite (Hk3 Hv).
Qed.

(** X9. The downloads of [BulkDownloadAndZip] are made one after the
    other in the order of the items, each from the URL of its item to the
    name that [assignNames] gives it inside the workspace, and they stop at
    the first failure: the downloads logged are those of the first [k]
    items, and of all the items when the run succeeds. *)
Theorem BulkDownloadAndZip_downloads (yandex : option YandexDownloader)
    (items : list BulkItem) (categoryName id : gostring)
    (maxArchiveBytes minFreeBytes : Z) (w w' : World) (r : result (path * path)) :
  BulkDownloadAndZip yandex items categoryName maxArchiveBytes minFreeBytes id w
  = (r, w') ->
  exists k : nat,
    (k <= length items)%nat /\
    downloadsOf (calls w') =
      downloadsOf (calls w) ++
      take k (zip (map URL items)
                  (map (Join (Join TempDir (str "bulk_" ++ id)))
                       (assignNames 0 ∅ items))) /\
    ((exists v, r = inr v) -> k = length items).
Proof.
  intros E. unfold BulkDownloadAndZip in E. cbv zeta in E.
  assert (H0 : forall e, r = inl e -> w' = w -> exists k : nat,
    (k <= length items)%nat /\
    downloadsOf (calls w') =
      downloadsOf (calls w) ++
      take k (zip (map URL items)
                  (map (Join (Join TempDir (str "bulk_" ++ id)))
                       (assignNames 0 ∅ items))) /\
    ((exists v, r = inr v) -> k = length items)).
  { intros e -> ->. exists 0%nat. rewrite app_nil_r. split; [lia|]. split; [reflexivity|].
    intros [v Hv]. discriminate. }
  destruct yandex as [y|]; [|simplify_eq; eauto].
  destruct items as [|it0 rest0] eqn:Eitems; [simplify_eq; eauto|]. rewrite <- Eitems in *.
  destruct (_ <? _); [simplify_eq; eauto|]. clear H0.
  set (baseDir := Join TempDir (str "bulk_" ++ id)) in *.
  destruct (os_MkdirAll baseDir w) as [e1 w1] eqn:E1. apply os_MkdirAll_quiet in E1.
  destruct e1 as [err|].
  { inversion E; subst. exists 0%nat. rewrite app_nil_r. split; [lia|]. split; [exact E1|].
    intros [v Hv]. discriminate. }
  destruct (bulkItems y baseDir maxArchiveBytes 0 items _ w1) as [r2 w2] eqn:E2.
  apply bulkItems_downloads in E2 as (k & Hk & Hd & Hall). cbn [used] in Hd.
  rewrite E1 in Hd.
  destruct r2 as [err|st].
  { inversion E; subst. exists k. split; [exact Hk|]. split; [exact Hd|].
    intros [v Hv]. discriminate. }
  specialize (Hall (ex_intro _ st eq_refl)).
  exists k. split; [exact Hk|]. split; [|intros _; exact Hall].
  rewrite <- Hd.
  destruct (os_Create _ w2) as [e3 w3] eqn:E3.
  apply write_node_quiet in E3; [|discriminate].
  destruct e3 as [err|].
  { inversion E; subst. eapply quiet_trans; [exact E3|apply os_RemoveAll_quiet]. }
  destruct (zipPaths baseDir _ _ [] w3) as [[e4 zw4] w4] eqn:E4.
  apply zipPaths_quiet in E4.
  destruct e4 as [err|].
  { inversion E; subst. eapply quiet_trans; [exact E3|exact E4]. }
  destruct (zw_Close _ zw4 w4) as [e5 w5] eqn:E5. apply zw_Close_quiet in E5.
  destruct (file_Close _ w5) as [e6 w6] eqn:E6. apply file_Close_quiet in E6.
  assert (H6 : quiet w2 w6).
  { eapply quiet_trans; [|exact E6]. eapply quiet_trans; [|exact E5].
    eapply quiet_trans; [exact E3|exact E4]. }
  destruct e5 as [err|]; [|destruct e6 as [err|]]; inversion E; subst;
    try exact H6; (eapply quiet_trans; [exact H6|apply os_RemoveAll_quiet]).
Qed.

End ArchiveFacts.

(** ** Start-up and conversation state ([main.go]) *)

Section StartupFacts.
Import Main.

Lemma Setenv_other (k v k' : gostring) (env : Env) :
  k' <> k -> Getenv k' (Setenv k v env) = Getenv k' env.
Proof.
  intros Hne. unfold Setenv, Getenv.
  destruct (_ || _ || _ || _); [reflexivity|]. unfold Env in *.
  now rewrite lookup_insert_ne by congruence.
Qed.

Lemma loadEnvLine_keeps (env : Env) (line k : gostring) :
  Getenv k env <> [] -> Getenv k (loadEnvLine env line) = Getenv k env.
Proof.
  intros Hk. unfold loadEnvLine. cbv zeta.
  destruct (_ || _); [reflexivity|]. destruct (_ <=? 0); [reflexivity|].
  set (k' := TrimSpace _). set (v := Trim _ _).
  destruct (negb (is_empty k') && is_empty (Getenv k' env)) eqn:E; [|reflexivity].
  apply andb_prop in E as [_ E]. apply Setenv_other.
  intros ->. destruct (Getenv k' env); [congruence|discriminate].
Qed.

Lemma loadEnvLine_dom (env : Env) (line k : gostring) :
  is_Some (env !! k) -> is_Some (loadEnvLine env line !! k).
Proof.
  intros Hk. unfold loadEnvLine, Setenv, Env in *. cbv zeta.
  repeat case_match; try exact Hk.
  destruct (decide (k = TrimSpace (slice_to (TrimSpace line) (Index (TrimSpace line) (str "=")))))
    as [->|Hne].
  - rewrite lookup_insert_eq. eauto.
  - now rewrite lookup_insert_ne by congruence.
Qed.

(** X10. [loadEnv] never changes a variable of the environment that has a
    non-empty value, whatever the file holds, and it unsets nothing: a
    variable that is set stays set. When the file cannot be read, the
    error is returned and the environment is as before. *)
Theorem loadEnv_keeps_set (file : result gostring) (env : Env) (k : gostring) :
  (Getenv k env <> [] -> Getenv k (snd (loadEnv file env)) = Getenv k env) /\
  (is_Some (env !! k) -> is_Some (snd (loadEnv file env) !! k)) /\
  (forall err, file = inl err -> loadEnv file env = (Some err, env)).
Proof.
  split; [|split].
  - destruct file as [err|data]; [reflexivity|]. simpl.
    revert env. induction (Split data 10) as [|line rest IH]; intros env Hk; [reflexivity|].
    simpl. rewrite IH; rewrite loadEnvLine_keeps; auto.
  - destruct file as [err|data]; [auto|]. simpl.
    revert env. induction (Split data 10) as [|line rest IH]; intros env Hk; [exact Hk|].
    simpl. apply IH, loadEnvLine_dom, Hk.
  - intros err ->. reflexivity.
Qed.

(** X11. The table of conversation states: after [set] the state of the
    user is the one given and the states of the other users are as before,
    also for the empty state, which [set] stores by deleting the entry;
    after [reset], and in the table of [newFSM], the state is empty. No
    entry ever holds the empty state, so a user has an entry exactly when
    their state is not empty. *)
Theorem fsm_get_set (f : fsm) (uid uid' : Z) (s : gostring) :
  get (set f uid s) uid' = (if decide (uid' = uid) then s else get f uid') /\
  get (reset f uid) uid = [] /\
  get newFSM uid = [] /\
  ((forall u, f !! u <> Some []) -> forall u, set f uid s !! u <> Some []) /\
  ((forall u, f !! u <> Some []) -> (get f uid = [] <-> f !! uid = None)).
Proof.
  assert (Hgs : forall s0 u, get (set f uid s0) u = if decide (u = uid) then s0 else get f u).
  { intros s0 u. unfold get, set, fsm in *. destruct (is_empty s0) eqn:Es.
    - destruct s0; [|discriminate]. destruct (decide (u = uid)) as [->|Hne].
      + now rewrite lookup_delete_eq.
      + now rewrite lookup_delete_ne by congruence.
    - destruct (decide (u = uid)) as [->|Hne].
      + now rewrite lookup_insert_eq.
      + now rewrite lookup_insert_ne by congruence. }
  split; [apply Hgs|]. split.
  { unfold reset. rewrite Hgs. now destruct (decide (uid = uid)). }
  split; [reflexivity|]. split.
  - intros Hinv u. unfold set, fsm in *. destruct (is_empty s) eqn:Es.
    + destruct (decide (u = uid)) as [->|Hne].
      * rewrite lookup_delete_eq. discriminate.
      * rewrite lookup_delete_ne by congruence. apply Hinv.
    + apply is_empty_false in Es. destruct (decide (u = uid)) as [->|Hne].
      * rewrite lookup_insert_eq. congruence.
      * rewrite lookup_insert_ne by congruence. apply Hinv.
  - intros Hinv. unfold get. specialize (Hinv uid).
    destruct (f !! uid) as [x|]; simpl; [|tauto].
    split; [intros ->; congruence|discriminate].
Qed.

End StartupFacts.

(** ** The spreadsheet *)

Section SheetFacts.
Import Sheets.

Lemma colToLetter_rec_small fuel n : n <= 26 -> colToLetter_rec fuel n = colToLetter_rec 0 n.
Proof.
  intros Hn. destruct fuel; [reflexivity|]. simpl.
  destruct (n <=? 0); [reflexivity|]. destruct (n <=? 26) eqn:E; [reflexivity|lia].
Qed.

Lemma colToLetter_rec_fuel (f1 : nat) :
  forall (f2 : nat) (n : Z),
    (Z.to_nat n <= f1)%nat -> (Z.to_nat n <= f2)%nat ->
    colToLetter_rec f1 n = colToLetter_rec f2 n.
Proof.
  induction f1 as [|f1 IH]; intros f2 n H1 H2.
  - rewrite (colToLetter_rec_small f2) by lia. reflexivity.
  - destruct (Z_le_gt_dec n 26) as [Hs|Hb].
    { rewrite (colToLetter_rec_small (S f1)), (colToLetter_rec_small f2) by lia.
      reflexivity. }
    destruct f2 as [|f2]; [lia|]. simpl.
    destruct (n <=? 0) eqn:E0; [lia|]. destruct (n <=? 26) eqn:E26; [lia|].
    assert (Hq : (n - 1) / 26 < n) by (apply Z.div_lt_upper_bound; lia).
    assert (Hq0 : 0 <= (n - 1) / 26) by (apply Z.div_pos; lia).
    f_equal. apply IH; lia.
Qed.

Lemma colToLetter_step n :
  26 < n -> colToLetter n = colToLetter ((n - 1) / 26) ++ [65 + (n - 1) mod 26].
Proof.
  intros Hn. unfold colToLetter.
  destruct (Z.to_nat n) as [|f] eqn:Ef; [lia|]. simpl.
  destruct (n <=? 0) eqn:E0; [lia|]. destruct (n <=? 26) eqn:E26; [lia|].
  assert (Hq : (n - 1) / 26 < n) by (apply Z.div_lt_upper_bound; lia).
  assert (Hq0 : 0 <= (n - 1) / 26) by (apply Z.div_pos; lia).
  f_equal. apply colToLetter_rec_fuel; lia.
Qed.

Lemma colToLetter_small n : 1 <= n <= 26 -> colToLetter n = [65 + n - 1].
Proof.
  intros Hn. unfold colToLetter. rewrite colToLetter_rec_small by lia. simpl.
  destruct (n <=? 0) eqn:E0; [lia|]. destruct (n <=? 26) eqn:E26; [reflexivity|lia].
Qed.

Lemma letterToCol_snoc s c : letterToCol (s ++ [c]) = letterToCol s * 26 + (c - 65 + 1).
Proof. unfold letterToCol. now rewrite fold_left_app. Qed.

Lemma colToLetter_spec (fuel : nat) :
  forall n, 1 <= n -> (Z.to_nat n <= fuel)%nat ->
    letterToCol (colToLetter n) = n /\
    Forall (fun c => 65 <= c <= 90) (colToLetter n).
Proof.
  induction fuel as [|fuel IH]; intros n Hn Hf; [lia|].
  destruct (Z_le_gt_dec n 26) as [Hs|Hb].
  - rewrite colToLetter_small by lia. split; [unfold letterToCol; simpl; lia|].
    constructor; [lia|constructor].
  - rewrite colToLetter_step by lia.
    assert (Hq : (n - 1) / 26 < n) by (apply Z.div_lt_upper_bound; lia).
    assert (Hq1 : 1 <= (n - 1) / 26) by (apply Z.div_le_lower_bound; lia).
    destruct (IH ((n - 1) / 26)) as [Hv Hl]; [lia|lia|].
    pose proof (Z.mod_pos_bound (n - 1) 26 ltac:(lia)) as Hr.
    split.
    + rewrite letterToCol_snoc, Hv.
      pose proof (Z.div_mod (n - 1) 26 ltac:(lia)). lia.
    + apply Forall_app_2; [exact Hl|]. constructor; [lia|constructor].
Qed.

(** X12. [colToLetter] writes a column number in letters: nothing for a
    number below 1, and for a number from 1 on a string of capital letters
    that stands for this number ([A] is 1, [Z] is 26, [AA] is 27), so two
    columns never get the same letters; above 26 it is the letters of
    [(n-1)/26] followed by the letter of [(n-1) mod 26], which shows that
    the recursion of the code ends before the fuel of the model does. *)
Theorem colToLetter_bijective (n : Z) :
  (n <= 0 -> colToLetter n = []) /\
  (1 <= n -> letterToCol (colToLetter n) = n) /\
  Forall (fun c => 65 <= c <= 90) (colToLetter n) /\
  (forall m, 1 <= n -> 1 <= m -> colToLetter n = colToLetter m -> n = m) /\
  (26 < n -> colToLetter n = colToLetter ((n - 1) / 26) ++ [65 + (n - 1) mod 26]).
Proof.
  split; [|split; [|split; [|split]]].
  - intros Hn. unfold colToLetter. rewrite colToLetter_rec_small by lia. simpl.
    destruct (n <=? 0) eqn:E; [reflexivity|lia].
  - intros Hn. apply (colToLetter_spec (Z.to_nat n)); [exact Hn|lia].
  - destruct (Z_le_gt_dec n 0) as [Hn|Hn].
    + unfold colToLetter. rewrite colToLetter_rec_small by lia. simpl.
      destruct (n <=? 0) eqn:E; [constructor|lia].
    + apply (colToLetter_spec (Z.to_nat n)); lia.
  - intros m Hn Hm E.
    rewrite <- (proj1 (colToLetter_spec (Z.to_nat n) n Hn ltac:(lia))).
    rewrite <- (proj1 (colToLetter_spec (Z.to_nat m) m Hm ltac:(lia))).
    now rewrite E.
  - apply colToLetter_step.
Qed.

Context {S : Service}.

Lemma rowDocument_Some categoryID i row d :
  rowDocument categoryID i row = Some d ->
  (4 <= length row)%nat /\ field row 0 = categoryID /\
  IDКатегории d = categoryID /\ Название d = field row 1 /\
  Описание d = field row 2 /\ Ссылка d = field row 3 /\
  FileID d = (if (5 <=? length row)%nat then field row 4 else []) /\
  SheetRow d = 2 + Z.of_nat i.
Proof.
  unfold rowDocument. destruct (length row <? 4)%nat eqn:El; [discriminate|].
  apply Nat.ltb_ge in El. cbv zeta.
  destruct (streq (field row 0) categoryID) eqn:Ec; [|discriminate].
  apply bool_decide_eq_true in Ec. simpl. intros [= <-]. simpl. auto 10.
Qed.

Lemma rowDocument_None categoryID i row :
  rowDocument categoryID i row = None <->
  (length row < 4)%nat \/ field row 0 <> categoryID.
Proof.
  unfold rowDocument. destruct (length row <? 4)%nat eqn:El.
  - apply Nat.ltb_lt in El. split; auto.
  - apply Nat.ltb_ge in El. cbv zeta.
    destruct (streq (field row 0) categoryID) eqn:Ec; simpl.
    + apply bool_decide_eq_true in Ec. split; [discriminate|]. intros [?|?]; [lia|congruence].
    + apply streq_false in Ec. split; auto.
Qed.

Lemma documents_sorted categoryID (rows : list (list (cell float64 other))) :
  forall k : nat,
    let docs := omap id (imap (fun i => rowDocument categoryID (k + i)) rows) in
    StronglySorted Z.lt (map SheetRow docs) /\
    Forall (fun d => 2 + Z.of_nat k <= SheetRow d) docs.
Proof.
  induction rows as [|row rows IH]; intros k; simpl; [split; constructor|].
  destruct (IH (Datatypes.S k)) as [Hs Hf].
  rewrite (imap_ext _ (fun i => rowDocument categoryID (Datatypes.S k + i)))
    by (intros i x _; simpl; f_equal; lia).
  assert (Hf' : Forall (fun d => 2 + Z.of_nat k <= SheetRow d)
                  (omap id (imap (fun i => rowDocument categoryID (Datatypes.S k + i)) rows))).
  { eapply Forall_impl; [exact Hf|]. simpl. intros d Hd. lia. }
  destruct (rowDocument categoryID (k + 0) row) as [d|] eqn:Ed; simpl; [|auto].
  apply rowDocument_Some in Ed as (_ & _ & _ & _ & _ & _ & _ & Hr).
  split.
  - constructor; [exact Hs|]. apply Forall_fmap.
    eapply Forall_impl; [exact Hf|]. simpl. intros d' Hd'. lia.
  - constructor; [lia|exact Hf'].
Qed.

(** X13. When the values service answers, [GetDocumentsByCategory]
    returns the documents that the loop body builds from the rows, and
    nothing else: a row gives a document exactly when it has at least four
    cells and its first cell, trimmed, is the category; the document then
    carries the number of its row in the sheet (the index plus 2), and the
    documents come in the order of the rows, so no two of them carry the
    same row number. *)
Theorem GetDocumentsByCategory_rows (categoryID : gostring) (st st' : SheetState)
    (rows : list (list (cell float64 other))) :
  Values_Get (sheetДокументы ++ str "!A2:E") st = (inr rows, st') ->
  exists docs,
    GetDocumentsByCategory categoryID st = (inr docs, st') /\
    (forall d, d ∈ docs <->
       exists (i : nat) row, rows !! i = Some row /\ rowDocument categoryID i row = Some d) /\
    (forall (i : nat) row,
       rows !! i = Some row ->
       ((exists d, d ∈ docs /\ SheetRow d = 2 + Z.of_nat i) <->
        (4 <= length row)%nat /\ field row 0 = categoryID)) /\
    StronglySorted Z.lt (map SheetRow docs).
Proof.
  intros E. unfold GetDocumentsByCategory. cbv zeta. rewrite E.
  eexists. split; [reflexivity|].
  assert (Hel : forall d, d ∈ omap id (imap (rowDocument categoryID) rows) <->
       exists (i : nat) row, rows !! i = Some row /\ rowDocument categoryID i row = Some d).
  { intros d. rewrite list_elem_of_omap. split.
    - intros (x & Hx & Hd). apply elem_of_lookup_imap in Hx as (i & row & -> & Hrow).
      exists i, row. auto.
    - intros (i & row & Hrow & Hd). exists (Some d). split; [|reflexivity].
      apply elem_of_lookup_imap. exists i, row. auto. }
  split; [exact Hel|]. split.
  - intros i row Hrow. split.
    + intros (d & Hd & Hr). apply Hel in Hd as (j & row' & Hrow' & Hd).
      apply rowDocument_Some in Hd as (Hl & Hc & _ & _ & _ & _ & _ & Hr').
      assert (j = i) by lia. subst j. rewrite Hrow in Hrow'. inversion Hrow'; subst. auto.
    + intros [Hl Hc].
      destruct (rowDocument categoryID i row) as [d|] eqn:Ed.
      * exists d. split; [apply Hel; eauto|].
        now apply rowDocument_Some in Ed as (_ & _ & _ & _ & _ & _ & _ & Hr).
      * apply rowDocument_None in Ed as [?|?]; [lia|congruence].
  - apply (documents_sorted categoryID rows 0).
Qed.

End SheetFacts.

(** ** Trimming *)

Section TrimFacts.

Lemma TrimLeftFunc_head_false f s c t : TrimLeftFunc f s = c :: t -> f c = false.
Proof.
  induction s as [|a s IH]; simpl; [discriminate|].
  destruct (f a) eqn:Ea; [exact IH|]. intros [= <- <-]. exact Ea.
Qed.

Lemma TrimLeftFunc_snoc_keep f l c :
  f c = false -> exists u, TrimLeftFunc f (l ++ [c]) = u ++ [c].
Proof.
  intros Hc. induction l as [|a l IH]; simpl.
  - rewrite Hc. now exists [].
  - destruct (f a); [exact IH|]. now exists (a :: l).
Qed.

Lemma TrimRightFunc_keeps_head f c t :
  f c = false -> exists t', TrimRightFunc f (c :: t) = c :: t'.
Proof.
  intros Hc. unfold TrimRightFunc. simpl.
  destruct (TrimLeftFunc_snoc_keep f (rev t) c Hc) as [u ->].
  exists (rev u). now rewrite rev_app_distr.
Qed.

Lemma TrimRightFunc_last_false f s t c : TrimRightFunc f s = t ++ [c] -> f c = false.
Proof.
  unfold TrimRightFunc. intros E. apply (f_equal (@rev _)) in E.
  rewrite rev_involutive, rev_app_distr in E. simpl in E.
  now apply TrimLeftFunc_head_false in E.
Qed.

Lemma TrimRightFunc_fixed f t c : f c = false -> TrimRightFunc f (t ++ [c]) = t ++ [c].
Proof.
  intros Hc. unfold TrimRightFunc. rewrite rev_app_distr. simpl. rewrite Hc.
  simpl. now rewrite rev_involutive.
Qed.

Lemma TrimFunc_head_false f s c t : TrimFunc f s = c :: t -> f c = false.
Proof.
  unfold TrimFunc. destruct (TrimLeftFunc f s) as [|a x] eqn:El.
  - discriminate.
  - pose proof (TrimLeftFunc_head_false _ _ _ _ El) as Ha.
    destruct (TrimRightFunc_keeps_head f a x Ha) as [t' ->]. now intros [= <- <-].
Qed.

Lemma TrimFunc_cons_nonempty f c t : f c = false -> TrimFunc f (c :: t) <> [].
Proof.
  intros Hc. unfold TrimFunc. simpl. rewrite Hc.
  destruct (TrimRightFunc_keeps_head f c t Hc) as [t' ->]. discriminate.
Qed.

Lemma TrimFunc_idem f s : TrimFunc f (TrimFunc f s) = TrimFunc f s.
Proof.
  destruct (TrimFunc f s) as [|c t] eqn:E; [reflexivity|].
  pose proof (TrimFunc_head_false _ _ _ _ E) as Hc.
  unfold TrimFunc at 1. simpl. rewrite Hc.
  destruct (exists_last (l := c :: t) ltac:(discriminate)) as (y & z & Hyz).
  rewrite Hyz. apply TrimRightFunc_fixed.
  unfold TrimFunc in E. rewrite Hyz in E. now apply TrimRightFunc_last_false in E.
Qed.

Lemma TrimSpace_idem s : TrimSpace (TrimSpace s) = TrimSpace s.
Proof. apply TrimFunc_idem. Qed.

End TrimFacts.
(** ** The download handlers *)

Section HandlerFacts.
Import Yandex Downloader Sheets Handlers.
Context {P : Platform} {T : Transport} {F : Fetcher} {S : Service} {B : Bot}.

Lemma send_spec what (w : World) r w' :
  send what w = (r, w') ->
  net w' = net w /\ files w' = files w /\ sheet w' = sheet w /\
  acts w' = acts w ++ [Sent what (match what with
                                  | DocumentFromDisk p _ _ => fs (files w) !! p
                                  | _ => None
                                  end)].
Proof.
  unfold send. destruct (bot_Send _ _ _) as [r0 b]. intros E. inversion E; subst. auto.
Qed.

Lemma getDocuments_spec categoryID (w : World) r w' :
  getDocuments categoryID w = (r, w') ->
  net w' = net w /\ files w' = files w /\ acts w' = acts w /\
  r = fst (GetDocumentsByCategory categoryID (sheet w)).
Proof.
  unfold getDocuments. destruct (GetDocumentsByCategory _ _) as [r0 st].
  intros E. inversion E; subst. auto.
Qed.

Lemma updateFileID_spec sheetRow fileID (w : World) :
  net (updateFileID sheetRow fileID w) = net w /\
  files (updateFileID sheetRow fileID w) = files w /\
  acts (updateFileID sheetRow fileID w) = acts w ++ [Updated (fileIDRange sheetRow) fileID].
Proof. unfold updateFileID. destruct (UpdateDocumentFileID _ _ _). auto. Qed.

Lemma os_MkdirAll_fail (p : path) (w : Downloader.World) e w' :
  os_MkdirAll p w = (Some e, w') -> fs w' = fs w.
Proof.
  unfold os_MkdirAll. destruct (oscall_spec (CallMkdirAll p) w) as (f & fl & ->).
  destruct f as [c|]; [intros E; now inversion E|]. simpl.
  destruct (forallb _ _); intros E; inversion E; subst; reflexivity.
Qed.

Lemma ZipBytesToTemp_dir data inner zipf (id : gostring) (w w' : Downloader.World)
    zipPath dir :
  ZipBytesToTemp data inner zipf id w = (inr (zipPath, dir), w') ->
  dir = Join TempDir (str "single_" ++ id).
Proof.
  unfold ZipBytesToTemp. cbv zeta. intros E.
  destruct (os_MkdirAll _ w) as [[err|] w1]; [discriminate|].
  destruct (os_WriteFile _ data w1) as [[err|] w2]; [discriminate|].
  destruct (os_Create _ w2) as [[err|] w3]; [discriminate|].
  destruct (zw_CreateHeader _ [] w3) as [[[err|] zw4] w4].
  { destruct (zw_Close _ zw4 w4) as [? w5]. destruct (file_Close _ w5). discriminate. }
  destruct (os_Open _ w4) as [e5 w5]. destruct (io_Copy _ _ w5) as [zw6 w6].
  destruct (file_Close _ w6) as [e7 w7]. destruct (zw_Close _ zw6 w7) as [e8 w8].
  destruct (file_Close _ w8) as [e9 w9]. now inversion E.
Qed.

Lemma ZipBytesToTemp_error_absent data inner zipf (id : gostring)
    (w w' : Downloader.World) e :
  absent (Join TempDir (str "single_" ++ id)) w ->
  ZipBytesToTemp data inner zipf id w = (inl e, w') ->
  absent (Join TempDir (str "single_" ++ id)) w'.
Proof.
  intros Ha E.
  destruct (os_MkdirAll (Join TempDir (str "single_" ++ id)) w) as [[err|] w1] eqn:E1.
  - pose proof (os_MkdirAll_fail _ _ _ _ E1) as Hfs.
    unfold ZipBytesToTemp in E. cbv zeta in E. rewrite E1 in E. inversion E; subst.
    intros p Hp. rewrite Hfs. now apply Ha.
  - exact (proj1 (ZipBytesToTemp_error_cleanup _ _ _ _ _ _ _ _ E1 E)).
Qed.

Lemma os_RemoveAll_absent dir (f : Downloader.World) : absent dir (os_RemoveAll dir f).
Proof. exact (proj1 (os_RemoveAll_removed dir f)). Qed.

Lemma caches_on_row_texts d (new : list Action) :
  (forall range fileID, Updated range fileID ∉ new) -> caches_on_row d new.
Proof. intros H range fileID Hin. now apply H in Hin. Qed.

Lemma zipAndSend_spec d docName data filename (id : gostring) (w : World) :
  let w' := zipAndSend d docName data filename id w in
  net w' = net w /\
  (absent (Join TempDir (str "single_" ++ id)) (files w) ->
   absent (Join TempDir (str "single_" ++ id)) (files w')) /\
  exists new, acts w' = acts w ++ new /\ caches_on_row d new.
Proof.
  unfold zipAndSend.
  destruct (ZipBytesToTemp _ _ _ _ _) as [rz f] eqn:Ez.
  destruct rz as [err|[zipPath zipDir]].
  - destruct (send msgFailed _) as [r1 w1] eqn:E1.
    apply send_spec in E1 as (Hn & Hf & _ & Ha). simpl in *.
    split; [exact Hn|]. split.
    + intros Hab. rewrite Hf. eapply ZipBytesToTemp_error_absent; eassumption.
    + eexists. split; [rewrite Ha, <- app_assoc; reflexivity|].
      apply caches_on_row_texts. intros range fileID Hin. simpl in Hin. set_solver.
  - pose proof (ZipBytesToTemp_dir _ _ _ _ _ _ _ _ Ez) as ->.
    destruct (send (DocumentFromDisk _ _ _) _) as [rm w1] eqn:E1.
    apply send_spec in E1 as (Hn1 & Hf1 & _ & Ha1). simpl in Hn1, Hf1, Ha1.
    destruct rm as [c|fileID].
    + destruct (send msgFailed _) as [r2 w2] eqn:E2.
      apply send_spec in E2 as (Hn2 & Hf2 & _ & Ha2). simpl in *.
      split; [congruence|]. split; [intros _; apply os_RemoveAll_absent|].
      eexists. split; [rewrite Ha2, Ha1, <- !app_assoc; reflexivity|].
      apply caches_on_row_texts. intros range fileID Hin. simpl in Hin. set_solver.
    + destruct (negb (is_empty fileID)) eqn:Ef.
      * destruct (updateFileID_spec (SheetRow d) fileID w1) as (Hn2 & Hf2 & Ha2).
        simpl. split; [congruence|]. split; [intros _; apply os_RemoveAll_absent|].
        eexists. split; [rewrite Ha2, Ha1, <- !app_assoc; reflexivity|].
        intros range fid Hin. simpl in Hin.
        apply elem_of_cons in Hin as [Hin|Hin]; [discriminate|].
        apply list_elem_of_singleton in Hin. inversion Hin; subst.
        split; [reflexivity|]. split.
        { apply negb_true_iff in Ef. now apply is_empty_false. }
        do 4 eexists. apply elem_of_cons. left. reflexivity.
      * simpl. split; [congruence|]. split; [intros _; apply os_RemoveAll_absent|].
        eexists. split; [rewrite Ha1; reflexivity|].
        apply caches_on_row_texts. intros range fid Hin. set_solver.
Qed.

Lemma err_is_true {A} (r : result A) e : err_is r e = true <-> r = inl e.
Proof.
  unfold err_is. destruct r as [e'|v].
  - rewrite bool_decide_eq_true. split; congruence.
  - split; discriminate.
Qed.

Lemma GetFileSize_sentinel_silent y s (w : Yandex.World) w' :
  GetFileSize y s w = (inl ErrNotYandexDisk, w') -> w' = w.
Proof.
  intros E. pose proof (f_equal fst E) as E1. simpl in E1.
  apply GetFileSize_sentinel in E1 as [Hne Hy].
  unfold GetFileSize in E. apply is_empty_false in Hne. rewrite Hne, Hy in E.
  now inversion E.
Qed.

Lemma GetFileSize_yandex y s (w : Yandex.World) r w' :
  GetFileSize y s w = (r, w') -> TrimSpace s <> [] ->
  err_is r ErrNotYandexDisk = false -> isYandexDiskURL (TrimSpace s) = true.
Proof.
  intros E Hne Hr. destruct (isYandexDiskURL (TrimSpace s)) eqn:Ey; [reflexivity|].
  assert (Hs : fst (GetFileSize y s w) = inl ErrNotYandexDisk)
    by (apply GetFileSize_sentinel; auto).
  rewrite E in Hs. simpl in Hs. subst r.
  rewrite (proj2 (err_is_true _ _) eq_refl) in Hr. discriminate.
Qed.

Lemma fetchAndSend_spec y d docName link (id : gostring) (w : World) :
  let w' := fetchAndSend y d docName link id w in
  (net w' <> net w -> TrimSpace link <> [] -> isYandexDiskURL (TrimSpace link) = true) /\
  (absent (Join TempDir (str "single_" ++ id)) (files w) ->
   absent (Join TempDir (str "single_" ++ id)) (files w')) /\
  exists new, acts w' = acts w ++ new /\ caches_on_row d new.
Proof.
  unfold fetchAndSend.
  destruct (GetFileSize y link (net w)) as [rs n1] eqn:Es.
  assert (Hsend : forall what (w0 : World),
            (forall p name cap, what <> DocumentFromDisk p name cap) ->
            let w1 := snd (send what w0) in
            net w1 = net w0 /\ files w1 = files w0 /\
            exists new, acts w1 = acts w0 ++ new /\ caches_on_row d new).
  { intros what w0 Hw. destruct (send what w0) as [r1 w1] eqn:E1.
    apply send_spec in E1 as (Hn & Hf & _ & Ha). simpl.
    split; [exact Hn|]. split; [exact Hf|]. eexists. split; [exact Ha|].
    apply caches_on_row_texts. intros range fid Hin. set_solver. }
  destruct (err_is rs ErrNotYandexDisk) eqn:Er.
  { apply err_is_true in Er. subst rs. apply GetFileSize_sentinel_silent in Es. subst n1.
    destruct (Hsend (msgByLink link) (set_net (net w) w)) as (Hn & Hf & Hnew);
      [discriminate|].
    destruct (send (msgByLink link) _) as [r1 w1]. simpl in *.
    split; [intros Hne; now rewrite Hn in Hne|]. split; [now rewrite Hf|exact Hnew]. }
  pose proof (fun Hne => GetFileSize_yandex _ _ _ _ _ Es Hne Er) as Hy.
  destruct (match rs with inr size => _ | inl _ => false end).
  { destruct (Hsend (msgTooLarge link) (set_net n1 w)) as (Hn & Hf & Hnew);
      [discriminate|].
    destruct (send (msgTooLarge link) _) as [r1 w1]. simpl in *.
    split; [auto|]. split; [now rewrite Hf|exact Hnew]. }
  destruct (GetFile y link (net (set_net n1 w))) as [rf n2] eqn:Ef.
  destruct (err_is rf ErrNotYandexDisk).
  { destruct (Hsend (msgByLink link) (set_net n2 (set_net n1 w))) as (Hn & Hf & Hnew);
      [discriminate|].
    destruct (send (msgByLink link) _) as [r1 w1]. simpl in *.
    split; [auto|]. split; [now rewrite Hf|exact Hnew]. }
  destruct (err_is rf ErrFileTooLarge).
  { destruct (Hsend (msgTooLarge link) (set_net n2 (set_net n1 w))) as (Hn & Hf & Hnew);
      [discriminate|].
    destruct (send (msgTooLarge link) _) as [r1 w1]. simpl in *.
    split; [auto|]. split; [now rewrite Hf|exact Hnew]. }
  destruct rf as [err|[data filename]].
  - destruct (send msgFailed _) as [r1 w1] eqn:E1.
    apply send_spec in E1 as (Hn & Hf & _ & Ha). simpl in *.
    split; [auto|]. split; [now rewrite Hf|].
    eexists. split; [rewrite Ha, <- app_assoc; reflexivity|].
    apply caches_on_row_texts. intros range fid Hin. simpl in Hin. set_solver.
  - destruct (zipAndSend_spec d docName data filename id (set_net n2 (set_net n1 w)))
      as (Hn & Hf & Hnew).
    split; [auto|]. split; [exact Hf|exact Hnew].
Qed.


Lemma finish_spec (statusMsg : bool) (w : World) :
  let w' := if statusMsg then delete_status w else w in
  net w' = net w /\ files w' = files w /\
  acts w' = acts w ++ (if statusMsg then [Deleted] else []).
Proof. destruct statusMsg; simpl; [auto|]. now rewrite app_nil_r. Qed.

(** The three facts about a run of [runProxyArchive] that the theorems
    below state one by one. *)
Lemma runProxyArchive_spec (yandex : option YandexDownloader) (categoryID : gostring)
    (idx : Z) (statusMsg : bool) (id : gostring) (w : World) :
  let w' := runProxyArchive yandex categoryID idx statusMsg id w in
  (absent (Join TempDir (str "single_" ++ id)) (files w) ->
   absent (Join TempDir (str "single_" ++ id)) (files w')) /\
  (net w' <> net w ->
   exists y docs d,
     yandex = Some y /\
     fst (GetDocumentsByCategory categoryID (sheet w)) = inr docs /\
     0 <= idx /\ docs !! Z.to_nat idx = Some d /\
     FileID d = [] /\
     isYandexDiskURL (TrimSpace (Ссылка d)) = true /\
     Main.minFreeBytes <= Main.getFreeSpaceBytes windows (disk (files w))) /\
  (forall range fileID,
     Updated range fileID ∈ acts w' ->
     Updated range fileID ∈ acts w \/
     exists docs d,
       fst (GetDocumentsByCategory categoryID (sheet w)) = inr docs /\
       0 <= idx /\ docs !! Z.to_nat idx = Some d /\
       FileID d = [] /\
       range = fileIDRange (SheetRow d) /\ fileID <> [] /\
       exists zipPath name caption file,
         Sent (DocumentFromDisk zipPath name caption) file ∈ acts w').
Proof.
  unfold runProxyArchive. cbv zeta.
  assert (Hquiet : forall w0 : World,
    net w0 = net w -> files w0 = files w ->
    (forall a, a ∈ acts w0 -> a ∈ acts w \/ exists what, a = Sent what None) ->
    let w' := if statusMsg then delete_status w0 else w0 in
    (absent (Join TempDir (str "single_" ++ id)) (files w) ->
     absent (Join TempDir (str "single_" ++ id)) (files w')) /\
    (net w' <> net w ->
     exists y docs d,
       yandex = Some y /\
       fst (GetDocumentsByCategory categoryID (sheet w)) = inr docs /\
       0 <= idx /\ docs !! Z.to_nat idx = Some d /\
       FileID d = [] /\
       isYandexDiskURL (TrimSpace (Ссылка d)) = true /\
       Main.minFreeBytes <= Main.getFreeSpaceBytes windows (disk (files w))) /\
    (forall range fileID,
       Updated range fileID ∈ acts w' ->
       Updated range fileID ∈ acts w \/
       exists docs d,
         fst (GetDocumentsByCategory categoryID (sheet w)) = inr docs /\
         0 <= idx /\ docs !! Z.to_nat idx = Some d /\
         FileID d = [] /\
         range = fileIDRange (SheetRow d) /\ fileID <> [] /\
         exists zipPath name caption file,
           Sent (DocumentFromDisk zipPath name caption) file ∈ acts w')).
  { intros w0 Hn Hf Ha.
    destruct (finish_spec statusMsg w0) as (Hn' & Hf' & Ha').
    cbv zeta in Hn', Hf', Ha' |- *.
    split; [now rewrite Hf', Hf|]. split; [intros Hne; now rewrite Hn', Hn in Hne|].
    intros range fid Hin. left. rewrite Ha' in Hin.
    apply elem_of_app in Hin as [Hin|Hin].
    - apply Ha in Hin as [Hin|[what Hin]]; [exact Hin|discriminate].
    - destruct statusMsg; [|now apply elem_of_nil in Hin].
      apply list_elem_of_singleton in Hin. discriminate. }
  assert (Hsent : forall what (w0 : World),
    net w0 = net w -> files w0 = files w -> acts w0 = acts w ->
    (forall p name cap, what <> DocumentFromDisk p name cap) ->
    let w1 := snd (send what w0) in
    net w1 = net w /\ files w1 = files w /\
    (forall a, a ∈ acts w1 -> a ∈ acts w \/ exists what, a = Sent what None)).
  { intros what w0 Hn Hf Ha Hw. destruct (send what w0) as [r1 w1] eqn:E1.
    apply send_spec in E1 as (Hn1 & Hf1 & _ & Ha1). simpl.
    split; [congruence|]. split; [congruence|].
    intros a Hin. rewrite Ha1, Ha in Hin. apply elem_of_app in Hin as [Hin|Hin]; [now left|].
    apply list_elem_of_singleton in Hin. right. subst a.
    destruct what; eauto. now destruct (Hw zipPath fileName caption). }
  destruct (getDocuments categoryID w) as [rd w0] eqn:Ed.
  apply getDocuments_spec in Ed as (Hn0 & Hf0 & Ha0 & Hrd).
  assert (Ha0' : forall a, a ∈ acts w0 -> a ∈ acts w \/ exists what, a = Sent what None)
    by (intros a Hin; left; now rewrite <- Ha0).
  destruct rd as [c|docs]; [now apply Hquiet|].
  destruct ((idx <? 0) || (idx >=? Z.of_nat (length docs))) eqn:Ei; [now apply Hquiet|].
  apply orb_false_elim in Ei as [Ei _].
  destruct (docs !! Z.to_nat idx) as [d|] eqn:Edoc; [|now apply Hquiet].
  destruct (is_empty (TrimSpace (Ссылка d))) eqn:El; [now apply Hquiet|].
  apply is_empty_false in El.
  set (docName := if is_empty (TrimSpace (Название d)) then str "document"
                  else TrimSpace (Название d)).
  destruct (negb (is_empty (FileID d))) eqn:Efid.
  { destruct (Hsent (DocumentByID (FileID d) (sanitizeZipName docName ++ str ".zip")
                       (ustr "Файл: " ++ docName)) w0) as (H1 & H2 & H3);
      [assumption..|discriminate|].
    destruct (send _ w0) as [r1 w1]. now apply Hquiet. }
  apply negb_false_iff in Efid. destruct (FileID d) as [|? ?] eqn:Efid'; [|discriminate].
  rewrite Hf0.
  destruct (_ <? Main.minFreeBytes) eqn:Efree.
  { destruct (Hsent (msgLowSpace (TrimSpace (Ссылка d))) w0) as (H1 & H2 & H3);
      [assumption..|discriminate|].
    destruct (send _ w0) as [r1 w1]. now apply Hquiet. }
  apply Z.ltb_ge in Efree.
  destruct yandex as [y|].
  2:{ destruct (Hsent (msgByLink (TrimSpace (Ссылка d))) w0) as (H1 & H2 & H3);
        [assumption..|discriminate|].
      destruct (send _ w0) as [r1 w1]. now apply Hquiet. }
  destruct (fetchAndSend_spec y d docName (TrimSpace (Ссылка d)) id w0)
    as (Hnet & Habs & new & Hacts & Hrow).
  set (wF := fetchAndSend y d docName (TrimSpace (Ссылка d)) id w0) in *.
  destruct (finish_spec statusMsg wF) as (Hn' & Hf' & Ha').
  cbv zeta in Hn', Hf', Ha' |- *. rewrite Hf0 in Habs.
  split; [now rewrite Hf'|]. split.
  - intros Hne. rewrite Hn', <- Hn0 in Hne. exists y, docs, d.
    rewrite <- Hrd. repeat split; auto; [lia|].
    rewrite <- TrimSpace_idem. apply Hnet; [exact Hne|]. now rewrite TrimSpace_idem.
  - intros range fid Hin. rewrite Ha', Hacts, Ha0 in Hin.
    apply elem_of_app in Hin as [Hin|Hin].
    + apply elem_of_app in Hin as [Hin|Hin]; [now left|]. right.
      destruct (Hrow range fid Hin) as (Hr & Hfid & zp & nm & cap & file & Hs).
      exists docs, d. rewrite <- Hrd. repeat split; auto; [lia|].
      exists zp, nm, cap, file. rewrite Ha', Hacts.
      apply elem_of_app. left. apply elem_of_app. now right.
    + destruct statusMsg; [|now apply elem_of_nil in Hin].
      apply list_elem_of_singleton in Hin. discriminate.
Qed.

(** X14. No workspace outlives [runProxyArchive]: when nothing is at the
    workspace [single_<id>] before the run, nothing is at it or below it
    after the run, on every path through the handler: the builder removes
    it when it fails, and the handler removes it when the function returns,
    whether the archive could be sent or not. *)
Theorem runProxyArchive_workspace_gone (yandex : option YandexDownloader)
    (categoryID : gostring) (idx : Z) (statusMsg : bool) (id : gostring) (w : World) :
  absent (Join TempDir (str "single_" ++ id)) (files w) ->
  absent (Join TempDir (str "single_" ++ id))
         (files (runProxyArchive yandex categoryID idx statusMsg id w)).
Proof. apply runProxyArchive_spec. Qed.

(** X15. [runProxyArchive] goes to the network only when it has to: if
    the state of the HTTP client or its log changed, then the downloader is
    there, the documents were read and the index names one of them, this
    document has no cached file identifier, its trimmed link is a Yandex
    Disk link, and the free space is not below [minFreeBytes]. *)
Theorem runProxyArchive_network (yandex : option YandexDownloader)
    (categoryID : gostring) (idx : Z) (statusMsg : bool) (id : gostring) (w : World) :
  net (runProxyArchive yandex categoryID idx statusMsg id w) <> net w ->
  exists y docs d,
    yandex = Some y /\
    fst (GetDocumentsByCategory categoryID (sheet w)) = inr docs /\
    0 <= idx /\ docs !! Z.to_nat idx = Some d /\
    FileID d = [] /\
    isYandexDiskURL (TrimSpace (Ссылка d)) = true /\
    Main.minFreeBytes <= Main.getFreeSpaceBytes windows (disk (files w)).
Proof. apply runProxyArchive_spec. Qed.

(** X16. [runProxyArchive] writes a file identifier only to the row of
    the document it was asked for: an update made during the run goes to
    column E of the sheet row that the document carries, the document had
    no identifier before, the identifier written is not empty, and a
    document was sent from the disk during the run. *)
Theorem runProxyArchive_caches_on_row (yandex : option YandexDownloader)
    (categoryID : gostring) (idx : Z) (statusMsg : bool) (id : gostring) (w : World)
    (range fileID : gostring) :
  Updated range fileID ∈ acts (runProxyArchive yandex categoryID idx statusMsg id w) ->
  Updated range fileID ∈ acts w \/
  exists docs d,
    fst (GetDocumentsByCategory categoryID (sheet w)) = inr docs /\
    0 <= idx /\ docs !! Z.to_nat idx = Some d /\
    FileID d = [] /\
    range = fileIDRange (SheetRow d) /\ fileID <> [] /\
    exists zipPath name caption file,
      Sent (DocumentFromDisk zipPath name caption) file
      ∈ acts (runProxyArchive yandex categoryID idx statusMsg id w).
Proof. apply runProxyArchive_spec. Qed.

End HandlerFacts.

(** ** The bulk handler *)

Section BulkHandlerFacts.
Import Yandex Downloader Sheets Handlers.
Context {P : Platform} {T : Transport} {F : Fetcher} {S : Service} {B : Bot}.

Lemma BulkDownloadAndZip_error_absent (yandex : option YandexDownloader)
    (items : list BulkItem) (categoryName id : gostring)
    (maxArchiveBytes minFreeBytes : Z) (w w' : Downloader.World) (e : error) :
  absent (Join TempDir (str "bulk_" ++ id)) w ->
  BulkDownloadAndZip yandex items categoryName maxArchiveBytes minFreeBytes id w
  = (inl e, w') ->
  absent (Join TempDir (str "bulk_" ++ id)) w'.
Proof.
  intros Ha E.
  destruct yandex as [y|]; [|simpl in E; now inversion E; subst].
  destruct items as [|it0 rest0] eqn:Eitems; [simpl in E; now inversion E; subst|].
  rewrite <- Eitems in *.
  assert (Hne : items <> []) by (rewrite Eitems; discriminate).
  destruct (Main.getFreeSpaceBytes windows (disk w) <? to_uint64 minFreeBytes) eqn:Efree.
  { unfold BulkDownloadAndZip in E. rewrite Eitems in E. cbv zeta in E.
    rewrite Efree in E. now inversion E; subst. }
  destruct (os_MkdirAll (Join TempDir (str "bulk_" ++ id)) w) as [[err|] w1] eqn:E1.
  - pose proof (os_MkdirAll_fail _ _ _ _ E1) as Hfs.
    unfold BulkDownloadAndZip in E. rewrite Eitems in E. cbv zeta in E.
    rewrite Efree, E1 in E. inversion E; subst.
    intros p Hp. rewrite Hfs. now apply Ha.
  - exact (proj1 (BulkDownloadAndZip_error_cleanup _ _ _ _ _ _ _ _ _ _ Hne Efree E1 E)).
Qed.

Lemma BulkDownloadAndZip_dir (yandex : option YandexDownloader)
    (items : list BulkItem) (categoryName id : gostring)
    (maxArchiveBytes minFreeBytes : Z) (w w' : Downloader.World) (zipPath bulkDir : path) :
  BulkDownloadAndZip yandex items categoryName maxArchiveBytes minFreeBytes id w
  = (inr (zipPath, bulkDir), w') ->
  bulkDir = Join TempDir (str "bulk_" ++ id) /\
  zipPath = bulkDir ++ [sanitizeCategoryForZip categoryName ++ str ".zip"].
Proof.
  intros E.
  destruct (zipName_plain categoryName) as (Hsep & Hne & Hdot & Hdd & Hzip).
  cbv zeta in Hsep, Hne, Hdot, Hdd, Hzip.
  rewrite <- (Join_name _ _ Hsep Hne Hdot Hdd).
  unfold BulkDownloadAndZip in E. cbv zeta in E.
  apply streq_false in Hzip. rewrite Hzip in E.
  destruct yandex as [y|]; [|discriminate].
  destruct items as [|it0 rest0]; [discriminate|].
  destruct (_ <? _); [discriminate|].
  destruct (os_MkdirAll _ w) as [[err|] w1]; [discriminate|].
  destruct (bulkItems _ _ _ _ _ _ w1) as [[err|st] w2]; [discriminate|].
  destruct (os_Create _ w2) as [[err|] w3]; [discriminate|].
  destruct (zipPaths _ _ _ _ w3) as [[[err|] zw] w4]; [discriminate|].
  destruct (zw_Close _ zw w4) as [[err|] w5]; [destruct (file_Close _ w5); discriminate|].
  destruct (file_Close _ w5) as [[err|] w6]; [discriminate|].
  inversion E; subst. auto.
Qed.

Section WithLaws.
Context {L : FetcherLaws}.

(** The archive of a successful bulk run: complete, with the names that
    [assignNames] gives. *)
Lemma BulkDownloadAndZip_archive (yandex : option YandexDownloader)
    (items : list BulkItem) (categoryName id : gostring)
    (maxArchiveBytes minFreeBytes : Z) (w w' : Downloader.World) (zipPath bulkDir : path) :
  BulkDownloadAndZip yandex items categoryName maxArchiveBytes minFreeBytes id w
  = (inr (zipPath, bulkDir), w') ->
  exists es, fs w' !! zipPath = Some (Archive es true) /\
             map fst es = assignNames 0 ∅ items.
Proof.
  intros E. unfold BulkDownloadAndZip in E. cbv zeta in E.
  destruct yandex as [y|]; [|discriminate].
  destruct items as [|it0 rest0] eqn:Eitems; [discriminate|]. rewrite <- Eitems in *.
  destruct (_ <? _); [discriminate|].
  set (baseDir := Join TempDir (str "bulk_" ++ id)) in E.
  destruct (os_MkdirAll baseDir w) as [e1 w1] eqn:E1.
  destruct e1 as [err|]; [discriminate|].
  apply os_MkdirAll_ok in E1 as (Hd & Hp & _).
  destruct (bulkItems _ _ _ _ _ _ w1) as [r w2] eqn:E2.
  destruct r as [err|st]; [discriminate|].
  apply bulkItems_ok in E2 as (_ & Hw & Hb); [|assumption..].
  cbn [used writtenPaths app] in Hw, Hb.
  destruct (os_Create _ w2) as [e3 w3] eqn:E3.
  destruct e3 as [err|]; [discriminate|].
  destruct (zipPaths _ _ _ _ w3) as [[e4 zw] w4] eqn:E4.
  destruct e4 as [err|]; [discriminate|].
  apply zipPaths_ok in E4 as [Hz _].
  destruct (zw_Close _ zw w4) as [e5 w5] eqn:E5.
  apply zw_Close_spec in E5 as (ok & Hfs & Hok).
  destruct e5 as [err|]; [destruct (file_Close _ w5); discriminate|].
  rewrite (Hok eq_refl) in Hfs.
  destruct (file_Close _ w5) as [e6 w6] eqn:E6. apply file_Close_fs in E6.
  destruct e6 as [err|]; [discriminate|].
  inversion E; subst zipPath bulkDir w'; clear E.
  exists zw. split; [rewrite E6, Hfs; apply lookup_insert_eq|].
  rewrite Hz, Hw, map_map. cbn [map app]. now apply map_Base_render.
Qed.

End WithLaws.

Lemma edit_spec (statusMsg : bool) text (w : World) :
  let w' := if statusMsg then edit text w else w in
  files w' = files w /\
  acts w' = acts w ++ (if statusMsg then [Edited text] else []).
Proof. destruct statusMsg; simpl; [auto|]. now rewrite app_nil_r. Qed.

Lemma omap_bulkItemOf_length (docs : list Document) :
  length (omap bulkItemOf docs) =
  length (filter (fun d => TrimSpace (Ссылка d) <> []) docs).
Proof.
  induction docs as [|d docs IH]; [reflexivity|].
  rewrite filter_cons. cbn [omap list_omap].
  destruct (bulkItemOf d) as [it|] eqn:Eb.
  - assert (Hl : TrimSpace (Ссылка d) <> []).
    { unfold bulkItemOf in Eb. cbv zeta in Eb.
      destruct (is_empty (TrimSpace (Ссылка d))) eqn:E; [discriminate|].
      now apply is_empty_false. }
    destruct (decide _) as [_|H]; [|contradiction]. simpl. now rewrite IH.
  - assert (Hl : TrimSpace (Ссылка d) = []).
    { unfold bulkItemOf in Eb. cbv zeta in Eb.
      destruct (TrimSpace (Ссылка d)); [reflexivity|discriminate]. }
    destruct (decide _) as [H|_]; [contradiction|]. exact IH.
Qed.

(** What a run of [runBulkDownload] leaves and sends. *)
Lemma runBulkDownload_spec (yandex : option YandexDownloader) (categoryID : gostring)
    (statusMsg : bool) (id : gostring) (w : World) :
  let w' := runBulkDownload yandex categoryID statusMsg id w in
  (absent (Join TempDir (str "bulk_" ++ id)) (files w) ->
   absent (Join TempDir (str "bulk_" ++ id)) (files w')) /\
  (forall (L : FetcherLaws) zipPath name caption file,
     Sent (DocumentFromDisk zipPath name caption) file ∈ acts w' ->
     Sent (DocumentFromDisk zipPath name caption) file ∈ acts w \/
     exists docs es categoryName,
       fst (GetDocumentsByCategory categoryID (sheet w)) = inr docs /\
       file = Some (Archive es true) /\
       map fst es = assignNames 0 ∅ (omap bulkItemOf docs) /\
       length es = length (filter (fun d => TrimSpace (Ссылка d) <> []) docs) /\
       name = sanitizeCategoryForZip categoryName ++ str ".zip" /\
       zipPath = Join TempDir (str "bulk_" ++ id) ++ [name]).
Proof.
  unfold runBulkDownload. cbv zeta.
  assert (Hquiet : forall (w0 : World) text,
    files w0 = files w ->
    (forall a, a ∈ acts w0 -> a ∈ acts w \/ exists e c, a = Logged e c) ->
    let w' := if statusMsg then edit text w0 else w0 in
    (absent (Join TempDir (str "bulk_" ++ id)) (files w) ->
     absent (Join TempDir (str "bulk_" ++ id)) (files w')) /\
    (forall (L : FetcherLaws) zipPath name caption file,
       Sent (DocumentFromDisk zipPath name caption) file ∈ acts w' ->
       Sent (DocumentFromDisk zipPath name caption) file ∈ acts w \/
       exists docs es categoryName,
         fst (GetDocumentsByCategory categoryID (sheet w)) = inr docs /\
         file = Some (Archive es true) /\
         map fst es = assignNames 0 ∅ (omap bulkItemOf docs) /\
         length es = length (filter (fun d => TrimSpace (Ссылка d) <> []) docs) /\
         name = sanitizeCategoryForZip categoryName ++ str ".zip" /\
         zipPath = Join TempDir (str "bulk_" ++ id) ++ [name])).
  { intros w0 text Hf Ha.
    destruct (edit_spec statusMsg text w0) as (Hf' & Ha'). cbv zeta in Hf', Ha' |- *.
    split; [now rewrite Hf', Hf|].
    intros L zipPath name caption file Hin. left. rewrite Ha' in Hin.
    apply elem_of_app in Hin as [Hin|Hin].
    - apply Ha in Hin as [Hin|(e & c & Hin)]; [exact Hin|discriminate].
    - destruct statusMsg; [|now apply elem_of_nil in Hin].
      apply list_elem_of_singleton in Hin. discriminate. }
  destruct (getDocuments categoryID w) as [rd w0] eqn:Ed.
  apply getDocuments_spec in Ed as (Hn0 & Hf0 & Ha0 & Hrd).
  destruct rd as [c|docs].
  { apply Hquiet; [exact Hf0|]. simpl. intros a Hin. rewrite Ha0 in Hin.
    apply elem_of_app in Hin as [Hin|Hin]; [now left|].
    apply list_elem_of_singleton in Hin. right. eauto. }
  destruct (length (omap bulkItemOf docs) =? 0)%nat.
  { apply Hquiet; [exact Hf0|]. intros a Hin. left. now rewrite <- Ha0. }
  destruct (app_GetCategories (bot w0)) as [cats b] eqn:Ec.
  set (categoryName := if is_empty match cats with
                                   | Some cats => categoryNameOf cats categoryID
                                   | None => []
                                   end
                       then str "Archive"
                       else match cats with
                            | Some cats => categoryNameOf cats categoryID
                            | None => []
                            end).
  cbn [files].
  destruct (BulkDownloadAndZip yandex (omap bulkItemOf docs) categoryName telegramMaxBytes
              Main.minFreeBytes id (files w0)) as [rz f] eqn:Ez.
  rewrite Hf0 in Ez.
  assert (Herr : forall e, rz = inl e -> absent (Join TempDir (str "bulk_" ++ id)) (files w) ->
                           absent (Join TempDir (str "bulk_" ++ id)) f).
  { intros e -> Hab. eapply BulkDownloadAndZip_error_absent; eassumption. }
  destruct (err_is rz ErrArchiveTooLarge) eqn:Et.
  { apply err_is_true in Et.
    destruct (edit_spec statusMsg
      (ustr "⚠️ Общий размер файлов превышает 50 МБ. Пожалуйста, скачайте файлы по отдельности.")
      (set_files f {| net := net w0; files := files w0; sheet := sheet w0; bot := b;
                      acts := acts w0 |})) as (Hf' & Ha').
    cbv zeta in Hf', Ha' |- *. split; [rewrite Hf'; simpl; now apply (Herr _ Et)|].
    intros L zipPath name caption file Hin. left. rewrite Ha' in Hin. simpl in Hin.
    apply elem_of_app in Hin as [Hin|Hin]; [now rewrite <- Ha0|].
    destruct statusMsg; [|now apply elem_of_nil in Hin].
    apply list_elem_of_singleton in Hin. discriminate. }
  clear Et. destruct rz as [err|[zipPath bulkDir]].
  { destruct (edit_spec statusMsg (ustr "Не удалось собрать архив.")
      (logError (FromProgram err) (str "BulkDownloadAndZip")
         (set_files f {| net := net w0; files := files w0; sheet := sheet w0; bot := b;
                         acts := acts w0 |}))) as (Hf' & Ha').
    cbv zeta in Hf', Ha' |- *. split; [rewrite Hf'; simpl; now apply (Herr _ eq_refl)|].
    intros L zipPath name caption file Hin. left. rewrite Ha' in Hin. simpl in Hin.
    apply elem_of_app in Hin as [Hin|Hin].
    - apply elem_of_app in Hin as [Hin|Hin]; [now rewrite <- Ha0|].
      apply list_elem_of_singleton in Hin. discriminate.
    - destruct statusMsg; [|now apply elem_of_nil in Hin].
      apply list_elem_of_singleton in Hin. discriminate. }
  clear Herr.
  destruct (BulkDownloadAndZip_dir _ _ _ _ _ _ _ _ _ _ Ez) as [Hdir Hzip].
  destruct (send (DocumentFromDisk zipPath (Base (render zipPath))
                    (ustr "Архив: " ++ categoryName)) _) as [rm w1] eqn:E1.
  apply send_spec in E1 as (_ & Hf1 & _ & Ha1). simpl in Hf1, Ha1.
  set (w2 := match rm with
             | inl c => _
             | inr _ => _
             end).
  assert (H2 : exists tail, acts w2 = acts w1 ++ tail /\
                 forall a, a ∈ tail -> (exists e c, a = Logged e c) \/ exists t, a = Edited t).
  { subst w2. destruct rm as [c|fid].
    - destruct (edit_spec statusMsg (ustr "Не удалось отправить архив.")
                  (logError (FromBot c) (str "BulkDownload Send") w1)) as (_ & Ha').
      cbv zeta in Ha'. eexists. split; [rewrite Ha'; simpl; rewrite <- app_assoc; reflexivity|].
      intros a Hin. apply elem_of_cons in Hin as [->|Hin]; [left; eauto|].
      destruct statusMsg; [|now apply elem_of_nil in Hin].
      apply list_elem_of_singleton in Hin. right. eauto.
    - destruct (edit_spec statusMsg (ustr "📦 Архив собран и отправлен ниже.") w1)
        as (_ & Ha').
      cbv zeta in Ha'. eexists. split; [exact Ha'|].
      intros a Hin. destruct statusMsg; [|now apply elem_of_nil in Hin].
      apply list_elem_of_singleton in Hin. right. eauto. }
  destruct H2 as (tail & Ha2 & Htail).
  simpl. split; [intros _; rewrite Hdir; apply os_RemoveAll_absent|].
  intros L zp name caption file Hin. rewrite Ha2, Ha1, Ha0 in Hin.
  apply elem_of_app in Hin as [Hin|Hin].
  2:{ apply Htail in Hin as [(e & c & Hin)|(t & Hin)]; discriminate. }
  apply elem_of_app in Hin as [Hin|Hin]; [now left|]. right.
  apply list_elem_of_singleton in Hin. inversion Hin; subst zp name caption file.
  destruct (BulkDownloadAndZip_archive _ _ _ _ _ _ _ _ _ _ Ez) as (es & Hes & Hnames).
  exists docs, es, categoryName. rewrite <- Hrd. split; [reflexivity|].
  split; [exact Hes|]. split; [exact Hnames|]. split.
  - rewrite <- omap_bulkItemOf_length.
    rewrite <- (assignNames_length 0 ∅ (omap bulkItemOf docs)), <- Hnames.
    now rewrite length_map.
  - destruct (zipName_plain categoryName) as (Hsep & Hne & _).
    cbv zeta in Hsep, Hne. rewrite Hzip, Hdir.
    rewrite (Base_render_snoc _ _ Hsep Hne). auto.
Qed.

(** X17. No workspace outlives [runBulkDownload]: when nothing is at the
    workspace [bulk_<id>] before the run, nothing is at it or below it
    after the run, whether the archive was built and sent or not. *)
Theorem runBulkDownload_workspace_gone (yandex : option YandexDownloader)
    (categoryID : gostring) (statusMsg : bool) (id : gostring) (w : World) :
  absent (Join TempDir (str "bulk_" ++ id)) (files w) ->
  absent (Join TempDir (str "bulk_" ++ id))
         (files (runBulkDownload yandex categoryID statusMsg id w)).
Proof. apply runBulkDownload_spec. Qed.


End BulkHandlerFacts.

(** ** The items of the bulk handler *)

Section ItemFacts.
Import Yandex Downloader Sheets Handlers.
Context {B : Bot}.

Lemma omap_keep_all (s : gostring) :
  Forall (fun r => rune_in bad r = false) s ->
  omap (fun r => if rune_in bad r then None else Some r) s = s.
Proof.
  induction 1 as [|r s Hr _ IH]; [reflexivity|].
  cbn [omap list_omap]. rewrite Hr. simpl. now f_equal.
Qed.

(** [sanitizeZipName] returns a name that is not empty, holds no forbidden
    character and starts with no white space. *)
Lemma sanitizeZipName_spec (s : gostring) :
  exists c t, sanitizeZipName s = c :: t /\ IsSpace c = false /\
              Forall (fun r => rune_in bad r = false) (c :: t).
Proof.
  unfold sanitizeZipName. cbv zeta.
  set (out := Map _ s).
  destruct (is_empty (TrimSpace out)) eqn:E.
  - exists 100, (str "ocument"). split; [reflexivity|]. split; [reflexivity|].
    repeat constructor.
  - destruct (TrimSpace out) as [|c t] eqn:Et; [discriminate|].
    exists c, t. split; [reflexivity|]. split.
    + eapply TrimFunc_head_false. exact Et.
    + apply Forall_forall. intros r Hr. rewrite <- Et in Hr.
      apply TrimSpace_elem in Hr. unfold out, Map in Hr.
      apply list_elem_of_omap in Hr as (x & _ & Hx).
      destruct (rune_in bad x) eqn:Eb; [discriminate|]. now inversion Hx; subst.
Qed.

Lemma sanitizeBulkFilename_keeps (c : rune) (t x : gostring) :
  IsSpace c = false -> Forall (fun r => rune_in bad r = false) (c :: t) ->
  sanitizeBulkFilename ((c :: t) ++ x) <> [].
Proof.
  intros Hc Hall. unfold sanitizeBulkFilename, Map. cbv zeta.
  rewrite omap_app, (omap_keep_all _ Hall). simpl.
  now apply TrimFunc_cons_nonempty.
Qed.

(** X19. The items that [runBulkDownload] builds: their URLs are the
    trimmed links of the documents that are not empty, in the order of the
    documents; the name of each item survives the sanitizer of the bulk
    builder with something left, so the builder never falls back to
    [file_<index>] for an item of the handler. [sanitizeZipName] never
    returns the empty string nor a forbidden character. *)
Theorem bulkItemOf_named (docs : list Document) :
  map URL (omap bulkItemOf docs) =
    filter (fun l => l <> []) (map (fun d => TrimSpace (Ссылка d)) docs) /\
  (forall it, it ∈ omap bulkItemOf docs ->
     URL it <> [] /\
     sanitizeBulkFilename (Filename it) <> [] /\
     forall i, baseFor i it = sanitizeBulkFilename (Filename it)) /\
  (forall s, sanitizeZipName s <> [] /\
             forall r, r ∈ sanitizeZipName s -> rune_in bad r = false).
Proof.
  split; [|split].
  - induction docs as [|d docs IH]; [reflexivity|].
    cbn [omap list_omap map]. rewrite filter_cons.
    unfold bulkItemOf at 1. cbv zeta.
    destruct (is_empty (TrimSpace (Ссылка d))) eqn:E.
    + destruct (TrimSpace (Ссылка d)); [|discriminate].
      destruct (decide _) as [H|_]; [congruence|exact IH].
    + apply is_empty_false in E. destruct (decide _) as [_|H]; [|contradiction].
      cbn [map URL]. now rewrite IH.
  - intros it Hin. apply list_elem_of_omap in Hin as (d & _ & Hd).
    unfold bulkItemOf in Hd. cbv zeta in Hd.
    destruct (is_empty (TrimSpace (Ссылка d))) eqn:E; [discriminate|].
    apply is_empty_false in E.
    destruct (sanitizeZipName_spec (Название d)) as (c & t & Hn & Hc & Hall).
    rewrite Hn in Hd. cbn [is_empty] in Hd.
    assert (Hname : exists x, Filename it = (c :: t) ++ x /\ URL it = TrimSpace (Ссылка d)).
    { destruct (negb (Contains (Base (c :: t)) (str "."))).
      - destruct (url_Path (TrimSpace (Ссылка d))) as [p|].
        + destruct (negb (is_empty (Ext p))); inversion Hd; subst; simpl; eauto.
          exists []. now rewrite app_nil_r.
        + inversion Hd; subst; simpl. exists []. now rewrite app_nil_r.
      - inversion Hd; subst; simpl. exists []. now rewrite app_nil_r. }
    destruct Hname as (x & Hf & Hu). rewrite Hu, Hf.
    pose proof (sanitizeBulkFilename_keeps c t x Hc Hall) as Hne.
    split; [exact E|]. split; [exact Hne|].
    intros i. unfold baseFor. cbv zeta. rewrite Hf.
    destruct (sanitizeBulkFilename ((c :: t) ++ x)); [congruence|reflexivity].
  - intros s. destruct (sanitizeZipName_spec s) as (c & t & -> & _ & Hall).
    split; [discriminate|]. now apply Forall_forall.
Qed.

End ItemFacts.

(** ** The schema migration *)

Section MigrationFacts.
Import Sheets.
Context {S : Service}.

Lemma missingHeaders_elem (expected : list gostring) :
  forall (has : gset gostring) h,
    h ∈ missingHeaders has expected <-> h ∈ expected /\ h ∉ has.
Proof.
  induction expected as [|x rest IH]; intros has h; simpl.
  - split; [intros H; now apply elem_of_nil in H|intros [H _]; now apply elem_of_nil in H].
  - destruct (bool_decide (x ∈ has)) eqn:Ex.
    + apply bool_decide_eq_true in Ex. rewrite IH, elem_of_cons. split.
      * intros [H1 H2]. auto.
      * intros [[->|H1] H2]; [contradiction|auto].
    + apply bool_decide_eq_false in Ex. rewrite !elem_of_cons, IH. split.
      * intros [->|[H1 H2]]; [auto|]. split; [auto|set_solver].
      * intros [[->|H1] H2]; [auto|].
        destruct (decide (h = x)) as [->|Hne]; [auto|]. right. split; [auto|set_solver].
Qed.

Lemma missingHeaders_NoDup (expected : list gostring) :
  forall has : gset gostring, NoDup (missingHeaders has expected).
Proof.
  induction expected as [|x rest IH]; intros has; simpl; [constructor|].
  destruct (bool_decide (x ∈ has)); [apply IH|].
  constructor; [|apply IH]. rewrite missingHeaders_elem. set_solver.
Qed.

Lemma headers_trimmed :
  Forall (fun th => Forall (fun h => TrimSpace h = h) (snd th)) sheetHeaders.
Proof. vm_compute. repeat constructor. Qed.

(** X20. The migration of [ensureSheetColumns] only appends, and once: the
    headers written are the expected headers that the first row lacks,
    each once and in the order of the table; nothing is written exactly
    when the first row has every expected header; the range written is
    in row 1, starts at the column right after the cells read and has one
    column for each header written, and both column letters read back as
    these column numbers; and for expected headers free of outer white
    space, as all of [sheetHeaders] are, the first row with the written
    headers appended needs no migration. *)
Theorem migration_appends (title : gostring) (expected : list gostring)
    (values : list (list (cell float64 other))) :
  let existing := existingHeaders values in
  let toAdd := missingHeaders (list_to_set existing) expected in
  NoDup toAdd /\
  (forall h, h ∈ toAdd <-> h ∈ expected /\ h ∉ existing) /\
  (migration title expected values = None <-> forall h, h ∈ expected -> h ∈ existing) /\
  (forall range hs,
     migration title expected values = Some (range, hs) ->
     hs = toAdd /\
     range = title ++ str "!" ++ colToLetter (Z.of_nat (length existing) + 1) ++ str "1:"
             ++ colToLetter (Z.of_nat (length existing) + Z.of_nat (length toAdd))
             ++ str "1" /\
     letterToCol (colToLetter (Z.of_nat (length existing) + 1))
       = Z.of_nat (length existing) + 1 /\
     letterToCol (colToLetter (Z.of_nat (length existing) + Z.of_nat (length toAdd)))
       = Z.of_nat (length existing) + Z.of_nat (length toAdd)) /\
  (Forall (fun h => TrimSpace h = h) expected ->
   migration title expected ((hd [] values ++ map CellString toAdd) :: tl values) = None) /\
  Forall (fun th => Forall (fun h => TrimSpace h = h) (snd th)) sheetHeaders.
Proof.
  intros existing toAdd.
  assert (Hel : forall h, h ∈ toAdd <-> h ∈ expected /\ h ∉ existing).
  { intros h. unfold toAdd. rewrite missingHeaders_elem. set_solver. }
  assert (Hnone : forall vs,
            migration title expected vs = None <->
            forall h, h ∈ expected -> h ∈ existingHeaders vs).
  { intros vs. unfold migration. cbv zeta.
    destruct (missingHeaders (list_to_set (existingHeaders vs)) expected) as [|x l] eqn:Em.
    - simpl. split; [intros _|reflexivity]. intros h Hh.
      destruct (decide (h ∈ existingHeaders vs)) as [Hin|Hout]; [exact Hin|].
      assert (Hm : h ∈ missingHeaders (list_to_set (existingHeaders vs)) expected)
        by (apply missingHeaders_elem; set_solver).
      rewrite Em in Hm. now apply elem_of_nil in Hm.
    - simpl. split; [discriminate|]. intros Hall. exfalso.
      assert (Hm : x ∈ missingHeaders (list_to_set (existingHeaders vs)) expected)
        by (rewrite Em; apply elem_of_cons; auto).
      apply missingHeaders_elem in Hm as [Hx Hnx]. apply Hall in Hx. set_solver. }
  split; [apply missingHeaders_NoDup|]. split; [exact Hel|]. split; [apply Hnone|].
  split; [|split; [|apply headers_trimmed]].
  - intros range hs E. unfold migration in E. cbv zeta in E. fold existing in E. fold toAdd in E.
    destruct (length toAdd =? 0)%nat eqn:El; [discriminate|].
    apply Nat.eqb_neq in El. inversion E; subst; clear E.
    split; [reflexivity|]. split.
    + assert (Hz : forall a b, a + 1 + b - 1 = a + b) by (intros; lia).
      rewrite Hz. reflexivity.
    + pose proof (fun n H => proj1 (colToLetter_spec (Z.to_nat n) n H (Nat.le_refl _))) as Hc.
      split; apply Hc; lia.
  - intros Htrim. apply Hnone. intros h Hh.
    assert (Hex : existingHeaders ((hd [] values ++ map CellString toAdd) :: tl values)
                  = existing ++ map (fun x => TrimSpace x) toAdd).
    { unfold existing, existingHeaders. rewrite map_app, map_map.
      destruct values; reflexivity. }
    rewrite Hex.
    assert (Hid : map (fun x => TrimSpace x) toAdd = toAdd).
    { rewrite <- (map_id toAdd) at 2. apply map_ext_in. intros a Ha.
      apply list_elem_of_In, Hel in Ha as [Ha _].
      rewrite Forall_forall in Htrim. now apply Htrim. }
    rewrite Hid. apply elem_of_app.
    destruct (decide (h ∈ existing)) as [Hin|Hout]; [left; exact Hin|].
    right. apply Hel. auto.
Qed.

Lemma chatIDsOf_fresh (rows : list (list (cell float64 other))) :
  forall (seen : gset Z) id, id ∈ chatIDsOf seen rows -> id ∉ seen.
Proof.
  induction rows as [|row rest IH]; intros seen id Hin; simpl in Hin.
  - now apply elem_of_nil in Hin.
  - destruct row as [|c row']; [now apply IH|].
    destruct (Sscan_int (strCell c)) as [x|]; [|now apply IH].
    destruct (bool_decide (x ∈ seen)) eqn:Ex; [now apply IH|].
    apply bool_decide_eq_false in Ex.
    apply elem_of_cons in Hin as [->|Hin]; [exact Ex|].
    apply IH in Hin. set_solver.
Qed.

Lemma chatIDsOf_NoDup (rows : list (list (cell float64 other))) :
  forall seen : gset Z, NoDup (chatIDsOf seen rows).
Proof.
  induction rows as [|row rest IH]; intros seen; simpl; [constructor|].
  destruct row as [|c row']; [apply IH|].
  destruct (Sscan_int (strCell c)) as [x|]; [|apply IH].
  destruct (bool_decide (x ∈ seen)); [apply IH|].
  constructor; [|apply IH]. intros Hin. apply chatIDsOf_fresh in Hin. set_solver.
Qed.

Lemma GetAllUserChatIDs_NoDup (st st' : SheetState) ids :
  GetAllUserChatIDs st = (inr ids, st') -> NoDup ids.
Proof.
  unfold GetAllUserChatIDs. destruct (Values_Get _ st) as [[c|rows] st0]; [discriminate|].
  intros E. inversion E; subst. apply chatIDsOf_NoDup.
Qed.

End MigrationFacts.

(** ** The range of [WriteSheetData] *)

Section WriteFacts.
Import Sheets.

Lemma stringOfRune_length n : length (stringOfRune n) = 1%nat.
Proof. unfold stringOfRune. cbv zeta. now destruct (_ && _). Qed.

Lemma colToLetter_long n : 26 < n -> (2 <= length (colToLetter n))%nat.
Proof.
  intros Hn. rewrite colToLetter_step by exact Hn. rewrite length_app. simpl.
  assert (Hq1 : 1 <= (n - 1) / 26) by (apply Z.div_le_lower_bound; lia).
  destruct (colToLetter ((n - 1) / 26)) as [|c l] eqn:E; [|simpl; lia].
  pose proof (proj1 (colToLetter_spec (Z.to_nat ((n - 1) / 26)) _ Hq1 (Nat.le_refl _))) as Hv.
  rewrite E in Hv. unfold letterToCol in Hv. simpl in Hv. lia.
Qed.

(** X24. The end column of [WriteSheetData] is one character whatever the
    width of the rows, and it is the letter that [colToLetter] gives to
    the last column exactly when the rows have between 1 and 26 cells:
    for wider rows the range does not name the last column written. *)
Theorem WriteSheetData_end_column (cols : Z) :
  0 <= cols <= max_int64 ->
  length (writeEndCol cols) = 1%nat /\
  (writeEndCol cols = colToLetter cols <-> 1 <= cols <= 26).
Proof.
  intros Hc. split; [apply stringOfRune_length|]. split.
  - intros E. destruct (Z_le_gt_dec cols 26) as [Hs|Hb].
    + destruct (Z.eq_dec cols 0) as [->|Hz]; [|lia].
      apply (f_equal (@length _)) in E. unfold writeEndCol in E.
      rewrite stringOfRune_length in E. vm_compute in E. discriminate.
    + apply (f_equal (@length _)) in E. unfold writeEndCol in E.
      rewrite stringOfRune_length in E. pose proof (colToLetter_long cols ltac:(lia)). lia.
  - intros Hn. rewrite colToLetter_small by exact Hn. unfold writeEndCol.
    rewrite (wrap64_small (65 + cols)) by (unfold min_int64, max_int64; lia).
    rewrite wrap64_small by (unfold min_int64, max_int64; lia).
    unfold stringOfRune. cbv zeta.
    replace ((65 + cols - 1 + 2 ^ 31) mod 2 ^ 32 - 2 ^ 31) with (65 + cols - 1)
      by (rewrite Z.mod_small; lia).
    destruct (0 <=? 65 + cols - 1) eqn:E1; [|lia].
    destruct (65 + cols - 1 <=? 1114111) eqn:E2; [|lia].
    destruct (55296 <=? 65 + cols - 1) eqn:E3; [lia|]. reflexivity.
Qed.

End WriteFacts.

(** ** The broadcast *)

Section BroadcastFacts.
Import Yandex Downloader Sheets Handlers.
Context {T : Transport} {F : Fetcher} {S : Service} {B : Bot}.

Lemma sentTos_app (a b : list Action) : sentTos (a ++ b) = sentTos a ++ sentTos b.
Proof. apply omap_app. Qed.

Lemma loggedOf_app (a b : list Action) : loggedOf (a ++ b) = loggedOf a ++ loggedOf b.
Proof. apply omap_app. Qed.

Lemma broadcast_spec text (ids : list Z) :
  forall (failed : Z) (w : World) failed' w',
    broadcast text ids failed w = (failed', w') ->
    exists new,
      acts w' = acts w ++ new /\
      sentTos new = map (fun id => (id, text)) ids /\
      failed' = failed + Z.of_nat (length (loggedOf new)) /\
      (length (loggedOf new) <= length ids)%nat /\
      (forall what file, Sent what file ∉ new).
Proof.
  induction ids as [|id rest IH]; intros failed w failed' w' E; simpl in E.
  - inversion E; subst. exists []. rewrite app_nil_r. repeat split; auto; [simpl; lia|].
    intros what file H. now apply elem_of_nil in H.
  - unfold sendTo in E. destruct (bot_SendTo id text (bot w)) as [r b].
    destruct r as [c|].
    + apply IH in E as (new & Ha & Hs & Hf & Hl & Hn). simpl in Ha.
      exists ([SentTo id text; Logged (FromBot c) (str "Send broadcast to " ++ Itoa id)] ++ new).
      split; [rewrite Ha, <- !app_assoc; reflexivity|].
      rewrite sentTos_app, loggedOf_app. cbn [sentTos loggedOf omap list_omap app length].
      rewrite Hs. split; [reflexivity|]. split; [lia|]. split; [simpl; lia|].
      intros what file H. simpl in H.
      apply elem_of_cons in H as [H|H]; [discriminate|].
      apply elem_of_cons in H as [H|H]; [discriminate|]. now apply Hn in H.
    + apply IH in E as (new & Ha & Hs & Hf & Hl & Hn). simpl in Ha.
      exists ([SentTo id text] ++ new).
      split; [rewrite Ha, <- !app_assoc; reflexivity|].
      rewrite sentTos_app, loggedOf_app. cbn [sentTos loggedOf omap list_omap app length].
      rewrite Hs. split; [reflexivity|]. split; [lia|]. split; [simpl; lia|].
      intros what file H. simpl in H.
      apply elem_of_cons in H as [H|H]; [discriminate|]. now apply Hn in H.
Qed.

(** X21. The broadcast of [onSend]: for a text that is not empty and a
    list of users that could be read, no chat is in the list twice, the
    text goes to each chat of the list once and in order, whether a send
    before it failed or not, and nothing else goes to a chat; the report
    sent last counts as errors the failures logged during the run, and
    the two numbers of the report add up to the number of chats. *)
Theorem onSend_broadcast (text : gostring) (w : World) (ids : list Z) (st : SheetState) :
  text <> [] ->
  GetAllUserChatIDs (sheet w) = (inr ids, st) ->
  NoDup ids /\
  exists new sent failed,
    acts (onSend text w) = acts w ++ new ++ [Sent (broadcastReport sent failed) None] /\
    sentTos new = map (fun id => (id, text)) ids /\
    failed = Z.of_nat (length (loggedOf new)) /\
    0 <= sent /\ sent + failed = Z.of_nat (length ids) /\
    (forall what file, Sent what file ∉ new).
Proof.
  intros Hne Eid. split; [eapply GetAllUserChatIDs_NoDup; exact Eid|].
  unfold onSend. apply is_empty_false in Hne. rewrite Hne, Eid.
  destruct (broadcast text ids 0 _) as [failed w1] eqn:Eb.
  apply broadcast_spec in Eb as (new & Ha & Hs & Hf & Hl & Hn). simpl in Ha.
  destruct (send _ w1) as [r w2] eqn:Es. apply send_spec in Es as (_ & _ & _ & Ha2).
  simpl. exists new, (Z.of_nat (length ids) - failed), failed.
  split; [rewrite Ha2, Ha, <- app_assoc; reflexivity|].
  split; [exact Hs|]. split; [lia|]. split; [lia|]. split; [lia|exact Hn].
Qed.

End BroadcastFacts.

(** ** The form and the routing of texts *)

Section TextFacts.
Import Handlers.

Lemma Split_no_sep (s : gostring) (c : rune) : Forall (fun l => c ∉ l) (Split s c).
Proof.
  induction s as [|x t IH]; simpl.
  - constructor; [apply not_elem_of_nil|constructor].
  - destruct (Z.eqb_spec x c) as [->|Hne].
    + constructor; [apply not_elem_of_nil|exact IH].
    + destruct (Split t c) as [|h r]; [repeat constructor; set_solver|].
      inversion IH; subst. constructor; [|assumption]. set_solver.
Qed.

Lemma imoParts_spec (text : gostring) :
  Forall (fun p => p <> [] /\ TrimSpace p = p /\ (10 ∉ p)) (imoParts text).
Proof.
  unfold imoParts. apply Forall_forall. intros p Hp.
  apply list_elem_of_omap in Hp as (l & Hl & Hp). cbv zeta in Hp.
  destruct (is_empty (TrimSpace l)) eqn:E; [discriminate|]. inversion Hp; subst.
  split; [now apply is_empty_false|]. split; [apply TrimSpace_idem|].
  intros Hin. apply TrimSpace_elem in Hin.
  pose proof (Split_no_sep text 10) as Hs. rewrite Forall_forall in Hs.
  now apply (Hs l Hl).
Qed.

Lemma JoinStrings_spec (parts : list gostring) :
  parts <> [] ->
  Forall (fun p => p <> [] /\ TrimSpace p = p /\ (10 ∉ p)) parts ->
  JoinStrings parts (str " ") <> [] /\ (10 ∉ JoinStrings parts (str " ")).
Proof.
  induction parts as [|p rest IH]; [congruence|]. intros _ Hall.
  inversion Hall as [|? ? (Hp & _ & Hn) Hrest]; subst.
  destruct rest as [|q rest']; [simpl; auto|].
  destruct (IH ltac:(discriminate) Hrest) as [IH1 IH2].
  change (JoinStrings (p :: q :: rest') (str " "))
    with (p ++ str " " ++ JoinStrings (q :: rest') (str " ")).
  split; [destruct p; [congruence|discriminate]|].
  rewrite !elem_of_app. intros [H|[H|H]]; [auto| |auto].
  apply list_elem_of_singleton in H. discriminate.
Qed.

(** X22. The form that [onIMOSubmit] stores: the form is refused exactly
    when the text has fewer than four lines that are not blank; otherwise
    the name, the phone and the position are the first three such lines,
    not empty, free of outer white space and of line feeds, and the source
    is the remaining such lines joined by one space, not empty and free
    of line feeds. *)
Theorem imoForm_fields (text : gostring) :
  (imoForm text = None <-> (length (imoParts text) < 4)%nat) /\
  (forall f, imoForm text = Some f ->
     (fio f <> [] /\ TrimSpace (fio f) = fio f /\ (10 ∉ fio f)) /\
     (phone f <> [] /\ TrimSpace (phone f) = phone f /\ (10 ∉ phone f)) /\
     (position f <> [] /\ TrimSpace (position f) = position f /\ (10 ∉ position f)) /\
     (source f <> [] /\ (10 ∉ source f)) /\
     imoParts text = fio f :: phone f :: position f :: drop 3 (imoParts text) /\
     source f = JoinStrings (drop 3 (imoParts text)) (str " ")).
Proof.
  pose proof (imoParts_spec text) as Hall. unfold imoForm.
  destruct (imoParts text) as [|a [|b [|c [|d rest]]]] eqn:Ep;
    try (split; [split; [simpl; lia|reflexivity]|discriminate]).
  split; [split; [discriminate|simpl; lia]|].
  intros f [= <-]. simpl.
  inversion Hall as [|? ? Ha H1]; subst. inversion H1 as [|? ? Hb H2]; subst.
  inversion H2 as [|? ? Hc H3]; subst.
  repeat split; try tauto; apply (JoinStrings_spec (d :: rest)); try discriminate; exact H3.
Qed.

(** X23. Who reaches the broadcast: when the text handler behind the
    middleware answers with the broadcast or with its usage line, the
    sender is an administrator or the text carries outer white space;
    a text that the middleware keeps for administrators reaches nothing
    for another sender; and the text broadcast is the trimmed text
    without its prefix [/send ], trimmed again. *)
Theorem handleText_guard (text : gostring) (isAdmin : bool) (state : gostring) :
  (forall arg, handleText text isAdmin state = Broadcast arg ->
               isAdmin = true \/ TrimSpace text <> text) /\
  (handleText text isAdmin state = Usage -> isAdmin = true \/ TrimSpace text <> text) /\
  (adminOnly text = true -> isAdmin = false -> handleText text isAdmin state = Nothing) /\
  (forall arg, onText text state = Broadcast arg ->
               HasPrefix (TrimSpace text) (str "/send ") = true /\
               arg = TrimSpace (TrimPrefix (TrimSpace text) (str "/send "))).
Proof.
  split; [|split; [|split]].
  - intros arg E. destruct (decide (TrimSpace text = text)) as [Ht|Ht]; [|now right].
    left. unfold handleText, middleware in E.
    destruct (adminOnly text) eqn:Ea.
    + destruct isAdmin; [reflexivity|discriminate].
    + exfalso. unfold onText in E. cbv zeta in E. rewrite Ht in E.
      unfold adminOnly in Ea. apply orb_false_elim in Ea as [Ea _].
      apply orb_false_elim in Ea as [E1 E2]. rewrite E1, E2 in E.
      repeat match type of E with
             | (if ?b then _ else _) = _ => destruct b; [discriminate|]
             end. discriminate.
  - intros E. destruct (decide (TrimSpace text = text)) as [Ht|Ht]; [|now right].
    left. unfold handleText, middleware in E.
    destruct (adminOnly text) eqn:Ea.
    + destruct isAdmin; [reflexivity|discriminate].
    + exfalso. unfold onText in E. cbv zeta in E. rewrite Ht in E.
      unfold adminOnly in Ea. apply orb_false_elim in Ea as [Ea _].
      apply orb_false_elim in Ea as [E1 E2]. rewrite E1, E2 in E.
      repeat match type of E with
             | (if ?b then _ else _) = _ => destruct b; [discriminate|]
             end. discriminate.
  - intros Ea ->. unfold handleText, middleware. now rewrite Ea.
  - intros arg E. unfold onText in E. cbv zeta in E.
    destruct (streq (TrimSpace text) (str "/send")); [discriminate|].
    destruct (HasPrefix (TrimSpace text) (str "/send ")) eqn:Ep.
    + split; [reflexivity|]. now inversion E.
    + repeat match type of E with
             | (if ?b then _ else _) = _ => destruct b; [discriminate|]
             end. discriminate.
Qed.

(** The middleware looks at the text as it came and the handler at the
    trimmed text: a text with a line feed before the command passes the
    middleware and is broadcast. *)
Example handleText_untrimmed :
  handleText (10 :: str "/send hi") false [] = Broadcast (str "hi").
Proof. vm_compute. reflexivity. Qed.

End TextFacts.

(** ** The properties at sample inputs *)

Section Samples.
Import Yandex Downloader Examples.

(** The sample downloader obeys the laws of a downloader. *)
#[local] Instance stub_laws : FetcherLaws (F := stub).
Proof.
  split.
  - intros y url dest m d r m' d' E Hd. simpl in E. rewrite Hd in E.
    inversion E; subst. eauto.
  - intros y url dest m d r m' d' p E Hp. simpl in E.
    destruct (is_dir m dest) eqn:Hd; [inversion E; subst; exact Hp|].
    destruct (negb (is_dir m (removelast dest))); inversion E; subst; [exact Hp|].
    unfold is_dir in *. destruct p as [|x q]; [reflexivity|].
    destruct (decide (dest = x :: q)) as [->|Hne]; [congruence|].
    now rewrite lookup_insert_ne by exact Hne.
Qed.

(** The server sends 5 bytes without declaring a length to a downloader
    with a ceiling of 3: the download fails with [ErrFileTooLarge], also
    through [GetFile], whose share link is redirected to the downloader
    host. *)
Lemma downloadByURL_wire_ceiling_witness :
  maxSize y3 < Z.of_nat (length (bytes (RespBody getChunked))) /\
  fst (downloadByURL (T := scripted) y3 directLink
         (netWorld [inr headUnknown; inr getChunked])) = inl ErrFileTooLarge /\
  fst (GetFile (T := scripted) y3 shareLink
         (netWorld [inr redirect; inr headUnknown; inr getChunked])) = inl ErrFileTooLarge.
Proof.
  split; [vm_compute; reflexivity|]. split.
  - apply (proj1 (proj2 (proj2 (proj2
             (downloadByURL_wire_ceiling (T := scripted) y3 directLink
                (netWorld [inr headUnknown; inr getChunked])))))
             headUnknown [inr getChunked] getChunked []);
      try reflexivity; try (vm_compute; split; congruence); try (left; reflexivity).
  - apply (proj1 (proj2 (proj2 (proj2 (proj2
             (downloadByURL_wire_ceiling (T := scripted) y3 shareLink
                (netWorld [inr redirect; inr headUnknown; inr getChunked]))))))
             directLink
             (@Yandex.mkWorld scripted [inr headUnknown; inr getChunked]
                [EvDo (mkRequest MethodGet shareLink)])
             headUnknown [inr getChunked] getChunked []);
      try reflexivity; try (vm_compute; split; congruence); try (left; reflexivity).
Defined.

(** C1 as stated fails: the server declares 2 bytes, at or under the
    ceiling of 3, and sends 5, more than the ceiling; the client hands
    over the 2 bytes declared, and [downloadByURL] and [GetFile] return
    them without an error. *)
Lemma GetFile_declared_short_of_stream :
  maxSize y3 < Z.of_nat (length (bytes (RespBody getLong))) /\
  0 < ContentLength getLong <= maxSize y3 /\
  fst (downloadByURL (T := scripted) y3 directLink
         (netWorld [inr headUnknown; inr getLong]))
    = inr ([Byte.x01; Byte.x02], str "document") /\
  fst (GetFile (T := scripted) y3 shareLink
         (netWorld [inr redirect; inr headUnknown; inr getLong]))
    = inr ([Byte.x01; Byte.x02], str "document") /\
  fst (GetFile (T := scripted) y3 shareLink
         (netWorld [inr redirect; inr headUnknown; inr getLong]))
    <> inl ErrFileTooLarge.
Proof.
  split; [vm_compute; reflexivity|]. split; [vm_compute; split; congruence|].
  split; [vm_compute; reflexivity|]. split; [vm_compute; reflexivity|].
  vm_compute. discriminate.
Qed.

(** The foreign host redirects to the downloader host: [GetDirectURL]
    sends the GET and returns the address it was redirected to. *)
Lemma GetDirectURL_foreign_host_witness :
  TrimSpace foreignLink = foreignLink /\
  isYandexDiskURL foreignLink = true /\
  (exists rest,
     log (snd (GetDirectURL (T := scripted) y3 foreignLink (netWorld [inr redirect]))) =
       log (netWorld [inr redirect]) ++ EvDo (mkRequest MethodGet foreignLink) :: rest) /\
  GetDirectURL (T := scripted) y3 foreignLink (netWorld [inr redirect])
    <> (inr foreignLink, netWorld [inr redirect]).
Proof.
  apply (GetDirectURL_foreign_host (T := scripted) y3 (netWorld [inr redirect])).
  reflexivity.
Defined.

(** The run of the witness, evaluated. *)
Example GetDirectURL_foreign_host_run :
  GetDirectURL (T := scripted) y3 foreignLink (netWorld [inr redirect]) =
  (inr directLink,
   @Yandex.mkWorld scripted [] [EvDo (mkRequest MethodGet foreignLink)]).
Proof. vm_compute. reflexivity. Qed.

(** The HEAD response declares 100 bytes to a downloader with a ceiling of
    3; and the GET response does, after a HEAD response without a length. *)
Lemma downloadByURL_declared_too_large_witness :
  downloadByURL (T := scripted) y3 directLink (netWorld [inr headHuge; inr getLong]) =
    (inl ErrFileTooLarge,
     @Yandex.mkWorld scripted [inr getLong] [EvDo (mkRequest MethodHead directLink)]) /\
  downloadByURL (T := scripted) y3 directLink (netWorld [inr headUnknown; inr getHuge]) =
    (inl ErrFileTooLarge,
     @Yandex.mkWorld scripted []
       [EvDo (mkRequest MethodHead directLink); EvDo (mkRequest MethodGet directLink)]).
Proof.
  split.
  - apply (proj1 (downloadByURL_declared_too_large (T := scripted) y3 directLink
                    (netWorld [inr headHuge; inr getLong]) headHuge [inr getLong]
                    eq_refl eq_refl (or_introl eq_refl)));
      vm_compute; reflexivity.
  - apply (proj2 (downloadByURL_declared_too_large (T := scripted) y3 directLink
                    (netWorld [inr headUnknown; inr getHuge]) headUnknown [inr getHuge]
                    eq_refl eq_refl (or_introl eq_refl)) getHuge []);
      try reflexivity; try (vm_compute; reflexivity).
    vm_compute. intros [H _]. discriminate.
Defined.

(** The share link is redirected to the downloader host, whose HEAD
    response carries no length. *)
Lemma GetFileSize_unknown_length_witness :
  GetFileSize (T := scripted) y3 shareLink (netWorld [inr redirect; inr headUnknown]) =
  (inr (-1),
   @Yandex.mkWorld scripted []
     [EvDo (mkRequest MethodGet shareLink); EvDo (mkRequest MethodHead directLink)]).
Proof.
  apply (GetFileSize_unknown_length (T := scripted) y3 shareLink directLink
           (netWorld [inr redirect; inr headUnknown])
           (@Yandex.mkWorld scripted [inr headUnknown] [EvDo (mkRequest MethodGet shareLink)])
           headUnknown []).
  - vm_compute. discriminate.
  - vm_compute. reflexivity.
  - vm_compute. reflexivity.
  - reflexivity.
  - reflexivity.
  - left. reflexivity.
  - vm_compute. reflexivity.
Defined.

(** A write fault in the single-file builder and a zip fault in the bulk
    builder, both after the workspace was made. *)
Lemma builders_cleanup_on_error_witness :
  fst (singleRun (str "report.pdf") [None; Some 5%nat]) = inl (ErrOS 5) /\
  workspaceRemoved singleDir0 (snd (singleRun (str "report.pdf") [None; Some 5%nat])) /\
  fst (bulkRun batch [None; None; Some 7%nat]) = inl (ErrOS 7) /\
  workspaceRemoved bulkDir0 (snd (bulkRun batch [None; None; Some 7%nat])).
Proof.
  split; [vm_compute; reflexivity|]. split; [|split; [vm_compute; reflexivity|]].
  - apply (proj1 (builders_cleanup_on_error (P := linux) (F := stub))
             [Byte.x01] (str "report.pdf") (str "report.zip") (str "ID")
             (emptyWorld [None; Some 5%nat])
             (snd (os_MkdirAll singleDir0 (emptyWorld [None; Some 5%nat])))
             (snd (singleRun (str "report.pdf") [None; Some 5%nat]))
             (ErrOS 5));
      vm_compute; reflexivity.
  - apply (proj2 (builders_cleanup_on_error (P := linux) (F := stub))
             y3 batch (str "Docs") (str "ID") 100 1000
             (emptyWorld [None; None; Some 7%nat])
             (snd (os_MkdirAll bulkDir0 (emptyWorld [None; None; Some 7%nat])))
             (snd (bulkRun batch [None; None; Some 7%nat]))
             (ErrOS 7));
      try (vm_compute; reflexivity). discriminate.
Defined.

(** The sample batch is zipped into three entries. *)
Lemma BulkDownloadAndZip_entries_witness :
  bulkRun batch [] = (inr (bulkZip0, bulkDir0), snd (bulkRun batch [])) /\
  archiveNames (fs (snd (bulkRun batch []))) bulkZip0 =
    Some [str "a.txt"; str "a_1.txt"; str "a_1_1.txt"] /\
  NoDup (assignNames 0 ∅ batch).
Proof.
  assert (H : bulkRun batch [] = (inr (bulkZip0, bulkDir0), snd (bulkRun batch [])))
    by (vm_compute; reflexivity).
  split; [exact H|].
  destruct (BulkDownloadAndZip_entries (P := linux) (F := stub) (L := stub_laws)
              (Some y3) batch (str "Docs") (str "ID") 100 1000
              (emptyWorld []) (snd (bulkRun batch [])) bulkZip0 bulkDir0 H)
    as ((es & Hfs & Hnames) & _ & Hnd & _).
  split; [|exact Hnd].
  unfold archiveNames. rewrite Hfs, Hnames. vm_compute. reflexivity.
Defined.

(** C4 as stated fails on the sample batch: the third item is the first
    one to ask for the name [a_1.txt] (no earlier item has that base name),
    so by the convention it keeps it; the archive names it [a_1_1.txt],
    because the second item was renamed to [a_1.txt]. *)
Lemma BulkDownloadAndZip_convention_broken :
  fst (bulkRun batch []) = inr (bulkZip0, bulkDir0) /\
  archiveNames (fs (snd (bulkRun batch []))) bulkZip0 =
    Some [str "a.txt"; str "a_1.txt"; str "a_1_1.txt"] /\
  conventionNames 0 [] batch = [str "a.txt"; str "a_1.txt"; str "a_1.txt"] /\
  map (fun it => sanitizeBulkFilename (Filename it)) batch =
    [str "a.txt"; str "a.txt"; str "a_1.txt"] /\
  archiveNames (fs (snd (bulkRun batch []))) bulkZip0 <> Some (conventionNames 0 [] batch).
Proof.
  split; [vm_compute; reflexivity|]. split; [vm_compute; reflexivity|].
  split; [vm_compute; reflexivity|]. split; [vm_compute; reflexivity|].
  vm_compute. discriminate.
Qed.

(** The path components of the inner file name are dropped. *)
Lemma ZipBytesToTemp_single_entry_witness :
  singleRun (str "x/report.pdf") [] =
    (inr (singleZip0, singleDir0), snd (singleRun (str "x/report.pdf") [])) /\
  (exists d,
     fs (snd (singleRun (str "x/report.pdf") [])) !! singleZip0 =
     Some (Archive [(str "report.pdf", d)] true)) /\
  sep ∉ str "report.pdf".
Proof.
  assert (H : singleRun (str "x/report.pdf") [] =
              (inr (singleZip0, singleDir0), snd (singleRun (str "x/report.pdf") [])))
    by (vm_compute; reflexivity).
  split; [exact H|].
  destruct (ZipBytesToTemp_single_entry (P := linux) (F := stub)
              [Byte.x01] (str "x/report.pdf") (str "report.zip") (str "ID")
              (emptyWorld []) (snd (singleRun (str "x/report.pdf") []))
              singleZip0 singleDir0 H)
    as ((d & ok & Hentry & Hok) & _ & Hsep).
  split; [|exact Hsep].
  exists d. rewrite (Hok eq_refl) in Hentry. exact Hentry.
Defined.

(** The second item of the sample has no usable name; its fallback base
    [file_1] is taken by the first item, and it is named [file_1_1]. *)
Lemma bulk_names_invariant_witness :
  loopRun batchFallback = (inr (fst (bulk_state_of batchFallback)), snd (loopRun batchFallback)) /\
  assignNames 0 ∅ batchFallback = [str "file_1"; str "file_1_1"] /\
  NoDup (assignNames 0 ∅ batchFallback) /\
  used (fst (bulk_state_of batchFallback)) = list_to_set (assignNames 0 ∅ batchFallback).
Proof.
  assert (H : loopRun batchFallback =
              (inr (fst (bulk_state_of batchFallback)), snd (loopRun batchFallback)))
    by (vm_compute; reflexivity).
  split; [exact H|]. split; [vm_compute; reflexivity|].
  destruct (bulk_names_invariant (F := stub) (L := stub_laws)
              y3 bulkDir0 100 batchFallback bulkStart (snd (loopRun batchFallback))
              (fst (bulk_state_of batchFallback)) eq_refl eq_refl H)
    as (Hu & _ & _ & Hnd & _).
  split; [exact Hnd | exact Hu].
Defined.

(** At a tick one hour after the old entries were changed, the old bulk
    directory and the old temporary file are removed; the bulk directory
    changed ten minutes ago and the directory with another name stay. *)
Example cleanupTick_listing :
  Main.cleanupTick [str "tmp"] (Some listing) (60 * Main.Minute) =
  [Main.RemoveAll [str "tmp"; str "bulk_old"];
   Main.Remove [str "tmp"; str "bugchat-1.tmp"]].
Proof. vm_compute. reflexivity. Qed.

(** With 100 blocks of 4096 bytes free and a floor of 100 MiB the batch is
    rejected. *)
Example free_space_rejected :
  fst (BulkDownloadAndZip (P := linux) (F := stub) (Some y3) batch (str "Docs") 100
         Main.minFreeBytes (str "ID")
         (@Downloader.mkWorld stub ∅ [] [] (Some (Main.mkStatfs 100 4096)) tt))
  = inl ErrNotEnoughDiskSpace.
Proof. vm_compute. reflexivity. Qed.

(** The redirect of the share link names the direct URL, which is not
    empty. *)
Lemma GetDirectURL_nonempty_witness :
  GetDirectURL (T := scripted) y3 shareLink (netWorld [inr redirect]) =
    (inr directLink,
     @Yandex.mkWorld scripted [] [EvDo (mkRequest MethodGet shareLink)]) /\
  directLink <> [].
Proof.
  assert (H : GetDirectURL (T := scripted) y3 shareLink (netWorld [inr redirect]) =
              (inr directLink,
               @Yandex.mkWorld scripted [] [EvDo (mkRequest MethodGet shareLink)]))
    by (vm_compute; reflexivity).
  split; [exact H|].
  exact (GetDirectURL_nonempty (T := scripted) y3 shareLink _ _ directLink H).
Defined.

(** A download of two bytes: the HEAD request, the GET request and one
    read of two bytes. *)
Lemma downloadByURL_traffic_witness :
  downloadByURL (T := scripted) y3 directLink (netWorld [inr headUnknown; inr getShort]) =
    (inr ([Byte.x01; Byte.x02], str "document"),
     @Yandex.mkWorld scripted []
       [EvDo (mkRequest MethodHead directLink); EvDo (mkRequest MethodGet directLink);
        EvRead 2%nat]) /\
  exists evs n,
    [EvDo (mkRequest MethodHead directLink); EvDo (mkRequest MethodGet directLink);
     EvRead 2%nat] = [] ++ evs /\
    evs `prefix_of` [EvDo (mkRequest MethodHead directLink);
                     EvDo (mkRequest MethodGet directLink); EvRead n] /\
    length evs = 3%nat.
Proof.
  assert (H : downloadByURL (T := scripted) y3 directLink
                (netWorld [inr headUnknown; inr getShort]) =
              (inr ([Byte.x01; Byte.x02], str "document"),
               @Yandex.mkWorld scripted []
                 [EvDo (mkRequest MethodHead directLink);
                  EvDo (mkRequest MethodGet directLink); EvRead 2%nat]))
    by (vm_compute; reflexivity).
  split; [exact H|].
  destruct (downloadByURL_traffic (T := scripted) y3 directLink _ _ _ H)
    as (evs & n & Hlog & Hpre & Hall).
  exists evs, n. split; [exact Hlog|]. split; [exact Hpre|].
  apply Hall. eexists. reflexivity.
Defined.

(** A write fault in the single-file builder: a file outside the chain of
    the workspace is as before. *)
Lemma ZipBytesToTemp_frame_witness :
  fs (snd (singleRun (str "report.pdf") [None; Some 5%nat])) !! [str "home"; str "notes"] =
  fs (emptyWorld [None; Some 5%nat]) !! [str "home"; str "notes"].
Proof.
  apply (ZipBytesToTemp_frame (P := linux) (F := stub)
           [Byte.x01] (str "report.pdf") (str "report.zip") (str "ID")
           (emptyWorld [None; Some 5%nat])
           (snd (singleRun (str "report.pdf") [None; Some 5%nat]))
           (fst (singleRun (str "report.pdf") [None; Some 5%nat]))).
  - vm_compute. reflexivity.
  - intros [[k H]|[k H]]; vm_compute in H; discriminate.
Defined.

(** Without a fault the entry holds the byte given. *)
Lemma ZipBytesToTemp_entry_bytes_witness :
  fs (snd (singleRun (str "x/report.pdf") [])) !! singleZip0 =
  Some (Archive [(str "report.pdf", [Byte.x01])] true).
Proof.
  assert (H : singleRun (str "x/report.pdf") [] =
              (inr (singleZip0, singleDir0), snd (singleRun (str "x/report.pdf") [])))
    by (vm_compute; reflexivity).
  assert (Hne : Join singleDir0 (str "report.pdf") <> singleZip0)
    by (vm_compute; discriminate).
  destruct (ZipBytesToTemp_entry_bytes (P := linux) (F := stub)
              [Byte.x01] (str "x/report.pdf") (str "report.zip") (str "ID")
              (emptyWorld []) (snd (singleRun (str "x/report.pdf") []))
              singleZip0 singleDir0 H)
    as (d & ok & Hentry & _ & Hall).
  destruct (Hall eq_refl Hne) as (-> & -> & _). exact Hentry.
Defined.

(** The archive of the sample batch lies in the workspace under the name
    of the category. *)
Lemma BulkDownloadAndZip_paths_witness :
  bulkDir0 = Join (@TempDir linux) (str "bulk_ID") /\
  bulkZip0 = bulkDir0 ++ [str "Docs.zip"] /\
  Base (render bulkZip0) = str "Docs.zip".
Proof.
  assert (H : bulkRun batch [] = (inr (bulkZip0, bulkDir0), snd (bulkRun batch [])))
    by (vm_compute; reflexivity).
  destruct (BulkDownloadAndZip_paths (P := linux) (F := stub)
              (Some y3) batch (str "Docs") (str "ID") 100 1000
              (emptyWorld []) (snd (bulkRun batch [])) bulkZip0 bulkDir0 H)
    as (Hdir & Hzip & Hbase & _).
  split; [exact Hdir|]. split; [exact Hzip|exact Hbase].
Defined.

(** The three downloads of the sample batch, in order. *)
Lemma BulkDownloadAndZip_downloads_witness :
  downloadsOf (calls (snd (bulkRun batch []))) =
  [(str "u1", bulkDir0 ++ [str "a.txt"]);
   (str "u2", bulkDir0 ++ [str "a_1.txt"]);
   (str "u3", bulkDir0 ++ [str "a_1_1.txt"])].
Proof.
  assert (H : bulkRun batch [] = (inr (bulkZip0, bulkDir0), snd (bulkRun batch [])))
    by (vm_compute; reflexivity).
  destruct (BulkDownloadAndZip_downloads (P := linux) (F := stub)
              (Some y3) batch (str "Docs") (str "ID") 100 1000
              (emptyWorld []) (snd (bulkRun batch [])) _ H)
    as (k & _ & Hd & Hall).
  rewrite (Hall (ex_intro _ _ eq_refl)) in Hd. rewrite Hd. vm_compute. reflexivity.
Defined.

End Samples.

(** ** The handlers at sample inputs *)

Section HandlerSamples.
Import Yandex Downloader Sheets Handlers Examples.

(** The sample sheet has two documents of the category, on the rows 2 and
    4 of the sheet. *)
Lemma GetDocumentsByCategory_rows_witness :
  exists docs,
    GetDocumentsByCategory (S := sheetStub) (str "c1") sheetRows = (inr docs, sheetRows) /\
    map SheetRow docs = [2; 4] /\
    StronglySorted Z.lt (map SheetRow docs).
Proof.
  destruct (GetDocumentsByCategory_rows (S := sheetStub) (str "c1") sheetRows sheetRows
              sheetRows eq_refl) as (docs & Hd & _ & _ & Hs).
  exists docs. split; [exact Hd|]. split; [|exact Hs].
  vm_compute in Hd. inversion Hd; subst. reflexivity.
Defined.

(** The first document of the category is downloaded, zipped and sent;
    afterwards the workspace is gone. *)
Lemma runProxyArchive_workspace_gone_witness :
  absent singleDir0 (files (proxyRun [])).
Proof.
  apply (runProxyArchive_workspace_gone (P := linux) (T := scripted) (F := stub)
           (S := sheetStub) (B := botStub)
           (Some y3) (str "c1") 0 true (str "ID") (appWorld proxyScript [])).
  intros p _. reflexivity.
Defined.

(** The run went to the network: the document has a Yandex Disk link and
    no file identifier. *)
Lemma runProxyArchive_network_witness :
  exists y docs d,
    Some y3 = Some y /\
    fst (GetDocumentsByCategory (S := sheetStub) (str "c1") sheetRows) = inr docs /\
    0 <= 0 /\ docs !! Z.to_nat 0 = Some d /\
    FileID d = [] /\
    isYandexDiskURL (TrimSpace (Ссылка d)) = true /\
    Main.minFreeBytes <=
      Main.getFreeSpaceBytes (@windows linux) (disk (emptyWorld [])).
Proof.
  apply (runProxyArchive_network (P := linux) (T := scripted) (F := stub)
           (S := sheetStub) (B := botStub)
           (Some y3) (str "c1") 0 true (str "ID") (appWorld proxyScript [])).
  vm_compute. discriminate.
Defined.

(** The file identifier that the bot returned is written to the row 2 of
    the sheet, the row of the document. *)
Lemma runProxyArchive_caches_on_row_witness :
  exists docs d,
    fst (GetDocumentsByCategory (S := sheetStub) (str "c1") sheetRows) = inr docs /\
    0 <= 0 /\ docs !! Z.to_nat 0 = Some d /\
    FileID d = [] /\
    fileIDRange 2 = fileIDRange (SheetRow d) /\ str "F1" <> [] /\
    exists zipPath name caption file,
      Sent (DocumentFromDisk zipPath name caption) file ∈ acts (proxyRun []).
Proof.
  assert (Hin : Updated (fileIDRange 2) (str "F1") ∈ acts (proxyRun []))
    by (apply (list_elem_of_lookup_2 _ 1%nat); vm_compute; reflexivity).
  destruct (runProxyArchive_caches_on_row (P := linux) (T := scripted) (F := stub)
              (S := sheetStub) (B := botStub)
              (Some y3) (str "c1") 0 true (str "ID") (appWorld proxyScript [])
              (fileIDRange 2) (str "F1") Hin) as [Hold|H].
  - now apply elem_of_nil in Hold.
  - exact H.
Defined.

(** The two documents of the category are downloaded, zipped and sent;
    afterwards the workspace is gone. *)
Lemma runBulkDownload_workspace_gone_witness :
  absent bulkDir0 (files (bulkHandlerRun [])).
Proof.
  apply (runBulkDownload_workspace_gone (P := linux) (T := scripted) (F := stub)
           (S := sheetStub) (B := botStub)
           (Some y3) (str "c1") true (str "ID") (appWorld [] [])).
  intros p _. reflexivity.
Defined.


(** The broadcast goes to the one chat of the sample sheet, which cannot
    be reached: one error is reported. *)
Lemma onSend_broadcast_witness :
  NoDup [2] /\
  exists new sent failed,
    acts (onSend (str "hi") (appWorld [] [])) =
      acts (appWorld [] []) ++ new ++ [Sent (broadcastReport sent failed) None] /\
    sentTos new = map (fun id => (id, str "hi")) [2] /\
    failed = Z.of_nat (length (loggedOf new)) /\
    0 <= sent /\ sent + failed = Z.of_nat (length [2]) /\
    (forall what file, Sent what file ∉ new).
Proof.
  apply (onSend_broadcast (T := scripted) (F := stub)
           (S := sheetStub) (B := botStub)
           (str "hi") (appWorld [] []) [2] sheetRows);
    [discriminate|vm_compute; reflexivity].
Defined.

(** Rows of 27 cells: the end column is one character and not [AA]. *)
Lemma WriteSheetData_end_column_witness :
  length (writeEndCol 27) = 1%nat /\ (writeEndCol 27 = colToLetter 27 <-> 1 <= 27 <= 26).
Proof. apply (WriteSheetData_end_column 27). vm_compute. split; discriminate. Defined.

End HandlerSamples.
